(** * Automation engine: error taxonomy, backoff, templates, webhook admission
      and the run processor, embedded from the TypeScript sources.

    Conventions of the embedding.
    - A JavaScript string is a [string]; one [ascii] stands for one code unit
      below 256, so [String.length] is the [.length] of the source.
    - A JavaScript number is an IEEE-754 double ([Double.double]: the
      rational it stands for, or an infinity, or NaN), and arithmetic on
      numbers rounds to nearest, ties to even.  In a JSON-shaped value a
      number is written as the integer or the fraction it comes from and
      read as the nearest double; [String(n)] and [JSON.stringify(n)] print
      it as the language does (the shortest decimal that reads back, in
      exponent form from 1e21 on and below 1e-6).  Fields that hold counts,
      indices, status codes and times in milliseconds are integers ([Z]).
    - A JavaScript object used as a record keeps its keys in insertion order:
      an association list.  A member whose value is [undefined] and a member
      that is absent are not told apart by anything below, and a JSON column
      gives back what was written up to this and up to the order of the
      keys.  Database tables keyed by id are [gmap]s, the set of held Redis
      locks is a [gset].
    - Repository, queue and lock calls are total: an infrastructure failure
      (lost connection, serialisation error) is outside the model.  What the
      source reads from its environment (clock, [Math.random], the outcome of
      a step handler, the expression language) is an explicit argument; the
      clock is read once when a call starts and once when the handler's race
      has settled.
    - One call of a processor entry point or of a route runs to its end
      before the next one starts, and a lock that is held does not expire. *)

From Stdlib Require Import ZArith QArith Qpower Qminmax Qround Qabs Lqa Lia Bool List.
From Stdlib Require Import Ascii String DecimalString SpecFloat.
From stdpp Require Import gmap strings list fin_maps.

Set Default Proof Using "Type".
Set Warnings "-register-all".
Local Open Scope Z_scope.

(** ** Strings *)

Definition dquote : ascii := Ascii.ascii_of_nat 34.

(** ** Numbers

    A JavaScript number is an IEEE-754 binary64 value.  A finite one is the
    rational it stands for; the sign of zero, which nothing below can
    observe, is not kept. *)

Module Double.

Inductive double :=
| Fin (q : Q)
| PosInf
| NegInf
| NaN.

Definition pow2 (k : Z) : Q := (2 ^ k)%Q.

(** For [0 < x]: the [e] with [2^e <= x < 2^(e+1)]. *)
Definition floorLog2 (x : Q) : Z :=
  let k := Z.log2 (Qnum x) - Z.log2 (Zpos (Qden x)) in
  if Qle_bool (pow2 k) x then k else k - 1.

(** The nearest integer, the even one of two equally near. *)
Definition roundHalfEven (x : Q) : Z :=
  let f := Qfloor x in
  match (x - inject_Z f ?= 1 # 2)%Q with
  | Lt => f
  | Gt => f + 1
  | Eq => if Z.even f then f else f + 1
  end.

(** The distance between neighbouring doubles around [x]: 53 significant
    bits, and the exponent of the subnormals below [2^-1022]. *)
Definition quantum (x : Q) : Q :=
  pow2 (Z.max (floorLog2 (Qabs x)) (-1022) - 52).

(** Round to nearest, ties to even; what reaches [2^1024] is infinite. *)
Definition round (x : Q) : double :=
  if Qeq_bool x 0 then Fin 0
  else
    let q := quantum x in
    let y := (inject_Z (roundHalfEven (x / q)) * q)%Q in
    if Qle_bool (pow2 1024) (Qabs y) then (if Qle_bool 0 x then PosInf else NegInf)
    else Fin (Qred y).

(** The number an integer literal or an integer-valued field denotes. *)
Definition ofZ (z : Z) : double := round (inject_Z z).

Definition isZero (q : Q) : bool := Qeq_bool q 0.

(** [a * b] *)
Definition mul (a b : double) : double :=
  match a, b with
  | NaN, _ | _, NaN => NaN
  | Fin x, Fin y => round (x * y)
  | Fin x, PosInf | PosInf, Fin x =>
      if isZero x then NaN else if Qle_bool 0 x then PosInf else NegInf
  | Fin x, NegInf | NegInf, Fin x =>
      if isZero x then NaN else if Qle_bool 0 x then NegInf else PosInf
  | PosInf, PosInf | NegInf, NegInf => PosInf
  | PosInf, NegInf | NegInf, PosInf => NegInf
  end.

(** [a + b] *)
Definition add (a b : double) : double :=
  match a, b with
  | NaN, _ | _, NaN => NaN
  | Fin x, Fin y => round (x + y)
  | PosInf, NegInf | NegInf, PosInf => NaN
  | PosInf, _ | _, PosInf => PosInf
  | NegInf, _ | _, NegInf => NegInf
  end.

(** [Math.min(a, b)] *)
Definition min (a b : double) : double :=
  match a, b with
  | NaN, _ | _, NaN => NaN
  | NegInf, _ | _, NegInf => NegInf
  | PosInf, c | c, PosInf => c
  | Fin x, Fin y => if Qle_bool x y then a else b
  end.

(** [Math.pow(2, k)] for an integer [k]: exact where a double can hold it. *)
Definition powerOfTwo (k : Z) : double :=
  if 1024 <=? k then PosInf
  else if k <? -1075 then Fin 0
  else round (pow2 k).

(** [a === x] for a rational [x] *)
Definition isFin (x : Q) (a : double) : bool :=
  match a with
  | Fin y => Qeq_bool x y
  | _ => false
  end.

(** *** [Number::toString] *)

Definition digits (n : Z) : string := NilZero.string_of_int (Z.to_int n).

Definition pow10 (k : Z) : Q := (10 ^ k)%Q.

(** For [0 < x]: the [n] with [10^(n-1) <= x < 10^n]. *)
Definition decimalExponent (x : Q) : Z :=
  let k := Z.of_nat (String.length (digits (Qnum x)))
           - Z.of_nat (String.length (digits (Zpos (Qden x)))) in
  if Qle_bool (pow10 k) x then k + 1 else k.

(** The decimals of [k] digits just below and just above [x], and the one
    to print when either reads back as [x]: the nearer one, the even one of
    two equally near. *)
Definition candidate (x : Q) (n k : Z) : option (Z * Z) :=
  let scale := pow10 (n - k) in
  let lo := Qfloor (x / scale) in
  let hi := lo + 1 in
  let okLo := isFin x (round (inject_Z lo * scale)) in
  let okHi := isFin x (round (inject_Z hi * scale)) in
  let up := if hi =? 10 ^ k then (10 ^ (k - 1), n + 1) else (hi, n) in
  match okLo, okHi with
  | true, true =>
      match (x - inject_Z lo * scale ?= inject_Z hi * scale - x)%Q with
      | Lt => Some (lo, n)
      | Gt => Some up
      | Eq => if Z.even lo then Some (lo, n) else Some up
      end
  | true, false => Some (lo, n)
  | false, true => Some up
  | false, false => None
  end.

(** The shortest decimal that reads back as [x]: its digits [s] and the
    [n] with [x] about [s * 10^(n - k)], [k] the number of digits. *)
Fixpoint shortest (fuel : nat) (x : Q) (n k : Z) : Z * Z :=
  match fuel with
  | O => (Qfloor (x / pow10 (n - k)), n)
  | S fuel' =>
      match candidate x n k with
      | Some r => r
      | None => shortest fuel' x n (k + 1)
      end
  end.

Fixpoint zeros (n : nat) : string :=
  match n with
  | O => EmptyString
  | S n' => String "0" (zeros n')
  end.

(** The text of a double [0 < x]. *)
Definition positiveToString (x : Q) : string :=
  let (s, n) := shortest 17 x (decimalExponent x) 1 in
  let ds := digits s in
  let k := Z.of_nat (String.length ds) in
  if (k <=? n) && (n <=? 21) then ds +:+ zeros (Z.to_nat (n - k))
  else if (0 <? n) && (n <=? 21) then
    substring 0 (Z.to_nat n) ds +:+ "." +:+ substring (Z.to_nat n) (Z.to_nat (k - n)) ds
  else if (-6 <? n) && (n <=? 0) then "0." +:+ zeros (Z.to_nat (- n)) +:+ ds
  else
    let e := n - 1 in
    let exponent := (if 0 <=? e then "e+" else "e-") +:+ digits (Z.abs e) in
    if k =? 1 then ds +:+ exponent
    else substring 0 1 ds +:+ "." +:+ substring 1 (Z.to_nat (k - 1)) ds +:+ exponent.

(** [String(a)] *)
Definition toString (a : double) : string :=
  match a with
  | NaN => "NaN"
  | PosInf => "Infinity"
  | NegInf => "-Infinity"
  | Fin x =>
      if isZero x then "0"
      else if Qle_bool 0 x then positiveToString x
      else "-" +:+ positiveToString (- x)
  end.

(** [JSON.stringify(a)] *)
Definition toJSON (a : double) : string :=
  match a with
  | Fin _ => toString a
  | _ => "null"
  end.

End Double.

(** ** Dates *)

Module Date.

Definition msPerDay : Z := 86400000.

(** Year, month and day of the day [days] after 1970-01-01, in the
    proleptic Gregorian calendar. *)
Definition civil (days : Z) : Z * Z * Z :=
  let z := days + 719468 in
  let era := z / 146097 in
  let doe := z - era * 146097 in
  let yoe := (doe - doe / 1460 + doe / 36524 - doe / 146096) / 365 in
  let doy := doe - (365 * yoe + yoe / 4 - yoe / 100) in
  let mp := (5 * doy + 2) / 153 in
  let d := doy - (153 * mp + 2) / 5 + 1 in
  let m := if mp <? 10 then mp + 3 else mp - 9 in
  let y := yoe + era * 400 + (if m <=? 2 then 1 else 0) in
  (y, m, d).

Definition pad (width : nat) (n : Z) : string :=
  let ds := Double.digits n in
  Double.zeros (width - String.length ds) +:+ ds.

Definition yearText (y : Z) : string :=
  if (0 <=? y) && (y <=? 9999) then pad 4 y
  else (if 0 <=? y then "+" else "-") +:+ pad 6 (Z.abs y).

(** [new Date(t).toISOString()] for a time value [t] within the range of
    [Date], [-8.64e15 .. 8.64e15]. *)
Definition toISOString (t : Z) : string :=
  let days := t / msPerDay in
  let ms := t mod msPerDay in
  let '(y, m, d) := civil days in
  yearText y +:+ "-" +:+ pad 2 m +:+ "-" +:+ pad 2 d +:+ "T"
  +:+ pad 2 (ms / 3600000) +:+ ":" +:+ pad 2 (ms / 60000 mod 60) +:+ ":"
  +:+ pad 2 (ms / 1000 mod 60) +:+ "." +:+ pad 3 (ms mod 1000) +:+ "Z".

Definition isValid (t : Z) : bool := Z.abs t <=? 8640000000000000.

End Date.

(** ** Strings, continued *)

(** [String(n)] and template-literal interpolation of the number an
    integer denotes. *)
Definition Z_to_string (z : Z) : string := Double.toString (Double.ofZ z).

Fixpoint startsWith (p s : string) : bool :=
  match p, s with
  | EmptyString, _ => true
  | String a p', String b s' => if Ascii.eqb a b then startsWith p' s' else false
  | String _ _, EmptyString => false
  end.

(** [hay.includes(needle)] *)
Fixpoint includes (needle hay : string) : bool :=
  startsWith needle hay ||
  match hay with
  | EmptyString => false
  | String _ hay' => includes needle hay'
  end.

Fixpoint occurs (c : ascii) (s : string) : bool :=
  match s with
  | EmptyString => false
  | String a s' => Ascii.eqb c a || occurs c s'
  end.

(** ** JSON-shaped values *)

Inductive value : Type :=
| VUndefined
| VNull
| VBool (b : bool)
| VNum (n : Z)        (* the number an integer denotes *)
| VFrac (q : Q)       (* the number a fraction denotes *)
| VStr (s : string)
| VArr (items : list value)
| VObj (fields : list (string * value)).

(** ** domain/errors.ts *)

Module Errors.

Inductive ErrorCategory :=
| TRANSIENT | RESOURCE | VALIDATION | AUTHORIZATION | NOT_FOUND | FATAL.

Definition ErrorCategory_eqb (a b : ErrorCategory) : bool :=
  match a, b with
  | TRANSIENT, TRANSIENT | RESOURCE, RESOURCE | VALIDATION, VALIDATION
  | AUTHORIZATION, AUTHORIZATION | NOT_FOUND, NOT_FOUND | FATAL, FATAL => true
  | _, _ => false
  end.

Record ClassifiedError := {
  category : ErrorCategory;
  retryable : bool;
  code : string;
  message : string;
  details : value;   (* [VUndefined] when absent *)
}.

(** An instance of [WorkflowError] is described by the four arguments of
    its constructor; its fields are [readonly], and [retryable] is the one
    the constructor computes from the category. *)
Record WorkflowError := newWorkflowError {
  we_code : string;
  we_message : string;
  we_category : ErrorCategory;
  we_details : value;
}.

Definition we_retryable (e : WorkflowError) : bool :=
  ErrorCategory_eqb (we_category e) TRANSIENT
  || ErrorCategory_eqb (we_category e) RESOURCE.

Definition toClassified (e : WorkflowError) : ClassifiedError :=
  {| category := we_category e;
     retryable := we_retryable e;
     code := we_code e;
     message := we_message e;
     details := we_details e |}.

(** A thrown JavaScript value: a [WorkflowError], another [Error] with its
    [name] and [message], or anything else. *)
Inductive Thrown :=
| ThrownWorkflowError (e : WorkflowError)
| ThrownError (name message : string)
| ThrownOther (asString : string).   (* [String(error)] of a non-Error *)

Definition orDefault (m : option string) (d : string) : string :=
  match m with Some s => s | None => d end.

Definition classifyHttpError (status : Z) (msg : option string) : ClassifiedError :=
  if (status >=? 500) && (status <? 600) then
    {| category := TRANSIENT; retryable := true;
       code := "HTTP_" +:+ Z_to_string status;
       message := orDefault msg ("Server error: " +:+ Z_to_string status);
       details := VUndefined |}
  else if status =? 429 then
    {| category := TRANSIENT; retryable := true;
       code := "HTTP_429";
       message := orDefault msg "Rate limited";
       details := VUndefined |}
  else if (status =? 401) || (status =? 403) then
    {| category := AUTHORIZATION; retryable := false;
       code := "HTTP_" +:+ Z_to_string status;
       message := orDefault msg "Authorization failed";
       details := VUndefined |}
  else if status =? 404 then
    {| category := NOT_FOUND; retryable := false;
       code := "HTTP_404";
       message := orDefault msg "Resource not found";
       details := VUndefined |}
  else if (status >=? 400) && (status <? 500) then
    {| category := VALIDATION; retryable := false;
       code := "HTTP_" +:+ Z_to_string status;
       message := orDefault msg ("Client error: " +:+ Z_to_string status);
       details := VUndefined |}
  else
    {| category := FATAL; retryable := false;
       code := "HTTP_" +:+ Z_to_string status;
       message := orDefault msg ("Unexpected status: " +:+ Z_to_string status);
       details := VUndefined |}.

Definition unknownError (msg : string) : ClassifiedError :=
  {| category := FATAL; retryable := false;
     code := "UNKNOWN_ERROR"; message := msg; details := VUndefined |}.

Definition classifyError (error : Thrown) : ClassifiedError :=
  match error with
  | ThrownWorkflowError e => toClassified e
  | ThrownError name msg =>
      if includes "ECONNREFUSED" msg || includes "ENOTFOUND" msg
         || includes "ETIMEDOUT" msg || includes "ECONNRESET" msg
         || includes "socket hang up" msg then
        {| category := TRANSIENT; retryable := true;
           code := "NETWORK_ERROR"; message := msg; details := VUndefined |}
      else if includes "timeout" msg || String.eqb name "TimeoutError" then
        {| category := TRANSIENT; retryable := true;
           code := "TIMEOUT"; message := msg; details := VUndefined |}
      else if String.eqb name "ZodError" || String.eqb name "ValidationError" then
        {| category := VALIDATION; retryable := false;
           code := "VALIDATION_ERROR"; message := msg; details := VUndefined |}
      else unknownError msg
  | ThrownOther s => unknownError s
  end.

Inductive BackoffType := fixed | exponential | linear.

(** The literal [0.1] *)
Definition tenth : Double.double := Double.round (1 # 10).

(** [random] is the value [Math.random()] returned, in [0, 1).  [attempt]
    is the integer the message carries: [attempt - 1] is then exact, and a
    double holds [2^(attempt - 1)] exactly or not at all. *)
Definition calculateBackoff (backoffType : BackoffType) (attempt : Z)
    (initialDelayMs maxDelayMs : Double.double) (random : Double.double)
    : Double.double :=
  let delay :=
    match backoffType with
    | fixed => initialDelayMs
    | linear => Double.mul initialDelayMs (Double.ofZ attempt)
    | exponential => Double.mul initialDelayMs (Double.powerOfTwo (attempt - 1))
    end in
  let jitter := Double.mul delay (Double.add tenth (Double.mul random tenth)) in
  let delay := Double.add delay jitter in
  Double.min delay maxDelayMs.

End Errors.

(** ** domain/services/expression.ts *)

Module Expression.

(** *** String helpers of the JavaScript runtime *)

(** White space removed by [String.prototype.trim], among code units below
    256: TAB, LF, VT, FF, CR, SPACE and NBSP. *)
Definition isWhiteSpace (c : ascii) : bool :=
  let n := nat_of_ascii c in
  ((9 <=? n) && (n <=? 13) || (n =? 32) || (n =? 160))%nat.

(** Line terminators, which [.] of a regular expression does not match. *)
Definition isLineTerminator (c : ascii) : bool :=
  let n := nat_of_ascii c in ((n =? 10) || (n =? 13))%nat.

Fixpoint trimStart (s : string) : string :=
  match s with
  | EmptyString => EmptyString
  | String c s' => if isWhiteSpace c then trimStart s' else s
  end.

Fixpoint trimEnd (s : string) : string :=
  match s with
  | EmptyString => EmptyString
  | String c s' =>
      match trimEnd s' with
      | EmptyString => if isWhiteSpace c then EmptyString else String c EmptyString
      | t => String c t
      end
  end.

Definition trim (s : string) : string := trimEnd (trimStart s).

Fixpoint forallb_string (p : ascii -> bool) (s : string) : bool :=
  match s with
  | EmptyString => true
  | String c s' => p c && forallb_string p s'
  end.

(** [s.slice(0, i)] and [s.slice(i)] for [0 <= i]. *)
Definition slice_to (i : nat) (s : string) : string := substring 0 i s.
Definition slice_from (i : nat) (s : string) : string :=
  substring i (String.length s - i) s.

(** [s.split(sep)[0]]: the part before the first [sep]. *)
Fixpoint beforeChar (sep : ascii) (s : string) : string :=
  match s with
  | EmptyString => EmptyString
  | String c s' => if Ascii.eqb c sep then EmptyString else String c (beforeChar sep s')
  end.

Fixpoint join (sep : string) (parts : list string) : string :=
  match parts with
  | [] => EmptyString
  | [x] => x
  | x :: rest => x +:+ sep +:+ join sep rest
  end.

(** *** [JSON.stringify] *)

Definition hexDigit (n : nat) : ascii :=
  match String.get n "0123456789abcdef" with Some c => c | None => "0"%char end.

Definition backslash : ascii := Ascii.ascii_of_nat 92.

Definition escapeChar (c : ascii) : string :=
  let n := nat_of_ascii c in
  if (n =? 34)%nat then String backslash (String dquote EmptyString)
  else if (n =? 92)%nat then String backslash (String backslash EmptyString)
  else if (n =? 8)%nat then String backslash "b"
  else if (n =? 12)%nat then String backslash "f"
  else if (n =? 10)%nat then String backslash "n"
  else if (n =? 13)%nat then String backslash "r"
  else if (n =? 9)%nat then String backslash "t"
  else if (n <? 32)%nat then
    String backslash ("u00" +:+ String (hexDigit (n / 16)) (String (hexDigit (n mod 16)) EmptyString))
  else String c EmptyString.

Fixpoint escapeString (s : string) : string :=
  match s with
  | EmptyString => EmptyString
  | String c s' => escapeChar c +:+ escapeString s'
  end.

Definition quote (s : string) : string :=
  String dquote (escapeString s) +:+ String dquote EmptyString.

(** [JSON.stringify v]; [None] is the [undefined] it returns for
    [undefined].  Inside an array [undefined] is written [null], inside an
    object its key is left out. *)
Fixpoint JSON_stringify (v : value) : option string :=
  match v with
  | VUndefined => None
  | VNull => Some "null"
  | VBool true => Some "true"
  | VBool false => Some "false"
  | VNum n => Some (Double.toJSON (Double.ofZ n))
  | VFrac q => Some (Double.toJSON (Double.round q))
  | VStr s => Some (quote s)
  | VArr items =>
      let fix elems (l : list value) : list string :=
        match l with
        | [] => []
        | x :: l' =>
            match JSON_stringify x with Some t => t | None => "null" end :: elems l'
        end in
      Some ("[" +:+ join "," (elems items) +:+ "]")
  | VObj fields =>
      let fix members (l : list (string * value)) : list string :=
        match l with
        | [] => []
        | (k, x) :: l' =>
            match JSON_stringify x with
            | Some t => (quote k +:+ ":" +:+ t) :: members l'
            | None => members l'
            end
        end in
      Some ("{" +:+ join "," (members fields) +:+ "}")
  end.

(** *** Execution context and the expression language *)

Record ExecutionContext := {
  trigger : value;
  steps : list (string * value);       (* keyed by step name *)
  variables : list (string * value);
}.

(** The expression language and the three built-ins are outside the
    program.  Each call of [evaluateExpression] during one resolution has an
    ordinal [k] (calls are started left to right); what the [k]-th call sees
    is given by the evaluator: the result of compiling and evaluating with
    JSONata ([None] when either throws), and what [new Date().toISOString()],
    [nanoid()] and [Date.now()] return. *)
Record Evaluator := {
  jsonata : nat -> string -> value -> option value;
  now_iso : nat -> string;
  nanoid : nat -> string;
  date_now : nat -> Z;
}.

Definition builtins (ev : Evaluator) (k : nat) (funcName : string) : option value :=
  if String.eqb funcName "$now" then Some (VStr (now_iso ev k))
  else if String.eqb funcName "$uuid" then Some (VStr (nanoid ev k))
  else if String.eqb funcName "$timestamp" then Some (VNum (date_now ev k))
  else None.

Definition dataOf (context : ExecutionContext) : value :=
  VObj [("trigger", trigger context);
        ("steps", VObj (steps context));
        ("variables", VObj (variables context))].

Definition evaluateExpression (ev : Evaluator) (k : nat) (expr : string)
    (context : ExecutionContext) : value :=
  let viaJsonata :=
    match jsonata ev k expr (dataOf context) with
    | Some v => v
    | None => VStr ("{{" +:+ expr +:+ "}}")
    end in
  if startsWith "$" expr then
    match builtins ev k (beforeChar "(" expr) with
    | Some v => v
    | None => viaJsonata
    end
  else viaJsonata.

(** [evaluateTransform]: the error of the expression language propagates. *)
Definition evaluateTransform (ev : Evaluator) (k : nat) (expression : string)
    (context : ExecutionContext) : option value :=
  jsonata ev k expression (dataOf context).

(** *** The two regular expressions *)

(** [template.match(/^\{\{(.+)\}\}$/)]: the captured group.  The greedy [.+]
    takes everything between the first two and the last two characters, so
    the match exists exactly when the string starts with two opening braces,
    ends with two closing braces, and has a non-empty middle without line
    terminators. *)
Definition singleExprMatch (template : string) : option string :=
  let n := String.length template in
  let middle := substring 2 (n - 4) template in
  if (5 <=? n)%nat && startsWith "{{" template
     && String.eqb (slice_from (n - 2) template) "}}"
     && forallb_string (fun c => negb (isLineTerminator c)) middle
  then Some middle else None.

(** The longest prefix without a closing brace, and what follows it. *)
Fixpoint spanNotBrace (s : string) : string * string :=
  match s with
  | EmptyString => (EmptyString, EmptyString)
  | String c s' =>
      if Ascii.eqb c "}" then (EmptyString, s)
      else let (a, b) := spanNotBrace s' in (String c a, b)
  end.

(** What is left of [s] after the prefix [p], when [s] starts with it. *)
Fixpoint stripPrefix (p s : string) : option string :=
  match p, s with
  | EmptyString, _ => Some s
  | String a p', String b s' => if Ascii.eqb a b then stripPrefix p' s' else None
  | String _ _, EmptyString => None
  end.

(** A match of [/\{\{([^}]+)\}\}/] anchored at the start of [s]: the captured
    group and what follows the match.  The greedy group takes the longest
    run without a closing brace, which must be non-empty and followed by two
    closing braces; a shorter run is followed by a character of the run, so
    backtracking finds nothing more. *)
Definition matchAt (s : string) : option (string * string) :=
  match stripPrefix "{{" s with
  | Some body =>
      let (expr, after) := spanNotBrace body in
      match expr, stripPrefix "}}" after with
      | String _ _, Some rest => Some (expr, rest)
      | _, _ => None
      end
  | None => None
  end.

Record Match := {
  m_match : string;   (* match[0] *)
  m_expr : string;    (* match[1].trim() *)
  m_index : nat;      (* match.index *)
}.

(** [regex.exec] on the part [s] of the template that starts at [index]
    (the regex's [lastIndex]): the leftmost match, and the rest after it. *)
Fixpoint exec (s : string) (index : nat) : option (Match * string) :=
  match matchAt s with
  | Some (expr, rest) =>
      Some ({| m_match := "{{" +:+ expr +:+ "}}";
               m_expr := trim expr;
               m_index := index |}, rest)
  | None =>
      match s with
      | EmptyString => None
      | String _ s' => exec s' (S index)
      end
  end.

(** The [while] loop collecting the matches; a match is at least five
    characters long, so [String.length template] rounds are enough. *)
Fixpoint collectMatches (fuel : nat) (s : string) (index : nat) : list Match :=
  match fuel with
  | O => []
  | S fuel' =>
      match exec s index with
      | None => []
      | Some (m, rest) =>
          m :: collectMatches fuel' rest (m_index m + String.length (m_match m))
      end
  end.

Definition templateMatches (template : string) : list Match :=
  collectMatches (String.length template) template 0.

(** *** Resolution *)

(** The replacement text of an interpolated value. *)
Definition replacementOf (v : value) : string :=
  match v with
  | VNull | VUndefined => EmptyString
  | VArr _ | VObj _ =>
      match JSON_stringify v with Some t => t | None => EmptyString end
  | VBool true => "true"
  | VBool false => "false"
  | VNum n => Z_to_string n
  | VFrac q => Double.toString (Double.round q)
  | VStr s => s
  end.

Definition spliceOne (m : Match) (v : value) (result : string) : string :=
  slice_to (m_index m) result +:+ replacementOf v
  +:+ slice_from (m_index m + String.length (m_match m)) result.

(** The values of the matches, the [i]-th evaluated as call [k + i]. *)
Fixpoint evaluateAll (ev : Evaluator) (k : nat) (ms : list Match)
    (context : ExecutionContext) : list value :=
  match ms with
  | [] => []
  | m :: ms' =>
      evaluateExpression ev k (m_expr m) context :: evaluateAll ev (S k) ms' context
  end.

(** The [for] loop from the last match to the first. *)
Fixpoint spliceAll (ms : list Match) (vs : list value) (template : string) : string :=
  match ms, vs with
  | m :: ms', v :: vs' => spliceOne m v (spliceAll ms' vs' template)
  | _, _ => template
  end.

(** Returns the resolved value and the ordinal of the next evaluation. *)
Definition resolveStringTemplate (ev : Evaluator) (k : nat) (template : string)
    (context : ExecutionContext) : value * nat :=
  match singleExprMatch template with
  | Some group => (evaluateExpression ev k (trim group) context, S k)
  | None =>
      let matches := templateMatches template in
      match matches with
      | [] => (VStr template, k)
      | _ =>
          let values := evaluateAll ev k matches context in
          (VStr (spliceAll matches values template), (k + List.length matches)%nat)
      end
  end.

Fixpoint resolveExpressions (ev : Evaluator) (k : nat) (template : value)
    (context : ExecutionContext) : value * nat :=
  match template with
  | VStr s => resolveStringTemplate ev k s context
  | VArr items =>
      let fix each (k : nat) (l : list value) : list value * nat :=
        match l with
        | [] => ([], k)
        | x :: l' =>
            let (y, k1) := resolveExpressions ev k x context in
            let (ys, k2) := each k1 l' in
            (y :: ys, k2)
        end in
      let (ys, k') := each k items in (VArr ys, k')
  | VObj fields =>
      let fix each (k : nat) (l : list (string * value)) : list (string * value) * nat :=
        match l with
        | [] => ([], k)
        | (key, x) :: l' =>
            let (y, k1) := resolveExpressions ev k x context in
            let (ys, k2) := each k1 l' in
            ((key, y) :: ys, k2)
        end in
      let (ys, k') := each k fields in (VObj ys, k')
  | _ => (template, k)
  end.

(** An expression language for examples: a name [a], [b], ... of the
    variables is looked up, anything else is a syntax error. *)
Fixpoint lookupField (key : string) (fields : list (string * value)) : option value :=
  match fields with
  | [] => None
  | (k, v) :: rest => if String.eqb k key then Some v else lookupField key rest
  end.

Definition isLowerAlpha (c : ascii) : bool :=
  let n := nat_of_ascii c in ((97 <=? n) && (n <=? 122))%nat.

Definition variablesOnly : Evaluator :=
  {| jsonata := fun _ expr data =>
       if negb (String.eqb expr EmptyString) && forallb_string isLowerAlpha expr then
         match data with
         | VObj fs =>
             match lookupField "variables" fs with
             | Some (VObj vars) =>
                 Some (match lookupField expr vars with Some v => v | None => VUndefined end)
             | _ => Some VUndefined
             end
         | _ => Some VUndefined
         end
       else None;
     now_iso := fun _ => "2024-01-01T00:00:00.000Z";
     nanoid := fun k => "id-" +:+ Z_to_string (Z.of_nat k);
     date_now := fun _ => 1704067200000 |}.

Definition sampleContext : ExecutionContext :=
  {| trigger := VNull;
     steps := [];
     variables := [("a", VNum 1); ("b", VStr "two"); ("c", VArr [VNum 1; VNull])] |}.

End Expression.

(** ** Node's [crypto]: HMAC-SHA256 (FIPS 180-4, RFC 2104)

    The webhook route calls [crypto.createHmac('sha256', secret)
    .update(text).digest('hex')].  Words are 32-bit integers in [Z], reduced
    with [w32] after every addition. *)

Module Crypto.

Definition w32 (x : Z) : Z := Z.land x 0xffffffff.
Definition add32 (x y : Z) : Z := w32 (x + y).
Definition rotr (n x : Z) : Z := w32 (Z.lor (Z.shiftr x n) (Z.shiftl x (32 - n))).
Definition not32 (x : Z) : Z := Z.lxor x 0xffffffff.

Definition Ch (x y z : Z) : Z := Z.lxor (Z.land x y) (Z.land (not32 x) z).
Definition Maj (x y z : Z) : Z :=
  Z.lxor (Z.lxor (Z.land x y) (Z.land x z)) (Z.land y z).
Definition Sigma0 (x : Z) : Z := Z.lxor (Z.lxor (rotr 2 x) (rotr 13 x)) (rotr 22 x).
Definition Sigma1 (x : Z) : Z := Z.lxor (Z.lxor (rotr 6 x) (rotr 11 x)) (rotr 25 x).
Definition sigma0 (x : Z) : Z := Z.lxor (Z.lxor (rotr 7 x) (rotr 18 x)) (Z.shiftr x 3).
Definition sigma1 (x : Z) : Z := Z.lxor (Z.lxor (rotr 17 x) (rotr 19 x)) (Z.shiftr x 10).

(** The first [count] primes, by trial division among [2 .. 2 + span). *)
Definition isPrime (n : Z) : bool :=
  (2 <=? n) && List.forallb (fun d => negb (n mod d =? 0) || (n <=? d))
                 (List.map Z.of_nat (List.seq 2 (Z.to_nat (Z.sqrt n)))).

Definition firstPrimes (count span : nat) : list Z :=
  List.firstn count (List.filter isPrime (List.map Z.of_nat (List.seq 2 span))).

(** The integer cube root, one bit at a time from bit [bits - 1] down. *)
Fixpoint cubeRoot (bits : nat) (n acc : Z) : Z :=
  match bits with
  | O => acc
  | S b =>
      let candidate := acc + 2 ^ Z.of_nat b in
      if candidate * candidate * candidate <=? n then cubeRoot b n candidate
      else cubeRoot b n acc
  end.

(** The round constants: the first 32 bits of the fractional parts of the
    cube roots of the first 64 primes. *)
Definition K256 : list Z :=
  List.map (fun p => w32 (cubeRoot 36 (p * 2 ^ 96) 0)) (firstPrimes 64 320).

(** The initial hash value: the same of the square roots of the first 8. *)
Definition H0 : list Z :=
  List.map (fun p => w32 (Z.sqrt (p * 2 ^ 64))) (firstPrimes 8 20).

(** Big-endian bytes of [x], [n] of them. *)
Fixpoint bytesOf (n : nat) (x : Z) : list Z :=
  match n with
  | O => []
  | S n' => Z.land (Z.shiftr x (8 * Z.of_nat n')) 0xff :: bytesOf n' x
  end.

Fixpoint wordsOf (fuel : nat) (bytes : list Z) : list Z :=
  match fuel, bytes with
  | S fuel', a :: b :: c :: d :: rest =>
      (Z.shiftl a 24 + Z.shiftl b 16 + Z.shiftl c 8 + d) :: wordsOf fuel' rest
  | _, _ => []
  end.

(** The message followed by 0x80, zeros up to 56 modulo 64, and its length
    in bits on eight bytes. *)
Definition pad (msg : list Z) : list Z :=
  let len := Z.of_nat (List.length msg) in
  let zeros := Z.to_nat ((55 - len) mod 64) in
  msg ++ [0x80] ++ List.repeat 0 zeros ++ bytesOf 8 (8 * len).

(** The message schedule, most recent word first: [rev_w] holds
    [W(t-1), W(t-2), ...]. *)
Fixpoint schedule (n : nat) (rev_w : list Z) : list Z :=
  match n with
  | O => rev_w
  | S n' =>
      let nth i := List.nth i rev_w 0 in
      let w := add32 (add32 (sigma1 (nth 1%nat)) (nth 6%nat))
                     (add32 (sigma0 (nth 14%nat)) (nth 15%nat)) in
      schedule n' (w :: rev_w)
  end.

Definition round (st : list Z) (kw : Z * Z) : list Z :=
  match st with
  | [a; b; c; d; e; f; g; h] =>
      let t1 := add32 (add32 (add32 h (Sigma1 e)) (add32 (Ch e f g) (fst kw))) (snd kw) in
      let t2 := add32 (Sigma0 a) (Maj a b c) in
      [add32 t1 t2; a; b; c; add32 d t1; e; f; g]
  | _ => st
  end.

Definition compress (h : list Z) (block : list Z) : list Z :=
  let w := List.rev (schedule 48 (List.rev (wordsOf 16 block))) in
  let st := List.fold_left round (List.combine K256 w) h in
  List.map (fun p => add32 (fst p) (snd p)) (List.combine h st).

Fixpoint blocks (fuel : nat) (h : list Z) (bytes : list Z) : list Z :=
  match fuel, bytes with
  | S fuel', _ :: _ => blocks fuel' (compress h (List.firstn 64 bytes)) (List.skipn 64 bytes)
  | _, _ => h
  end.

Definition sha256 (msg : list Z) : list Z :=
  let padded := pad msg in
  List.flat_map (bytesOf 4) (blocks (List.length padded) H0 padded).

Definition blockSize : nat := 64.

Definition hmacSha256 (key msg : list Z) : list Z :=
  let k := if (blockSize <? List.length key)%nat then sha256 key else key in
  let k := k ++ List.repeat 0 (blockSize - List.length k) in
  let ipad := List.map (fun b => Z.lxor b 0x36) k in
  let opad := List.map (fun b => Z.lxor b 0x5c) k in
  sha256 (opad ++ sha256 (ipad ++ msg)).

(** UTF-8 of a string of code units below 256. *)
Fixpoint utf8 (s : string) : list Z :=
  match s with
  | EmptyString => []
  | String c s' =>
      let n := Z.of_nat (nat_of_ascii c) in
      if n <? 128 then n :: utf8 s'
      else Z.lor 0xc0 (Z.shiftr n 6) :: Z.lor 0x80 (Z.land n 0x3f) :: utf8 s'
  end.

Definition hexChar (n : Z) : ascii :=
  match String.get (Z.to_nat n) "0123456789abcdef" with
  | Some c => c
  | None => "0"%char
  end.

Fixpoint hex (bytes : list Z) : string :=
  match bytes with
  | [] => EmptyString
  | b :: rest => String (hexChar (Z.shiftr b 4)) (String (hexChar (Z.land b 15)) (hex rest))
  end.

(** [createHmac('sha256', secret).update(text).digest('hex')] *)
Definition hmacSha256Hex (secret text : string) : string :=
  hex (hmacSha256 (utf8 secret) (utf8 text)).

Definition sha256Hex (text : string) : string := hex (sha256 (utf8 text)).

End Crypto.

(** ** Entities, storage and queue *)

Module Engine.
Import Errors Expression.

(** *** domain/entities/workflow.ts, domain/entities/run.ts *)

Inductive StepType := http | transform | ai | delay.

Definition StepType_name (t : StepType) : string :=
  match t with http => "http" | transform => "transform" | ai => "ai" | delay => "delay" end.

Record RetryPolicy := {
  maxAttempts : Z;
  backoffType : BackoffType;
  initialDelayMs : Z;
  maxDelayMs : Z;
}.

Record Step := {
  s_id : string;
  s_workflowId : string;
  s_order : Z;
  s_name : string;
  s_type : StepType;
  s_config : value;
  s_retryPolicy : option RetryPolicy;
  s_timeoutMs : option Z;
  s_enabled : bool;
}.

Record Workflow := {
  wf_id : string;
  wf_name : string;
  wf_slug : string;
  wf_webhookSecret : option string;
  wf_enabled : bool;
  wf_steps : list Step;       (* as the repository returns them: by "order" *)
}.

Inductive RunStatus := pending | running | completed | failed | cancelled.

Definition RunStatus_eqb (a b : RunStatus) : bool :=
  match a, b with
  | pending, pending | running, running | completed, completed
  | failed, failed | cancelled, cancelled => true
  | _, _ => false
  end.

Record RunError := {
  re_code : string;
  re_message : string;
  re_details : value;
  re_stepId : option string;
  re_stepName : option string;
}.

Record Run := {
  r_id : string;
  r_workflowId : string;
  r_status : RunStatus;
  r_triggerData : value;
  r_context : ExecutionContext;
  r_currentStepIndex : Z;
  r_startedAt : Z;
  r_completedAt : option Z;
  r_error : option RunError;
}.

Inductive StepExecutionStatus := exec_pending | exec_running | exec_completed | exec_failed.

Record StepError := {
  se_code : string;
  se_message : string;
  se_details : value;
  se_retryable : bool;
}.

Record StepExecution := {
  x_runId : string;
  x_stepId : string;
  x_stepName : string;
  x_status : StepExecutionStatus;
  x_attempt : Z;
  x_input : value;
  x_output : option value;
  x_error : option StepError;
  x_startedAt : Z;
  x_completedAt : option Z;
  x_durationMs : option Z;
}.

(** *** queue/messages.ts, queue/index.ts *)

Record ExecuteStepMessage := {
  runId : string;
  workflowId : string;
  stepIndex : Z;
  stepId : string;
  attempt : Z;
}.

Inductive QueueMessage :=
| START_RUN (runId workflowId : string)
| EXECUTE_STEP (msg : ExecuteStepMessage)
| COMPLETE_RUN (runId : string) (status : RunStatus).

Inductive QueueName := execute | ai_queue.

(** One call of [enqueue]: the queue, the message and the [delay] option. *)
Record Job := {
  j_queue : QueueName;
  j_message : QueueMessage;
  j_delay : option Double.double;
}.

(** *** The world the processor acts on

    The tables of the database, the jobs added to the two queues (in the
    order of the calls) and the lock keys held in Redis.  A step execution's
    id is its position in the table.  The expiry of a lock after its TTL is
    not part of the model. *)
Record World := {
  workflows : gmap string Workflow;
  runs : gmap string Run;
  stepExecutions : list StepExecution;
  idempotencyKeys : gmap string (string * Z);    (* key -> run id, expires_at *)
  jobs : list Job;
  locks : gset string;
}.

Definition setRuns (f : gmap string Run -> gmap string Run) (w : World) : World :=
  {| workflows := workflows w; runs := f (runs w);
     stepExecutions := stepExecutions w; idempotencyKeys := idempotencyKeys w;
     jobs := jobs w; locks := locks w |}.

Definition setStepExecutions (f : list StepExecution -> list StepExecution)
    (w : World) : World :=
  {| workflows := workflows w; runs := runs w;
     stepExecutions := f (stepExecutions w); idempotencyKeys := idempotencyKeys w;
     jobs := jobs w; locks := locks w |}.

Definition setIdempotencyKeys
    (f : gmap string (string * Z) -> gmap string (string * Z)) (w : World) : World :=
  {| workflows := workflows w; runs := runs w;
     stepExecutions := stepExecutions w; idempotencyKeys := f (idempotencyKeys w);
     jobs := jobs w; locks := locks w |}.

Definition setJobs (f : list Job -> list Job) (w : World) : World :=
  {| workflows := workflows w; runs := runs w;
     stepExecutions := stepExecutions w; idempotencyKeys := idempotencyKeys w;
     jobs := f (jobs w); locks := locks w |}.

Definition setLocks (f : gset string -> gset string) (w : World) : World :=
  {| workflows := workflows w; runs := runs w;
     stepExecutions := stepExecutions w; idempotencyKeys := idempotencyKeys w;
     jobs := jobs w; locks := f (locks w) |}.

(** *** Asynchronous functions that may throw *)

Inductive Result (A : Type) :=
| Ok (a : A)
| Throw (e : Thrown).
Arguments Ok {A} a.
Arguments Throw {A} e.

Definition M (A : Type) : Type := World -> Result A * World.

Definition ret {A} (a : A) : M A := fun w => (Ok a, w).
Definition throw {A} (e : Thrown) : M A := fun w => (Throw e, w).
Definition bind {A B} (m : M A) (k : A -> M B) : M B :=
  fun w => match m w with
           | (Ok a, w') => k a w'
           | (Throw e, w') => (Throw e, w')
           end.

Notation "'let*' x ':=' m 'in' k" := (bind m (fun x => k))
  (at level 10, x pattern, m at level 100, k at level 200).

(** [try { body } catch (error) { handler }] *)
Definition tryCatch {A} (body : M A) (handler : Thrown -> M A) : M A :=
  fun w => match body w with
           | (Ok a, w') => (Ok a, w')
           | (Throw e, w') => handler e w'
           end.

(** [try { body } finally { cleanup }] *)
Definition tryFinally {A} (body : M A) (cleanup : M unit) : M A :=
  fun w => match body w with
           | (r, w') =>
               match cleanup w' with
               | (Ok _, w'') => (r, w'')
               | (Throw e, w'') => (Throw e, w'')
               end
           end.

Definition newError (message : string) : Thrown := ThrownError "Error" message.

(** *** storage/repositories *)

Definition workflow_findById (id : string) : M (option Workflow) :=
  fun w => (Ok (workflows w !! id), w).

Definition workflow_findBySlug (slug : string) : M (option Workflow) :=
  fun w => (Ok (snd <$> List.find (fun kv => String.eqb (wf_slug (snd kv)) slug)
                          (map_to_list (workflows w))), w).

Definition run_findById (id : string) : M (option Run) :=
  fun w => (Ok (runs w !! id), w).

(** The optional fields of [updateStatus]; [None] is a field that is absent
    or [undefined], which the repository leaves untouched. *)
Record RunUpdates := {
  u_currentStepIndex : option Z;
  u_context : option ExecutionContext;
  u_completedAt : option Z;
  u_error : option RunError;
}.

Definition noUpdates : RunUpdates :=
  {| u_currentStepIndex := None; u_context := None;
     u_completedAt := None; u_error := None |}.

Definition applyRunUpdates (status : RunStatus) (u : RunUpdates) (r : Run) : Run :=
  {| r_id := r_id r;
     r_workflowId := r_workflowId r;
     r_status := status;
     r_triggerData := r_triggerData r;
     r_context := match u_context u with Some c => c | None => r_context r end;
     r_currentStepIndex :=
       match u_currentStepIndex u with Some i => i | None => r_currentStepIndex r end;
     r_startedAt := r_startedAt r;
     r_completedAt :=
       match u_completedAt u with Some t => Some t | None => r_completedAt r end;
     r_error := match u_error u with Some e => Some e | None => r_error r end |}.

Definition updateStatus (id : string) (status : RunStatus) (updates : RunUpdates)
    : M (option Run) :=
  fun w => (Ok (applyRunUpdates status updates <$> runs w !! id),
            setRuns (alter (applyRunUpdates status updates) id) w).

(** [runRepository.create]: the row gets the id the database generated,
    the default status and index, and the initial context. *)
Definition run_create (newId : string) (now : Z) (workflowId : string)
    (triggerData : value) : M Run :=
  fun w =>
    match runs w !! newId with
    | Some _ => (Throw (ThrownError "error" "duplicate key value violates unique constraint"), w)
    | None =>
        let run := {| r_id := newId; r_workflowId := workflowId; r_status := pending;
                      r_triggerData := triggerData;
                      r_context := {| trigger := triggerData; steps := []; variables := [] |};
                      r_currentStepIndex := 0; r_startedAt := now;
                      r_completedAt := None; r_error := None |} in
        (Ok run, setRuns (insert newId run) w)
    end.

Definition findByIdempotencyKey (now : Z) (key : string) : M (option Run) :=
  fun w =>
    match idempotencyKeys w !! key with
    | Some (rid, expiresAt) =>
        if now <? expiresAt then (Ok (runs w !! rid), w) else (Ok None, w)
    | None => (Ok None, w)
    end.

Definition dayMs : Z := 24 * 60 * 60 * 1000.

(** What a [VARCHAR(n)] column stores for a text: the text when it has at
    most [n] characters, its first [n] characters when all the others are
    spaces, and nothing, the statement being an error, otherwise. *)
Definition varchar (n : nat) (s : string) : option string :=
  if (String.length s <=? n)%nat then Some s
  else if forallb_string (fun c => Ascii.eqb c " ")
            (substring n (String.length s - n) s)
       then Some (substring 0 n s)
       else None.

Definition valueTooLong : Thrown :=
  ThrownError "error" "value too long for type character varying(256)".

Definition foreignKeyViolation : Thrown :=
  ThrownError "error"
    ("insert or update on table " +:+ quote "idempotency_keys"
     +:+ " violates foreign key constraint " +:+ quote "idempotency_keys_run_id_fkey").

(** [INSERT INTO idempotency_keys (key, run_id) ... ON CONFLICT (key) DO
    NOTHING], on the table of migration 001: [key VARCHAR(256) PRIMARY KEY],
    [run_id ... REFERENCES runs(id)], [expires_at] 24 hours after the
    insertion.  A key that is in the table is left alone.  One that is not
    must fit the column, in which what is stored may be the key without
    spaces at its end, and must be for a run that exists.  (The keys of the
    table fit the column, so it makes no difference that the key is looked
    up before its length is tested.) *)
Definition setIdempotencyKey (now : Z) (key rid : string) : M unit :=
  fun w =>
    match idempotencyKeys w !! key with
    | Some _ => (Ok tt, w)
    | None =>
        match varchar 256 key with
        | None => (Throw valueTooLong, w)
        | Some stored =>
            match idempotencyKeys w !! stored with
            | Some _ => (Ok tt, w)
            | None =>
                match runs w !! rid with
                | None => (Throw foreignKeyViolation, w)
                | Some _ =>
                    (Ok tt, setIdempotencyKeys (insert stored (rid, now + dayMs)) w)
                end
            end
        end
    end.

Definition sameAttempt (rid sid : string) (att : Z) (x : StepExecution) : bool :=
  String.eqb (x_runId x) rid && String.eqb (x_stepId x) sid && (x_attempt x =? att).

(** Inserts a row and returns its id; [UNIQUE(run_id, step_id, attempt)]
    makes a second row for the same attempt an error. *)
Definition createStepExecution (now : Z) (rid sid stepName : string) (att : Z)
    (input : value) : M nat :=
  fun w =>
    if existsb (sameAttempt rid sid att) (stepExecutions w) then
      (Throw (ThrownError "error" "duplicate key value violates unique constraint"), w)
    else
      let row := {| x_runId := rid; x_stepId := sid; x_stepName := stepName;
                    x_status := exec_pending; x_attempt := att; x_input := input;
                    x_output := None; x_error := None; x_startedAt := now;
                    x_completedAt := None; x_durationMs := None |} in
      (Ok (List.length (stepExecutions w)), setStepExecutions (fun l => l ++ [row]) w).

Record StepExecutionUpdates := {
  xu_status : option StepExecutionStatus;
  xu_output : option value;
  xu_error : option StepError;
  xu_completedAt : option Z;
  xu_durationMs : option Z;
}.

Definition applyStepExecutionUpdates (u : StepExecutionUpdates) (x : StepExecution)
    : StepExecution :=
  {| x_runId := x_runId x; x_stepId := x_stepId x; x_stepName := x_stepName x;
     x_status := match xu_status u with Some s => s | None => x_status x end;
     x_attempt := x_attempt x; x_input := x_input x;
     x_output := match xu_output u with Some o => Some o | None => x_output x end;
     x_error := match xu_error u with Some e => Some e | None => x_error x end;
     x_startedAt := x_startedAt x;
     x_completedAt :=
       match xu_completedAt u with Some t => Some t | None => x_completedAt x end;
     x_durationMs :=
       match xu_durationMs u with Some d => Some d | None => x_durationMs x end |}.

Definition updateStepExecution (id : nat) (updates : StepExecutionUpdates)
    : M (option StepExecution) :=
  fun w => (Ok (applyStepExecutionUpdates updates <$> stepExecutions w !! id),
            setStepExecutions (alter (applyStepExecutionUpdates updates) id) w).

Definition enqueue (queue : QueueName) (message : QueueMessage)
    (delayMs : option Double.double) : M unit :=
  fun w => (Ok tt, setJobs (fun l => l ++ [{| j_queue := queue; j_message := message;
                                              j_delay := delayMs |}]) w).

End Engine.

(** ** workers/processor.ts *)

Module Processor.
Import Errors Expression Engine.

Record Config := {
  DEFAULT_STEP_TIMEOUT_MS : Z;
  MAX_STEP_OUTPUT_BYTES : Z;
  MAX_CONTEXT_SIZE_BYTES : Z;
}.

Definition defaultConfig : Config :=
  {| DEFAULT_STEP_TIMEOUT_MS := 300000;
     MAX_STEP_OUTPUT_BYTES := 262144;
     MAX_CONTEXT_SIZE_BYTES := 1048576 |}.

(** What the promise returned by [handler.execute] does: it fulfils or
    rejects some milliseconds after the call, or never settles. *)
Inductive HandlerOutcome :=
| Resolves (output : value) (afterMs : Z)
| Rejects (error : Thrown) (afterMs : Z)
| NeverSettles.

Definition StepHandler : Type := Step -> value -> ExecutionContext -> HandlerOutcome.

(** The environment of one call of the processor: the clock at its start,
    the draw of [Math.random], and the expression language. *)
Record Env := {
  env_now : Z;
  env_random : Double.double;
  env_evaluator : Evaluator;
}.

Definition LOCK_PREFIX : string := "lock:run:".

Definition lock_acquire (rid : string) : M bool :=
  fun w =>
    let key := LOCK_PREFIX +:+ rid in
    if decide (key ∈ locks w) then (Ok false, w)
    else (Ok true, setLocks (fun l => {[key]} ∪ l) w).

Definition lock_release (rid : string) : M unit :=
  fun w => (Ok tt, setLocks (fun l => l ∖ {[LOCK_PREFIX +:+ rid]}) w).

Definition queueFor (t : StepType) : QueueName :=
  match t with ai => ai_queue | _ => execute end.

Definition processStartRun (now : Z) (rid wid : string) : M unit :=
  let* workflow := workflow_findById wid in
  match workflow with
  | None => throw (newError ("Workflow " +:+ wid +:+ " not found"))
  | Some workflow =>
      let* run := run_findById rid in
      match run with
      | None => throw (newError ("Run " +:+ rid +:+ " not found"))
      | Some _ =>
          let* _ := updateStatus rid running noUpdates in
          let enabledSteps := List.filter s_enabled (wf_steps workflow) in
          match enabledSteps with
          | [] =>
              let* _ := updateStatus rid completed
                          {| u_currentStepIndex := None; u_context := None;
                             u_completedAt := Some now; u_error := None |} in
              ret tt
          | firstStep :: _ =>
              enqueue (queueFor (s_type firstStep))
                (EXECUTE_STEP {| runId := rid; workflowId := wid; stepIndex := 0;
                                 stepId := s_id firstStep; attempt := 1 |})
                None
          end
      end
  end.

(** [Promise.race] of the handler against the timer: the value or the error
    that wins, and the milliseconds that have passed.  The handler is called
    before the timer is set, so of two that are due at the same millisecond
    the handler's comes first. *)
Definition race (outcome : HandlerOutcome) (timeoutMs : Z) : (value + Thrown) * Z :=
  match outcome with
  | Resolves output t =>
      if t <=? timeoutMs then (inl output, t) else (inr (newError "Step timeout"), timeoutMs)
  | Rejects error t =>
      if t <=? timeoutMs then (inr error, t) else (inr (newError "Step timeout"), timeoutMs)
  | NeverSettles => (inr (newError "Step timeout"), timeoutMs)
  end.

(** [l[i]] of an array: [None] is [undefined]. *)
Definition nthZ {A} (l : list A) (i : Z) : option A :=
  if i <? 0 then None else l !! Z.to_nat i.

(** [{ ...fields, [key]: v }] *)
Fixpoint setField (key : string) (v : value) (fields : list (string * value))
    : list (string * value) :=
  match fields with
  | [] => [(key, v)]
  | (k, x) :: rest =>
      if String.eqb k key then (k, v) :: rest else (k, x) :: setField key v rest
  end.

Definition contextJson (c : ExecutionContext) : value :=
  VObj [("trigger", trigger c); ("steps", VObj (steps c)); ("variables", VObj (variables c))].

(** [JSON.stringify(v).length]; reading [length] of the [undefined] that
    [JSON.stringify(undefined)] returns is a [TypeError]. *)
Definition stringifiedLength (v : value) : M Z :=
  match JSON_stringify v with
  | Some t => ret (Z.of_nat (String.length t))
  | None =>
      throw (ThrownError "TypeError"
               "Cannot read properties of undefined (reading 'length')")
  end.

Definition defaultRetryPolicy : RetryPolicy :=
  {| maxAttempts := 3; backoffType := exponential;
     initialDelayMs := 1000; maxDelayMs := 60000 |}.

Definition lookupNumber (key : string) (v : value) : option Double.double :=
  match v with
  | VObj fields =>
      match lookupField key fields with
      | Some (VNum n) => Some (Double.ofZ n)
      | Some (VFrac q) => Some (Double.round q)
      | _ => None
      end
  | _ => None
  end.

(** The body of the inner [try]: what follows a settled race. *)
Definition afterExecute (config : Config) (msg : ExecuteStepMessage) (step : Step)
    (enabledSteps : list Step) (run : Run) (executionId : nat)
    (settled : value + Thrown) (finishedAt durationMs : Z) : M unit :=
  match settled with
  | inr error => throw error
  | inl output =>
      let* outputLength := stringifiedLength output in
      if MAX_STEP_OUTPUT_BYTES config <? outputLength then
        throw (newError ("Step output exceeds "
                         +:+ Z_to_string (MAX_STEP_OUTPUT_BYTES config) +:+ " bytes"))
      else
        let* _ := updateStepExecution executionId
                    {| xu_status := Some exec_completed; xu_output := Some output;
                       xu_error := None; xu_completedAt := Some finishedAt;
                       xu_durationMs := Some durationMs |} in
        let newContext :=
          {| trigger := trigger (r_context run);
             steps := setField (s_name step) output (steps (r_context run));
             variables := variables (r_context run) |} in
        let* contextLength := stringifiedLength (contextJson newContext) in
        if MAX_CONTEXT_SIZE_BYTES config <? contextLength then
          throw (newError ("Context exceeds "
                           +:+ Z_to_string (MAX_CONTEXT_SIZE_BYTES config) +:+ " bytes"))
        else
          let nextStepIndex := stepIndex msg + 1 in
          let* _ := updateStatus (runId msg) running
                      {| u_currentStepIndex := Some nextStepIndex;
                         u_context := Some newContext;
                         u_completedAt := None; u_error := None |} in
          if nextStepIndex <? Z.of_nat (List.length enabledSteps) then
            match nthZ enabledSteps nextStepIndex with
            | Some nextStep =>
                let delayMs :=
                  match s_type step with
                  | delay => lookupNumber "durationMs" (s_config step)
                  | _ => None
                  end in
                enqueue (queueFor (s_type nextStep))
                  (EXECUTE_STEP {| runId := runId msg; workflowId := workflowId msg;
                                   stepIndex := nextStepIndex; stepId := s_id nextStep;
                                   attempt := 1 |})
                  delayMs
            | None =>
                throw (ThrownError "TypeError"
                         "Cannot read properties of undefined (reading 'type')")
            end
          else
            let* _ := updateStatus (runId msg) completed
                        {| u_currentStepIndex := None; u_context := None;
                           u_completedAt := Some finishedAt; u_error := None |} in
            ret tt
  end.

(** The [catch] block: the failure path. *)
Definition onFailure (env : Env) (msg : ExecuteStepMessage) (step : Step)
    (executionId : nat) (finishedAt durationMs : Z) (error : Thrown) : M unit :=
  let classified := classifyError error in
  let* _ := updateStepExecution executionId
              {| xu_status := Some exec_failed; xu_output := None;
                 xu_error := Some {| se_code := code classified;
                                     se_message := message classified;
                                     se_details := details classified;
                                     se_retryable := retryable classified |};
                 xu_completedAt := Some finishedAt;
                 xu_durationMs := Some durationMs |} in
  let retryPolicy :=
    match s_retryPolicy step with Some p => p | None => defaultRetryPolicy end in
  if retryable classified && (attempt msg <? maxAttempts retryPolicy) then
    let delayMs := calculateBackoff (backoffType retryPolicy) (attempt msg)
                     (Double.ofZ (initialDelayMs retryPolicy))
                     (Double.ofZ (maxDelayMs retryPolicy)) (env_random env) in
    enqueue (queueFor (s_type step))
      (EXECUTE_STEP {| runId := runId msg; workflowId := workflowId msg;
                       stepIndex := stepIndex msg; stepId := stepId msg;
                       attempt := attempt msg + 1 |})
      (Some delayMs)
  else
    let* _ := updateStatus (runId msg) failed
                {| u_currentStepIndex := None; u_context := None;
                   u_completedAt := Some finishedAt;
                   u_error := Some {| re_code := code classified;
                                      re_message := message classified;
                                      re_details := details classified;
                                      re_stepId := Some (stepId msg);
                                      re_stepName := Some (s_name step) |} |} in
    ret tt.

(** The body of the outer [try], entered with the lock held. *)
Definition underLock (config : Config) (env : Env)
    (handlers : StepType -> option StepHandler) (msg : ExecuteStepMessage) : M unit :=
  let* workflow := workflow_findById (workflowId msg) in
  match workflow with
  | None => throw (newError ("Workflow " +:+ workflowId msg +:+ " not found"))
  | Some workflow =>
      let* run := run_findById (runId msg) in
      match run with
      | None => throw (newError ("Run " +:+ runId msg +:+ " not found"))
      | Some run =>
          if negb (RunStatus_eqb (r_status run) running) then ret tt
          else if negb (r_currentStepIndex run =? stepIndex msg) then ret tt
          else
            let enabledSteps := List.filter s_enabled (wf_steps workflow) in
            match List.find (fun s => String.eqb (s_id s) (stepId msg)) enabledSteps with
            | None => throw (newError ("Step " +:+ stepId msg +:+ " not found"))
            | Some step =>
                match handlers (s_type step) with
                | None =>
                    throw (newError ("No handler for step type: "
                                     +:+ StepType_name (s_type step)))
                | Some handler =>
                    let resolvedConfig :=
                      fst (resolveExpressions (env_evaluator env) 0 (s_config step)
                             (r_context run)) in
                    let* executionId :=
                      createStepExecution (env_now env) (runId msg) (stepId msg)
                        (s_name step) (attempt msg) resolvedConfig in
                    let* _ := updateStepExecution executionId
                                {| xu_status := Some exec_running; xu_output := None;
                                   xu_error := None; xu_completedAt := None;
                                   xu_durationMs := None |} in
                    let timeoutMs :=
                      match s_timeoutMs step with
                      | Some t => t
                      | None => DEFAULT_STEP_TIMEOUT_MS config
                      end in
                    let (settled, durationMs) :=
                      race (handler step resolvedConfig (r_context run)) timeoutMs in
                    let finishedAt := env_now env + durationMs in
                    tryCatch
                      (afterExecute config msg step enabledSteps run executionId
                         settled finishedAt durationMs)
                      (onFailure env msg step executionId finishedAt durationMs)
                end
            end
      end
  end.

Definition processExecuteStep (config : Config) (env : Env)
    (handlers : StepType -> option StepHandler) (msg : ExecuteStepMessage) : M unit :=
  let* hasLock := lock_acquire (runId msg) in
  if negb hasLock then
    enqueue execute (EXECUTE_STEP msg) (Some (Double.ofZ 1000))
  else
    tryFinally (underLock config env handlers msg) (lock_release (runId msg)).

(** The handler registries of the two workers
    (workers/execute/worker.ts, workers/ai/worker.ts). *)
Definition executeWorkerHandlers (h_http h_transform h_delay : StepHandler)
    : StepType -> option StepHandler :=
  fun t => match t with
           | http => Some h_http
           | transform => Some h_transform
           | delay => Some h_delay
           | ai => None
           end.

Definition aiWorkerHandlers (h_ai : StepHandler) : StepType -> option StepHandler :=
  fun t => match t with ai => Some h_ai | _ => None end.

End Processor.

(** ** api/routes/webhooks.ts, api/routes/runs.ts *)

Module Api.
Import Errors Expression Engine Crypto.

Record Request := {
  req_slug : string;                        (* [request.params.slug] *)
  req_rawBody : string;                     (* the payload as sent *)
  req_body : value;                         (* [request.body]: the payload parsed *)
  req_headers : list (string * string);     (* names in lower case *)
  req_query : list (string * string);
  req_method : string;
  req_ip : string;
}.

Inductive Payload :=
| ErrorPayload (error message : string)
| DuplicatePayload (runId : string) (status : RunStatus) (message : string)
| AcceptedPayload (runId : string) (status : RunStatus) (workflowId : string)
| RunPayload (run : option Run).

Record Reply := {
  status : Z;
  payload : Payload;
}.

(** The clock of the request and the id the database gives the new run. *)
Record AdmissionEnv := {
  adm_now : Z;
  adm_newRunId : string;
}.

Fixpoint header (name : string) (headers : list (string * string)) : option string :=
  match headers with
  | [] => None
  | (k, v) :: rest => if String.eqb k name then Some v else header name rest
  end.

(** A value that is [undefined] or the empty string is falsy. *)
Definition truthy (o : option string) : option string :=
  match o with
  | Some EmptyString => None
  | _ => o
  end.

Definition stringMap (l : list (string * string)) : value :=
  VObj (List.map (fun kv => (fst kv, VStr (snd kv))) l).

(** [JSON.stringify(new Date(t))], read back: the text of [toISOString],
    and [null] for a time value outside the range of [Date]. *)
Definition Date_toJSON (t : Z) : value :=
  if Date.isValid t then VStr (Date.toISOString t) else VNull.

(** The signature block; [Some reply] is an early return. *)
Definition verifySignature (workflow : Workflow) (req : Request) : M (option Reply) :=
  match truthy (wf_webhookSecret workflow) with
  | None => ret None
  | Some secret =>
      match truthy (header "x-webhook-signature" (req_headers req)) with
      | None =>
          ret (Some {| status := 401;
                       payload := ErrorPayload "Unauthorized" "Missing webhook signature" |})
      | Some signature =>
          match JSON_stringify (req_body req) with
          | None =>
              throw (ThrownError "TypeError" "The data argument must be of type string")
          | Some bodyString =>
              let expectedSignature := hmacSha256Hex secret bodyString in
              if negb (String.eqb signature ("sha256=" +:+ expectedSignature)) then
                ret (Some {| status := 401;
                             payload := ErrorPayload "Unauthorized"
                                          "Invalid webhook signature" |})
              else ret None
          end
      end
  end.

Definition admission (env : AdmissionEnv) (workflow : Workflow) (req : Request) : M Reply :=
  let idempotencyKey := truthy (header "x-idempotency-key" (req_headers req)) in
  let* existingRun :=
    match idempotencyKey with
    | Some key => findByIdempotencyKey (adm_now env) key
    | None => ret None
    end in
  match existingRun with
  | Some existingRun =>
      ret {| status := 200;
             payload := DuplicatePayload (r_id existingRun) (r_status existingRun)
                          "Duplicate request - returning existing run" |}
  | None =>
      (* [receivedAt] is [new Date()]; the repository stores the trigger
         data as JSON, in which a date is the text of [toISOString]. *)
      let triggerData :=
        VObj [("headers", stringMap (req_headers req));
              ("body", req_body req);
              ("query", stringMap (req_query req));
              ("method", VStr (req_method req));
              ("receivedAt", Date_toJSON (adm_now env));
              ("sourceIp", VStr (req_ip req))] in
      let* run := run_create (adm_newRunId env) (adm_now env) (wf_id workflow) triggerData in
      let* _ :=
        match idempotencyKey with
        | Some key => setIdempotencyKey (adm_now env) key (r_id run)
        | None => ret tt
        end in
      let* _ := enqueue execute (START_RUN (r_id run) (wf_id workflow)) None in
      ret {| status := 202;
             payload := AcceptedPayload (r_id run) (r_status run) (wf_id workflow) |}
  end.

(** [POST /webhooks/:slug] *)
Definition webhook (env : AdmissionEnv) (req : Request) : M Reply :=
  let* workflow := workflow_findBySlug (req_slug req) in
  match workflow with
  | None =>
      ret {| status := 404;
             payload := ErrorPayload "Not Found"
                          ("Workflow '" +:+ req_slug req +:+ "' not found") |}
  | Some workflow =>
      if negb (wf_enabled workflow) then
        ret {| status := 400; payload := ErrorPayload "Bad Request" "Workflow is disabled" |}
      else
        let* rejected := verifySignature workflow req in
        match rejected with
        | Some reply => ret reply
        | None => admission env workflow req
        end
  end.

(** The status the client sees: an exception that leaves the handler is
    answered by the framework with 500. *)
Definition statusOf (r : Result Reply) : Z :=
  match r with
  | Ok reply => status reply
  | Throw _ => 500
  end.

Definition RunStatus_name (s : RunStatus) : string :=
  match s with
  | pending => "pending" | running => "running" | completed => "completed"
  | failed => "failed" | cancelled => "cancelled"
  end.

(** [POST /api/v1/runs/:id/cancel] *)
Definition cancelRun (now : Z) (id : string) : M Reply :=
  let* run := run_findById id in
  match run with
  | None => ret {| status := 404; payload := ErrorPayload "Not Found" "Run not found" |}
  | Some run =>
      if negb (RunStatus_eqb (r_status run) pending)
         && negb (RunStatus_eqb (r_status run) running) then
        ret {| status := 400;
               payload := ErrorPayload "Bad Request"
                            ("Cannot cancel run with status '"
                             +:+ RunStatus_name (r_status run) +:+ "'") |}
      else
        let* updated := updateStatus id cancelled
                          {| u_currentStepIndex := None; u_context := None;
                             u_completedAt := Some now; u_error := None |} in
        ret {| status := 200; payload := RunPayload updated |}
  end.

(** [POST /api/v1/runs/:id/retry] *)
Definition retryRun (id : string) : M Reply :=
  let* run := run_findById id in
  match run with
  | None => ret {| status := 404; payload := ErrorPayload "Not Found" "Run not found" |}
  | Some run =>
      if negb (RunStatus_eqb (r_status run) failed) then
        ret {| status := 400;
               payload := ErrorPayload "Bad Request"
                            ("Can only retry failed runs, current status is '"
                             +:+ RunStatus_name (r_status run) +:+ "'") |}
      else
        let* workflow := workflow_findById (r_workflowId run) in
        match workflow with
        | None =>
            ret {| status := 400;
                   payload := ErrorPayload "Bad Request" "Workflow no longer exists" |}
        | Some _ =>
            let* updated := updateStatus id pending noUpdates in
            let* _ := enqueue execute (START_RUN (r_id run) (r_workflowId run)) None in
            ret {| status := 200; payload := RunPayload updated |}
        end
  end.

End Api.

(** ** The engine as a transition system

    One operation is one call of a processor entry point or of a route, run
    to its end; a history is a list of operations. *)

Module System.
Import Errors Expression Engine Processor Api.

Inductive Operation :=
| OpStartRun (now : Z) (runId workflowId : string)
| OpExecuteStep (config : Config) (env : Env)
    (handlers : StepType -> option StepHandler) (msg : ExecuteStepMessage)
| OpCancel (now : Z) (id : string)
| OpRetry (id : string)
| OpWebhook (env : AdmissionEnv) (req : Request).

Definition perform (op : Operation) (w : World) : World :=
  match op with
  | OpStartRun now rid wid => snd (processStartRun now rid wid w)
  | OpExecuteStep config env handlers msg =>
      snd (processExecuteStep config env handlers msg w)
  | OpCancel now id => snd (cancelRun now id w)
  | OpRetry id => snd (retryRun id w)
  | OpWebhook env req => snd (webhook env req w)
  end.

Definition performAll (ops : list Operation) (w : World) : World :=
  List.fold_left (fun w op => perform op w) ops w.

End System.

(** ** A small deployment, for examples *)

Module Samples.
Import Errors Expression Engine Processor Api System.

Definition fetchStep : Step :=
  {| s_id := "s1"; s_workflowId := "wf1"; s_order := 0; s_name := "fetch";
     s_type := http;
     s_config := VObj [("type", VStr "http"); ("method", VStr "GET");
                       ("url", VStr "https://x/echo")];
     s_retryPolicy := None; s_timeoutMs := None; s_enabled := true |}.

Definition summariseStep : Step :=
  {| s_id := "s2"; s_workflowId := "wf1"; s_order := 1; s_name := "summarise";
     s_type := ai;
     s_config := VObj [("type", VStr "ai"); ("prompt", VStr "{{steps.fetch.body}}");
                       ("outputKey", VStr "summary")];
     s_retryPolicy := Some {| maxAttempts := 5; backoffType := linear;
                              initialDelayMs := 200; maxDelayMs := 5000 |};
     s_timeoutMs := Some 1000; s_enabled := true |}.

Definition ordersWorkflow : Workflow :=
  {| wf_id := "wf1"; wf_name := "Orders"; wf_slug := "orders";
     wf_webhookSecret := Some "s3cret"; wf_enabled := true;
     wf_steps := [fetchStep; summariseStep] |}.

Definition emptyContext : ExecutionContext :=
  {| trigger := VObj [("method", VStr "POST")]; steps := []; variables := [] |}.

Definition run1 : Run :=
  {| r_id := "run1"; r_workflowId := "wf1"; r_status := running;
     r_triggerData := VObj [("method", VStr "POST")];
     r_context := emptyContext; r_currentStepIndex := 0;
     r_startedAt := 1000; r_completedAt := None; r_error := None |}.

Definition world0 : World :=
  {| workflows := {[ "wf1" := ordersWorkflow ]};
     runs := {[ "run1" := run1 ]};
     stepExecutions := [];
     idempotencyKeys := ∅;
     jobs := [];
     locks := ∅ |}.

Definition msg1 : ExecuteStepMessage :=
  {| runId := "run1"; workflowId := "wf1"; stepIndex := 0; stepId := "s1";
     attempt := 1 |}.

Definition env0 : Env :=
  {| env_now := 2000; env_random := Double.Fin (1 # 2); env_evaluator := variablesOnly |}.

Definition serverError : Thrown :=
  ThrownWorkflowError (newWorkflowError "HTTP_500" "Server error: 500" TRANSIENT VUndefined).

Definition notFound : Thrown :=
  ThrownWorkflowError (newWorkflowError "HTTP_404" "Resource not found" NOT_FOUND VUndefined).

Definition helloOutput : value := VObj [("status", VNum 200); ("body", VStr "hello")].

Definition okHandler : StepHandler := fun _ _ _ => Resolves helloOutput 35.

Definition failingHandler (e : Thrown) : StepHandler :=
  fun _ _ _ => Rejects e 120.

Definition bigOutput : value := VArr (List.repeat (VNum 0) (Z.to_nat 140000)).

Definition bigHandler : StepHandler := fun _ _ _ => Resolves bigOutput 35.

(** [world0] with the lock of the run held by another worker. *)
Definition lockedWorld : World := setLocks (fun l => {[ "lock:run:run1" ]} ∪ l) world0.

(** [world0] after the first step has succeeded. *)
Definition advancedWorld : World :=
  snd (processExecuteStep defaultConfig env0
         (executeWorkerHandlers okHandler okHandler okHandler) msg1 world0).

Definition history : list Operation :=
  [ OpExecuteStep defaultConfig env0 (executeWorkerHandlers okHandler okHandler okHandler) msg1;
    OpExecuteStep defaultConfig env0 (executeWorkerHandlers okHandler okHandler okHandler) msg1;
    OpCancel 3000 "run1";
    OpRetry "run1";
    OpStartRun 4000 "run1" "wf1" ].

(** A webhook call whose payload has a space that re-serialising drops. *)
Definition spacedRequest : Request :=
  {| req_slug := "orders";
     req_rawBody := "[1, 2]";
     req_body := VArr [VNum 1; VNum 2];
     req_headers := [("content-type", "application/json");
                     ("x-webhook-signature",
                      "sha256=" +:+ Crypto.hmacSha256Hex "s3cret" "[1, 2]")];
     req_query := []; req_method := "POST"; req_ip := "10.0.0.1" |}.

Definition compactRequest : Request :=
  {| req_slug := "orders";
     req_rawBody := "[1,2]";
     req_body := VArr [VNum 1; VNum 2];
     req_headers := [("content-type", "application/json");
                     ("x-webhook-signature",
                      "sha256=" +:+ Crypto.hmacSha256Hex "s3cret" "[1,2]")];
     req_query := []; req_method := "POST"; req_ip := "10.0.0.1" |}.

Definition admission0 : AdmissionEnv := {| adm_now := 5000; adm_newRunId := "run2" |}.

End Samples.

(** ** workers/execute/http.ts, transform.ts, delay.ts; workers/ai/handler.ts,
       lmstudio.ts

    The step handlers.  What a handler reads from outside the program is an
    argument of its model: the answer of [fetch], the verdict and the error
    message of the expression language, the clock, and the milliseconds the
    call takes. *)

Module Handlers.
Import Errors Expression Engine Processor Api.

(** *** Reading values the way JavaScript does *)

(** [String(v)], also the conversion of a computed property key and of a
    value interpolated in a template literal. *)
Fixpoint String_of (v : value) : string :=
  match v with
  | VUndefined => "undefined"
  | VNull => "null"
  | VBool true => "true"
  | VBool false => "false"
  | VNum n => Z_to_string n
  | VFrac q => Double.toString (Double.round q)
  | VStr s => s
  | VArr items =>
      let fix elems (l : list value) : list string :=
        match l with
        | [] => []
        | x :: l' =>
            match x with
            | VUndefined | VNull => EmptyString
            | _ => String_of x
            end :: elems l'
        end in
      join "," (elems items)
  | VObj _ => "[object Object]"
  end.

Definition typeError (key : string) (what : string) : Thrown :=
  ThrownError "TypeError"
    ("Cannot read properties of " +:+ what +:+ " (reading '" +:+ key +:+ "')").

(** [v.key], for the keys the handlers read, none of which is a property
    that strings, numbers, booleans or arrays have of their own. *)
Definition getProp (key : string) (v : value) : Result value :=
  match v with
  | VUndefined => Throw (typeError key "undefined")
  | VNull => Throw (typeError key "null")
  | VObj fields =>
      Ok (match lookupField key fields with Some x => x | None => VUndefined end)
  | _ => Ok VUndefined
  end.

(** [v[0]] *)
Definition firstOf (v : value) : Result value :=
  match v with
  | VUndefined => Throw (typeError "0" "undefined")
  | VNull => Throw (typeError "0" "null")
  | VArr (x :: _) => Ok x
  | VStr (String c _) => Ok (VStr (String c EmptyString))
  | VObj fields =>
      Ok (match lookupField "0" fields with Some x => x | None => VUndefined end)
  | _ => Ok VUndefined
  end.

Definition isTruthy (v : value) : bool :=
  match v with
  | VUndefined | VNull => false
  | VBool b => b
  | VNum n => negb (n =? 0)
  | VFrac q => negb (Double.isFin 0 (Double.round q))
  | VStr s => negb (String.eqb s EmptyString)
  | VArr _ | VObj _ => true
  end.

(** [v !== 'text'] is the negation of this. *)
Definition isString (text : string) (v : value) : bool :=
  match v with
  | VStr s => String.eqb s text
  | _ => false
  end.

(** The own enumerable properties that [{...v}] copies. *)
Definition spread (v : value) : list (string * value) :=
  match v with
  | VObj fields => fields
  | VArr items => imap (fun i x => (Z_to_string (Z.of_nat i), x)) items
  | VStr s =>
      imap (fun i c => (Z_to_string (Z.of_nat i), VStr (String c EmptyString)))
        (list_ascii_of_string s)
  | _ => []
  end.

Definition andThen {A B} (r : Result A) (k : A -> Result B) : Result B :=
  match r with
  | Ok a => k a
  | Throw e => Throw e
  end.

Notation "'let?' x ':=' r 'in' k" := (andThen r (fun x => k))
  (at level 10, x pattern, r at level 100, k at level 200).

(** The promise of a handler that takes [afterMs] milliseconds. *)
Definition settle (r : Result value) (afterMs : Z) : HandlerOutcome :=
  match r with
  | Ok v => Resolves v afterMs
  | Throw e => Rejects e afterMs
  end.

(** *** [fetch] *)

Record RequestInit := {
  ri_method : value;
  ri_headers : gmap string value;
  ri_body : option string;          (* [None]: no body is sent *)
}.

(** A response: its status, its headers as [Headers] iterates them (names
    in lower case), and what reading its body as JSON and as text gives. *)
Record Response := {
  resp_status : Z;
  resp_headers : list (string * string);
  resp_json : Result value;
  resp_text : Result string;
}.

(** [fetch] answers or rejects; it rejects with an [AbortError] when the
    timer of the caller fires first. *)
Inductive FetchOutcome :=
| Responds (r : Response)
| FetchRejects (e : Thrown).

(** The answer to a call of [fetch], given the URL, the options and the
    delay of the abort timer. *)
Definition Fetch : Type := value -> RequestInit -> value -> FetchOutcome.

Definition ok (r : Response) : bool :=
  (200 <=? resp_status r) && (resp_status r <=? 299).

(** *** workers/execute/http.ts *)

Definition requestOf (method headers body : value) : RequestInit :=
  {| ri_method := method;
     ri_headers := list_to_map (spread headers)
                   ∪ {[ "Content-Type" := VStr "application/json" ]};
     ri_body := if isTruthy body && negb (isString "GET" method)
                then JSON_stringify body else None |}.

Definition readBody (r : Response) : Result value :=
  let contentType :=
    match header "content-type" (resp_headers r) with
    | Some c => c
    | None => EmptyString
    end in
  if includes "application/json" contentType then resp_json r
  else let? text := resp_text r in Ok (VStr text).

(** The body of the [try]. *)
Definition httpTry (outcome : FetchOutcome) : Result value :=
  match outcome with
  | FetchRejects e => Throw e
  | Responds r =>
      let? body := readBody r in
      if negb (ok r) then
        let error := classifyHttpError (resp_status r)
                       (Some ("HTTP " +:+ Z_to_string (resp_status r))) in
        Throw (ThrownWorkflowError
                 (newWorkflowError (code error) (message error) (category error)
                    (VObj [("status", VNum (resp_status r)); ("body", body)])))
      else
        Ok (VObj [("status", VNum (resp_status r));
                  ("headers", stringMap (resp_headers r));
                  ("body", body)])
  end.

(** The [catch] block: what is thrown instead of [e]. *)
Definition httpCatch (timeoutMs : value) (e : Thrown) : Thrown :=
  match e with
  | ThrownWorkflowError _ => e
  | ThrownError name msg =>
      if String.eqb name "AbortError" then
        ThrownWorkflowError
          (newWorkflowError "TIMEOUT"
             ("Request timeout after " +:+ String_of timeoutMs +:+ "ms")
             TRANSIENT VUndefined)
      else
        ThrownWorkflowError (newWorkflowError "NETWORK_ERROR" msg TRANSIENT VUndefined)
  | ThrownOther _ => e
  end.

(** [config.timeoutMs ?? 30000] *)
Definition orDefaultTimeout (timeoutMs : value) : value :=
  match timeoutMs with
  | VUndefined | VNull => VNum 30000
  | _ => timeoutMs
  end.

Definition httpExecute (fetch : Fetch) (input : value) : Result value :=
  let? headers := getProp "headers" input in
  let? method := getProp "method" input in
  let? body := getProp "body" input in
  let? timeoutMs := getProp "timeoutMs" input in
  let? url := getProp "url" input in
  let timeoutMs := orDefaultTimeout timeoutMs in
  match httpTry (fetch url (requestOf method headers body) timeoutMs) with
  | Ok output => Ok output
  | Throw e => Throw (httpCatch timeoutMs e)
  end.

Definition httpHandler (fetch : Fetch) (afterMs : Z) : StepHandler :=
  fun _ input _ => settle (httpExecute fetch input) afterMs.

(** *** workers/execute/transform.ts

    [errorMessage] is the message of what the expression language throws
    for the expression.  The expression language takes a string; it throws
    for anything else. *)

Definition transformError (errorMessage : value -> string) (expression : value) : Thrown :=
  ThrownWorkflowError
    (newWorkflowError "TRANSFORM_ERROR"
       ("Transform failed: " +:+ errorMessage expression)
       VALIDATION (VObj [("expression", expression)])).

Definition transformExecute (ev : Evaluator) (errorMessage : value -> string)
    (input : value) (context : ExecutionContext) : Result value :=
  (* with a configuration that is [null] or [undefined], the [catch] block
     reads [config.expression] again and throws the [TypeError] itself *)
  let? expression := getProp "expression" input in
  match expression with
  | VStr text =>
      match evaluateTransform ev 0 text context with
      | Some result =>
          let? outputKey := getProp "outputKey" input in
          Ok (VObj [(String_of outputKey, result)])
      | None => Throw (transformError errorMessage expression)
      end
  | _ => Throw (transformError errorMessage expression)
  end.

Definition transformHandler (ev : Evaluator) (errorMessage : value -> string)
    (afterMs : Z) : StepHandler :=
  fun _ input context => settle (transformExecute ev errorMessage input context) afterMs.

(** *** workers/execute/delay.ts

    [now] is [Date.now()].  A date further than 8.64e15 ms from the epoch
    is invalid, and [toISOString] of an invalid date is a [RangeError];
    the time value of a date is an integer, a fraction being dropped;
    [dateOf] is what [new Date(Date.now() + v).toISOString()] gives for a
    [v] that is not a number. *)

(** The time value of [new Date(a)]: [None] for an invalid date. *)
Definition timeClip (a : Double.double) : option Z :=
  match a with
  | Double.Fin t =>
      if Qle_bool (Qabs t) (inject_Z 8640000000000000)
      then Some (if Qle_bool 0 t then Qfloor t else Qceiling t)
      else None
  | _ => None
  end.

Definition delayExecute (now : Z) (toISOString : Z -> string)
    (dateOf : value -> Result string) (input : value) : Result value :=
  let? durationMs := getProp "durationMs" input in
  let? delayedUntil :=
    match durationMs with
    | VNum n =>
        if Z.abs (now + n) <=? 8640000000000000 then Ok (toISOString (now + n))
        else Throw (ThrownError "RangeError" "Invalid time value")
    | VFrac q =>
        match timeClip (Double.add (Double.ofZ now) (Double.round q)) with
        | Some t => Ok (toISOString t)
        | None => Throw (ThrownError "RangeError" "Invalid time value")
        end
    | _ => dateOf durationMs
    end in
  Ok (VObj [("delayMs", durationMs); ("delayedUntil", VStr delayedUntil)]).

Definition delayHandler (now : Z) (toISOString : Z -> string)
    (dateOf : value -> Result string) (afterMs : Z) : StepHandler :=
  fun _ input _ => settle (delayExecute now toISOString dateOf input) afterMs.

(** *** workers/ai/lmstudio.ts *)

Record LMStudioOptions := {
  lm_model : value;
  lm_prompt : value;
  lm_systemPrompt : value;
  lm_maxTokens : value;
  lm_temperature : value;
}.

Definition chatMessages (options : LMStudioOptions) : list value :=
  (if isTruthy (lm_systemPrompt options)
   then [VObj [("role", VStr "system"); ("content", lm_systemPrompt options)]]
   else [])
  ++ [VObj [("role", VStr "user"); ("content", lm_prompt options)]].

Definition chatRequest (options : LMStudioOptions) : value :=
  VObj [("model", lm_model options);
        ("messages", VArr (chatMessages options));
        ("max_tokens", lm_maxTokens options);
        ("temperature", lm_temperature options)].

Definition lmRequestInit (options : LMStudioOptions) : RequestInit :=
  {| ri_method := VStr "POST";
     ri_headers := {[ "Content-Type" := VStr "application/json" ]};
     ri_body := JSON_stringify (chatRequest options) |}.

(** The body of the [try]: the content and the usage. *)
Definition lmTry (outcome : FetchOutcome) : Result (value * value) :=
  match outcome with
  | FetchRejects e => Throw e
  | Responds r =>
      if negb (ok r) then
        let error := classifyHttpError (resp_status r) None in
        Throw (ThrownWorkflowError
                 (newWorkflowError (code error)
                    ("LM Studio error: " +:+ message error)
                    (if retryable error then TRANSIENT else FATAL)
                    (VObj [("status", VNum (resp_status r))])))
      else
        let? data := resp_json r in
        let? choices := getProp "choices" data in
        let? choice := firstOf choices in
        if negb (isTruthy choice) then
          Throw (ThrownWorkflowError
                   (newWorkflowError "AI_NO_RESPONSE" "LM Studio returned no choices"
                      TRANSIENT VUndefined))
        else
          let? message := getProp "message" choice in
          let? content := getProp "content" message in
          let? usage := getProp "usage" data in
          let? usage :=
            if isTruthy usage then
              let? promptTokens := getProp "prompt_tokens" usage in
              let? completionTokens := getProp "completion_tokens" usage in
              let? totalTokens := getProp "total_tokens" usage in
              Ok (VObj [("promptTokens", promptTokens);
                        ("completionTokens", completionTokens);
                        ("totalTokens", totalTokens)])
            else Ok VUndefined in
          Ok (content, usage)
  end.

Definition lmCatch (e : Thrown) : Thrown :=
  match e with
  | ThrownWorkflowError _ => e
  | ThrownError name msg =>
      if String.eqb name "AbortError" then
        ThrownWorkflowError
          (newWorkflowError "AI_TIMEOUT" "LM Studio request timed out" TRANSIENT VUndefined)
      else if includes "ECONNREFUSED" msg then
        ThrownWorkflowError
          (newWorkflowError "AI_UNAVAILABLE"
             "LM Studio is not available. Make sure it is running." TRANSIENT VUndefined)
      else
        ThrownWorkflowError (newWorkflowError "AI_ERROR" msg TRANSIENT VUndefined)
  | ThrownOther _ => e
  end.

Definition callLMStudio (LM_STUDIO_URL : string) (fetch : Fetch)
    (options : LMStudioOptions) : Result (value * value) :=
  match lmTry (fetch (VStr (LM_STUDIO_URL +:+ "/chat/completions"))
                 (lmRequestInit options) (VNum 300000)) with
  | Ok result => Ok result
  | Throw e => Throw (lmCatch e)
  end.

(** *** workers/ai/handler.ts *)

Definition aiExecute (LM_STUDIO_URL : string) (fetch : Fetch) (input : value)
    : Result value :=
  let? model := getProp "model" input in
  let? prompt := getProp "prompt" input in
  let? systemPrompt := getProp "systemPrompt" input in
  let? maxTokens := getProp "maxTokens" input in
  let? temperature := getProp "temperature" input in
  let? result := callLMStudio LM_STUDIO_URL fetch
                   {| lm_model := model; lm_prompt := prompt;
                      lm_systemPrompt := systemPrompt; lm_maxTokens := maxTokens;
                      lm_temperature := temperature |} in
  let? outputKey := getProp "outputKey" input in
  Ok (VObj (setField "_meta" (VObj [("usage", snd result)])
              [(String_of outputKey, fst result)])).

Definition aiHandler (LM_STUDIO_URL : string) (fetch : Fetch) (afterMs : Z)
    : StepHandler :=
  fun _ input _ => settle (aiExecute LM_STUDIO_URL fetch input) afterMs.

End Handlers.

(** * Vocabulary of the statements

    Definitions used to state the properties: the tables and relations the
    specification speaks of, next to the functions of the source they are
    compared with. *)

Import Errors Expression Crypto Engine Processor Api System Samples.

(** The classification table of the specification, by status code. *)
Definition spec_httpCategory (s : Z) : ErrorCategory :=
  if decide (500 <= s <= 599 \/ s = 429) then TRANSIENT
  else if decide (s = 401 \/ s = 403) then AUTHORIZATION
  else if decide (s = 404) then NOT_FOUND
  else if decide (400 <= s <= 499) then VALIDATION
  else FATAL.

Definition spec_retryable (c : ErrorCategory) : bool :=
  match c with TRANSIENT | RESOURCE => true | _ => false end.

(** The jitter factor the source draws: [0.1 + Math.random() * 0.1]. *)
Definition jitterFactor (random : Double.double) : Double.double :=
  Double.add tenth (Double.mul random tenth).

(** The doubles the literals [0.1] and [0.2] denote. *)
Definition tenthQ : Q := 3602879701896397 # 36028797018963968.
Definition fifthQ : Q := 3602879701896397 # 18014398509481984.

(** Half the distance, relative to 1, between 1 and the next double. *)
Definition ulp : Q := 1 # (2 ^ 53).

(** The delay before jitter, for integers. *)
Definition backoffBase (backoffType : BackoffType) (attempt initialDelayMs : Z) : Z :=
  match backoffType with
  | fixed => initialDelayMs
  | linear => initialDelayMs * attempt
  | exponential => initialDelayMs * 2 ^ (attempt - 1)
  end.

(** The Standard Library's model of IEEE-754 arithmetic ([SpecFloat]), at
    the precision and exponent range of binary64, to compare [Double]
    with: the double a [spec_float] stands for, and the double nearest to
    an integer. *)
Definition ofSpec (f : spec_float) : Double.double :=
  match f with
  | S754_zero _ => Double.Fin 0
  | S754_infinity false => Double.PosInf
  | S754_infinity true => Double.NegInf
  | S754_nan => Double.NaN
  | S754_finite s m e =>
      Double.Fin (Qred (inject_Z (if s then Z.neg m else Z.pos m) * Double.pow2 e))
  end.

Definition specOfZ (z : Z) : spec_float :=
  match z with
  | Z0 => S754_zero false
  | Zpos p => SFmul 53 1024 (S754_finite false p 0) (S754_finite false 1 0)
  | Zneg p => SFmul 53 1024 (S754_finite true p 0) (S754_finite false 1 0)
  end.

(** The exponent of the quantum of [x], and the integer significand of the
    double nearest to it. *)
Definition expOf (x : Q) : Z := Z.max (Double.floorLog2 x) (-1022) - 52.
Definition sigOf (x : Q) : Z := Double.roundHalfEven (x / Double.pow2 (expOf x)).

Definition isNumberChar (c : ascii) : bool := occurs c "0123456789-+.eInfinityNaN".

(** The writes one call makes to the table of runs, as a relation between
    the table before and after: status updates of run [rid] that leave the
    index alone, updates that set the index to [next] (only when [next] is
    given), and the insertion of a run under a fresh id. *)
Inductive RunsEffect (rid : string) (next : option Z) (m : gmap string Run)
    : gmap string Run -> Prop :=
| eff_none : RunsEffect rid next m m
| eff_status (st : RunStatus) (u : RunUpdates) (m1 : gmap string Run) :
    RunsEffect rid next m m1 ->
    u_currentStepIndex u = None ->
    RunsEffect rid next m (alter (applyRunUpdates st u) rid m1)
| eff_advance (st : RunStatus) (u : RunUpdates) (m1 : gmap string Run) :
    RunsEffect rid next m m1 ->
    u_currentStepIndex u = next ->
    RunsEffect rid next m (alter (applyRunUpdates st u) rid m1)
| eff_insert (id : string) (r : Run) (m1 : gmap string Run) :
    RunsEffect rid next m m1 ->
    m1 !! id = None ->
    RunsEffect rid next m (<[id := r]> m1).

(** A call that may move the index does so from a run it found [running] at
    the message's [stepIndex]. *)
Definition Guarded (msg : ExecuteStepMessage) (w w' : World) : Prop :=
  RunsEffect (runId msg) None (runs w) (runs w')
  \/ exists run,
       runs w !! runId msg = Some run
       /\ r_status run = running
       /\ r_currentStepIndex run = stepIndex msg
       /\ RunsEffect (runId msg) (Some (stepIndex msg + 1)) (runs w) (runs w').

(** The pieces of one call of [processExecuteStep] that passes every check:
    the resolved input, the deadline, the settled race, the world in which
    the handler is called (lock taken, execution row inserted and set to
    [running]), and the inner [try] and [catch] blocks. *)
Definition resolvedConfigOf (env : Env) (step : Step) (run : Run) : value :=
  fst (resolveExpressions (env_evaluator env) 0 (s_config step) (r_context run)).

Definition timeoutOf (config : Config) (step : Step) : Z :=
  match s_timeoutMs step with
  | Some t => t
  | None => DEFAULT_STEP_TIMEOUT_MS config
  end.

Definition settledOf (config : Config) (env : Env) (step : Step) (run : Run)
    (handler : StepHandler) : (value + Thrown) * Z :=
  race (handler step (resolvedConfigOf env step run) (r_context run))
    (timeoutOf config step).

Definition handlerStart (env : Env) (msg : ExecuteStepMessage) (step : Step)
    (run : Run) (w : World) : World :=
  snd (updateStepExecution (List.length (stepExecutions w))
         {| xu_status := Some exec_running; xu_output := None; xu_error := None;
            xu_completedAt := None; xu_durationMs := None |}
         (snd (createStepExecution (env_now env) (runId msg) (stepId msg)
                 (s_name step) (attempt msg) (resolvedConfigOf env step run)
                 (snd (lock_acquire (runId msg) w))))).

Definition innerTry (config : Config) (env : Env) (msg : ExecuteStepMessage)
    (workflow : Workflow) (run : Run) (step : Step) (handler : StepHandler)
    (w : World) : M unit :=
  afterExecute config msg step (List.filter s_enabled (wf_steps workflow)) run
    (List.length (stepExecutions w))
    (fst (settledOf config env step run handler))
    (env_now env + snd (settledOf config env step run handler))
    (snd (settledOf config env step run handler)).

Definition innerCatch (config : Config) (env : Env) (msg : ExecuteStepMessage)
    (run : Run) (step : Step) (handler : StepHandler) (w : World)
    : Thrown -> M unit :=
  onFailure env msg step (List.length (stepExecutions w))
    (env_now env + snd (settledOf config env step run handler))
    (snd (settledOf config env step run handler)).

(** The checks a message passes before the handler is called. *)
Record Active (handlers : StepType -> option StepHandler) (msg : ExecuteStepMessage)
    (w : World) (workflow : Workflow) (run : Run) (step : Step)
    (handler : StepHandler) : Prop := {
  act_lock : (LOCK_PREFIX +:+ runId msg) ∉ locks w;
  act_workflow : workflows w !! workflowId msg = Some workflow;
  act_run : runs w !! runId msg = Some run;
  act_status : r_status run = running;
  act_index : r_currentStepIndex run = stepIndex msg;
  act_step : List.find (fun s => String.eqb (s_id s) (stepId msg))
               (List.filter s_enabled (wf_steps workflow)) = Some step;
  act_handler : handlers (s_type step) = Some handler;
  act_fresh : existsb (sameAttempt (runId msg) (stepId msg) (attempt msg))
                (stepExecutions w) = false;
}.

Definition extendedContext (run : Run) (step : Step) (output : value) : ExecutionContext :=
  {| trigger := trigger (r_context run);
     steps := setField (s_name step) output (steps (r_context run));
     variables := variables (r_context run) |}.

Definition tinyConfig : Config :=
  {| DEFAULT_STEP_TIMEOUT_MS := 300000;
     MAX_STEP_OUTPUT_BYTES := 8;
     MAX_CONTEXT_SIZE_BYTES := 1048576 |}.

Definition textOf (v : value) : string :=
  match JSON_stringify v with Some t => t | None => EmptyString end.

(** A context whose variables are numbers that are printed in exponent
    form, with a fraction, or rounded to the nearest double. *)
Definition numbersContext : ExecutionContext :=
  {| trigger := VNull;
     steps := [];
     variables := [("big", VNum (10 ^ 21)); ("half", VFrac (1 # 2));
                   ("tiny", VFrac (1 # 10000000)); ("odd", VNum (2 ^ 53 + 1))] |}.

(** Interpolation as the specification words it, from left to right: the
    text before the leftmost placeholder, the replacement of its value, and
    the interpolation of what follows it. *)
Fixpoint findMatch (s : string) : option (string * string * string) :=
  match matchAt s with
  | Some (expr, rest) => Some (EmptyString, expr, rest)
  | None =>
      match s with
      | EmptyString => None
      | String c s' =>
          match findMatch s' with
          | Some (before, expr, rest) => Some (String c before, expr, rest)
          | None => None
          end
      end
  end.

Fixpoint render (fuel : nat) (ev : Evaluator) (k : nat) (context : ExecutionContext)
    (s : string) : string :=
  match fuel with
  | O => s
  | S fuel' =>
      match findMatch s with
      | None => s
      | Some (before, expr, rest) =>
          before +:+ replacementOf (evaluateExpression ev k (trim expr) context)
          +:+ render fuel' ev (S k) context rest
      end
  end.

(** ** Vocabulary of the further properties *)

(** The key of the unique index of the table of step executions. *)
Definition attemptKey (x : StepExecution) : string * string * Z :=
  (x_runId x, x_stepId x, x_attempt x).

(** The row of the attempt of a message once the attempt is over. *)
Definition Finished (msg : ExecuteStepMessage) (row : StepExecution) : Prop :=
  attemptKey row = (runId msg, stepId msg, attempt msg)
  /\ (x_status row = exec_completed \/ x_status row = exec_failed)
  /\ x_completedAt row <> None
  /\ x_durationMs row <> None.

(** A job that carries a step message for the run of [msg]. *)
Definition ForSameRun (msg : ExecuteStepMessage) (j : Job) : Prop :=
  exists m, j_message j = EXECUTE_STEP m
            /\ runId m = runId msg /\ workflowId m = workflowId msg.

(** The message for the second step of the sample workflow, an [ai] step. *)
Definition aiMsg : ExecuteStepMessage :=
  {| runId := "run1"; workflowId := "wf1"; stepIndex := 1; stepId := "s2";
     attempt := 1 |}.

(** The retry policy in force for a step. *)
Definition policyOf (step : Step) : RetryPolicy :=
  match s_retryPolicy step with Some p => p | None => defaultRetryPolicy end.

(** The row of an attempt as [processExecuteStep] leaves it. *)
Definition attemptRow (env : Env) (msg : ExecuteStepMessage) (step : Step) (run : Run)
    (status : StepExecutionStatus) (output : option value) (error : option StepError)
    (durationMs : Z) : StepExecution :=
  {| x_runId := runId msg; x_stepId := stepId msg; x_stepName := s_name step;
     x_status := status; x_attempt := attempt msg;
     x_input := resolvedConfigOf env step run;
     x_output := output; x_error := error; x_startedAt := env_now env;
     x_completedAt := Some (env_now env + durationMs);
     x_durationMs := Some durationMs |}.

Definition stepErrorOf (c : ClassifiedError) : StepError :=
  {| se_code := code c; se_message := message c; se_details := details c;
     se_retryable := retryable c |}.

Definition runErrorOf (msg : ExecuteStepMessage) (step : Step) (c : ClassifiedError)
    : RunError :=
  {| re_code := code c; re_message := message c; re_details := details c;
     re_stepId := Some (stepId msg); re_stepName := Some (s_name step) |}.

(** The message of the next attempt, and the job that carries it. *)
Definition retryJob (env : Env) (msg : ExecuteStepMessage) (step : Step) : Job :=
  {| j_queue := queueFor (s_type step);
     j_message := EXECUTE_STEP {| runId := runId msg; workflowId := workflowId msg;
                                  stepIndex := stepIndex msg; stepId := stepId msg;
                                  attempt := attempt msg + 1 |};
     j_delay := Some (calculateBackoff (backoffType (policyOf step)) (attempt msg)
                        (Double.ofZ (initialDelayMs (policyOf step)))
                        (Double.ofZ (maxDelayMs (policyOf step))) (env_random env)) |}.

(** The job for the step that follows [step] in the run of [msg]. *)
Definition nextJob (msg : ExecuteStepMessage) (step next : Step) : Job :=
  {| j_queue := queueFor (s_type next);
     j_message := EXECUTE_STEP {| runId := runId msg; workflowId := workflowId msg;
                                  stepIndex := stepIndex msg + 1; stepId := s_id next;
                                  attempt := 1 |};
     j_delay := match s_type step with
                | delay => lookupNumber "durationMs" (s_config step)
                | _ => None
                end |}.

(** The run after a step has succeeded, and after the last one has. *)
Definition advancedRun (msg : ExecuteStepMessage) (step : Step) (output : value)
    (run : Run) : Run :=
  {| r_id := r_id run; r_workflowId := r_workflowId run; r_status := running;
     r_triggerData := r_triggerData run;
     r_context := extendedContext run step output;
     r_currentStepIndex := stepIndex msg + 1;
     r_startedAt := r_startedAt run; r_completedAt := r_completedAt run;
     r_error := r_error run |}.

Definition completedRun (msg : ExecuteStepMessage) (step : Step) (output : value)
    (finishedAt : Z) (run : Run) : Run :=
  {| r_id := r_id run; r_workflowId := r_workflowId run; r_status := completed;
     r_triggerData := r_triggerData run;
     r_context := extendedContext run step output;
     r_currentStepIndex := stepIndex msg + 1;
     r_startedAt := r_startedAt run; r_completedAt := Some finishedAt;
     r_error := r_error run |}.

Definition failedRun (msg : ExecuteStepMessage) (step : Step) (c : ClassifiedError)
    (finishedAt : Z) (run : Run) : Run :=
  {| r_id := r_id run; r_workflowId := r_workflowId run; r_status := failed;
     r_triggerData := r_triggerData run; r_context := r_context run;
     r_currentStepIndex := r_currentStepIndex run;
     r_startedAt := r_startedAt run; r_completedAt := Some finishedAt;
     r_error := Some (runErrorOf msg step c) |}.

(** The promise of the handler is not settled when the step's timer fires:
    it settles later, or never. *)
Definition Late (outcome : HandlerOutcome) (timeoutMs : Z) : Prop :=
  match outcome with
  | Resolves _ t | Rejects _ t => timeoutMs < t
  | NeverSettles => True
  end.

Definition hangingHandler : StepHandler := fun _ _ _ => NeverSettles.

(** A handler that fulfils one millisecond after the default timeout. *)
Definition lateHandler : StepHandler := fun _ _ _ => Resolves helloOutput 300001.

(** How [classifyError] reads the error of the step's timer. *)
Definition timeoutClassified : ClassifiedError :=
  {| category := TRANSIENT; retryable := true; code := "TIMEOUT";
     message := "Step timeout"; details := VUndefined |}.

(** The pieces of an accepted webhook call: the trigger data as stored
    (the time of receipt as an ISO 8601 text), the run that is created, the
    bindings of idempotency keys after the call (an existing binding,
    expired or not, is kept; a new one is made under the key as its column
    stores it), and the world after the call. *)
Definition idempotencyKeyOf (req : Request) : option string :=
  truthy (header "x-idempotency-key" (req_headers req)).

Definition triggerDataOf (env : AdmissionEnv) (req : Request) : value :=
  VObj [("headers", stringMap (req_headers req));
        ("body", req_body req);
        ("query", stringMap (req_query req));
        ("method", VStr (req_method req));
        ("receivedAt",
         if Z.abs (adm_now env) <=? 8640000000000000
         then VStr (Date.toISOString (adm_now env)) else VNull);
        ("sourceIp", VStr (req_ip req))].

Definition newRun (env : AdmissionEnv) (workflow : Workflow) (req : Request) : Run :=
  {| r_id := adm_newRunId env; r_workflowId := wf_id workflow; r_status := pending;
     r_triggerData := triggerDataOf env req;
     r_context := {| trigger := triggerDataOf env req; steps := []; variables := [] |};
     r_currentStepIndex := 0; r_startedAt := adm_now env;
     r_completedAt := None; r_error := None |}.

Definition boundKeys (env : AdmissionEnv) (req : Request) (w : World)
    : gmap string (string * Z) :=
  match idempotencyKeyOf req with
  | Some key =>
      match idempotencyKeys w !! key, varchar 256 key with
      | None, Some stored =>
          match idempotencyKeys w !! stored with
          | None => <[stored := (adm_newRunId env, adm_now env + dayMs)]>
                      (idempotencyKeys w)
          | Some _ => idempotencyKeys w
          end
      | _, _ => idempotencyKeys w
      end
  | None => idempotencyKeys w
  end.

(** The world after a call that has created the run and nothing else. *)
Definition orphanWorld (env : AdmissionEnv) (workflow : Workflow) (req : Request)
    (w : World) : World :=
  {| workflows := workflows w;
     runs := <[adm_newRunId env := newRun env workflow req]> (runs w);
     stepExecutions := stepExecutions w;
     idempotencyKeys := idempotencyKeys w;
     jobs := jobs w;
     locks := locks w |}.

Definition acceptedWorld (env : AdmissionEnv) (workflow : Workflow) (req : Request)
    (w : World) : World :=
  {| workflows := workflows w;
     runs := <[adm_newRunId env := newRun env workflow req]> (runs w);
     stepExecutions := stepExecutions w;
     idempotencyKeys := boundKeys env req w;
     jobs := jobs w ++ [{| j_queue := execute;
                           j_message := START_RUN (adm_newRunId env) (wf_id workflow);
                           j_delay := None |}];
     locks := locks w |}.

Definition acceptedReply (env : AdmissionEnv) (workflow : Workflow) : Reply :=
  {| status := 202;
     payload := AcceptedPayload (adm_newRunId env) pending (wf_id workflow) |}.

(** The sample call with an idempotency key, the world after it, and the
    same call one second and two days later. *)
Definition keyedRequest : Request :=
  {| req_slug := "orders";
     req_rawBody := "[1,2]";
     req_body := VArr [VNum 1; VNum 2];
     req_headers := [("content-type", "application/json");
                     ("x-idempotency-key", "order-42");
                     ("x-webhook-signature",
                      "sha256=" +:+ Crypto.hmacSha256Hex "s3cret" "[1,2]")];
     req_query := []; req_method := "POST"; req_ip := "10.0.0.1" |}.

Definition keyedWorld : World := snd (webhook admission0 keyedRequest world0).

(** The same call with a key of 257 characters. *)
Definition longKeyRequest : Request :=
  {| req_slug := "orders";
     req_rawBody := "[1,2]";
     req_body := VArr [VNum 1; VNum 2];
     req_headers := [("content-type", "application/json");
                     ("x-idempotency-key", String.concat EmptyString (List.repeat "k" 257));
                     ("x-webhook-signature",
                      "sha256=" +:+ Crypto.hmacSha256Hex "s3cret" "[1,2]")];
     req_query := []; req_method := "POST"; req_ip := "10.0.0.1" |}.

(** The members of an object. *)
Definition fields_of (v : value) : list (string * value) :=
  match v with VObj fields => fields | _ => [] end.

Definition admissionSoon : AdmissionEnv := {| adm_now := 6000; adm_newRunId := "run3" |}.

Definition admissionLate : AdmissionEnv :=
  {| adm_now := 5000 + 2 * dayMs; adm_newRunId := "run3" |}.

(** A run with its status replaced, and with the time of completion set. *)
Definition withStatus (st : RunStatus) (run : Run) : Run :=
  {| r_id := r_id run; r_workflowId := r_workflowId run; r_status := st;
     r_triggerData := r_triggerData run; r_context := r_context run;
     r_currentStepIndex := r_currentStepIndex run;
     r_startedAt := r_startedAt run; r_completedAt := r_completedAt run;
     r_error := r_error run |}.

Definition endedAt (st : RunStatus) (now : Z) (run : Run) : Run :=
  {| r_id := r_id run; r_workflowId := r_workflowId run; r_status := st;
     r_triggerData := r_triggerData run; r_context := r_context run;
     r_currentStepIndex := r_currentStepIndex run;
     r_startedAt := r_startedAt run; r_completedAt := Some now;
     r_error := r_error run |}.


(** The first message of a run. *)
Definition firstMessage (rid wid : string) (firstStep : Step) : ExecuteStepMessage :=
  {| runId := rid; workflowId := wid; stepIndex := 0; stepId := s_id firstStep;
     attempt := 1 |}.



(** [advancedWorld] with the lock of the run held by another worker. *)
Definition contendedWorld : World :=
  setLocks (fun l => {[ "lock:run:run1" ]} ∪ l) advancedWorld.

(** A value none of whose strings contains two opening braces in a row.
    Keys of objects are not looked at: they are never resolved. *)
Fixpoint plain (v : value) : bool :=
  match v with
  | VStr s => negb (includes "{{" s)
  | VArr items => forallb plain items
  | VObj fields => forallb (fun kv => plain (snd kv)) fields
  | _ => true
  end.

(** The loops of [resolveExpressions] over the items of an array and over
    the entries of an object, by name. *)
Fixpoint resolveItems (ev : Evaluator) (context : ExecutionContext) (k : nat)
    (l : list value) : list value * nat :=
  match l with
  | [] => ([], k)
  | x :: l' =>
      let (y, k1) := resolveExpressions ev k x context in
      let (ys, k2) := resolveItems ev context k1 l' in
      (y :: ys, k2)
  end.

Fixpoint resolveEntries (ev : Evaluator) (context : ExecutionContext) (k : nat)
    (l : list (string * value)) : list (string * value) * nat :=
  match l with
  | [] => ([], k)
  | (key, x) :: l' =>
      let (y, k1) := resolveExpressions ev k x context in
      let (ys, k2) := resolveEntries ev context k1 l' in
      ((key, y) :: ys, k2)
  end.

(** [y] is what [x] resolves to, as some evaluation from ordinal [k] on. *)
Definition ResolvedFrom (ev : Evaluator) (context : ExecutionContext) (k : nat)
    (x y : value) : Prop :=
  exists j, (k <= j)%nat /\ y = fst (resolveExpressions ev j x context).

Import Handlers.

(** The value of a property of an object, [undefined] when it is absent. *)
Definition field (key : string) (v : value) : value :=
  match getProp key v with
  | Ok x => x
  | Throw _ => VUndefined
  end.

Definition isObject (v : value) : bool :=
  match v with
  | VObj _ => true
  | _ => false
  end.

(** The answer to the call of [fetch] that [httpHandler] makes for a
    configuration. *)
Definition fetched (fetch : Fetch) (input : value) : FetchOutcome :=
  fetch (field "url" input)
    (requestOf (field "method" input) (field "headers" input) (field "body" input))
    (orDefaultTimeout (field "timeoutMs" input)).

(** The statuses after which a request is worth repeating. *)
Definition worthRetrying (status : Z) : bool :=
  ((500 <=? status) && (status <=? 599)) || (status =? 429).

(** How the processor sees a response with an error status. *)
Definition httpStatusError (r : Response) (body : value) : ClassifiedError :=
  {| category := spec_httpCategory (resp_status r);
     retryable := worthRetrying (resp_status r);
     code := "HTTP_" +:+ Z_to_string (resp_status r);
     message := "HTTP " +:+ Z_to_string (resp_status r);
     details := VObj [("status", VNum (resp_status r)); ("body", body)] |}.

(** How the processor sees a transform whose expression is rejected. *)
Definition transformFailure (errorMessage : value -> string) (text : string)
    : ClassifiedError :=
  {| category := VALIDATION; retryable := false; code := "TRANSFORM_ERROR";
     message := "Transform failed: " +:+ errorMessage (VStr text);
     details := VObj [("expression", VStr text)] |}.

(** The errors of an answer of [fetch] come from the runtime: none of them
    is a [WorkflowError]. *)
Definition NoWorkflowError {A} (r : Result A) : Prop :=
  match r with
  | Throw (ThrownWorkflowError _) => False
  | _ => True
  end.

Definition FromRuntime (outcome : FetchOutcome) : Prop :=
  match outcome with
  | FetchRejects (ThrownWorkflowError _) => False
  | FetchRejects _ => True
  | Responds r => NoWorkflowError (resp_json r) /\ NoWorkflowError (resp_text r)
  end.

(** Sample answers of [fetch]: a 404 with a text body, and a 200 whose body,
    announced as JSON, does not parse. *)
Definition answer404 : Fetch :=
  fun _ _ _ =>
    Responds {| resp_status := 404;
                resp_headers := [("content-type", "text/plain")];
                resp_json := Throw (ThrownError "SyntaxError" "Unexpected token m");
                resp_text := Ok "missing" |}.

Definition answerBadJson : Fetch :=
  fun _ _ _ =>
    Responds {| resp_status := 200;
                resp_headers := [("content-type", "application/json; charset=utf-8")];
                resp_json := Throw (ThrownError "SyntaxError" "Unexpected end of JSON input");
                resp_text := Ok "{" |}.

(** A second sample workflow: a delay, then a transform whose expression
    the sample expression language rejects. *)
Definition waitStep : Step :=
  {| s_id := "d1"; s_workflowId := "wf2"; s_order := 0; s_name := "wait";
     s_type := delay;
     s_config := VObj [("type", VStr "delay"); ("durationMs", VNum 5000)];
     s_retryPolicy := None; s_timeoutMs := None; s_enabled := true |}.

Definition shapeStep : Step :=
  {| s_id := "t1"; s_workflowId := "wf2"; s_order := 1; s_name := "shape";
     s_type := transform;
     s_config := VObj [("type", VStr "transform"); ("expression", VStr "bad @@");
                       ("outputKey", VStr "out")];
     s_retryPolicy := Some {| maxAttempts := 5; backoffType := fixed;
                              initialDelayMs := 100; maxDelayMs := 1000 |};
     s_timeoutMs := None; s_enabled := true |}.

Definition pipelineWorkflow : Workflow :=
  {| wf_id := "wf2"; wf_name := "Pipeline"; wf_slug := "pipeline";
     wf_webhookSecret := None; wf_enabled := true;
     wf_steps := [waitStep; shapeStep] |}.

Definition run7 : Run :=
  {| r_id := "run7"; r_workflowId := "wf2"; r_status := running;
     r_triggerData := VNull; r_context := sampleContext; r_currentStepIndex := 0;
     r_startedAt := 1000; r_completedAt := None; r_error := None |}.

Definition run8 : Run :=
  {| r_id := "run8"; r_workflowId := "wf2"; r_status := running;
     r_triggerData := VNull; r_context := sampleContext; r_currentStepIndex := 1;
     r_startedAt := 1000; r_completedAt := None; r_error := None |}.

Definition pipelineWorld : World :=
  {| workflows := {[ "wf2" := pipelineWorkflow ]};
     runs := {[ "run7" := run7; "run8" := run8 ]};
     stepExecutions := [];
     idempotencyKeys := ∅;
     jobs := [];
     locks := ∅ |}.

Definition waitMsg : ExecuteStepMessage :=
  {| runId := "run7"; workflowId := "wf2"; stepIndex := 0; stepId := "d1";
     attempt := 1 |}.

Definition shapeMsg : ExecuteStepMessage :=
  {| runId := "run8"; workflowId := "wf2"; stepIndex := 1; stepId := "t1";
     attempt := 1 |}.

Definition sampleMessage (v : value) : string := "Syntax error".

Definition sampleISO (t : Z) : string := "T+" +:+ Z_to_string t.

Definition sampleDateOf (v : value) : Result string :=
  Throw (ThrownError "RangeError" "Invalid time value").

(** An error that is not a [WorkflowError]. *)
Definition NotWorkflowError (e : Thrown) : Prop :=
  match e with
  | ThrownWorkflowError _ => False
  | _ => True
  end.

Definition sampleOptions : LMStudioOptions :=
  {| lm_model := VStr "default"; lm_prompt := VStr "Summarise"; lm_systemPrompt := VUndefined;
     lm_maxTokens := VUndefined; lm_temperature := VUndefined |}.

(** * Properties *)

(** ** Error taxonomy *)

Lemma classifyHttpError_category (s : Z) (m : option string) :
  category (classifyHttpError s m) = spec_httpCategory s.
Proof.
  unfold classifyHttpError, spec_httpCategory.
  repeat match goal with
         | |- context [if ?b then _ else _] =>
             lazymatch b with
             | decide _ => destruct b
             | _ => destruct b eqn:?
             end
         end; simpl; try reflexivity; exfalso; lia.
Qed.

Lemma classifyHttpError_retryable (s : Z) (m : option string) :
  retryable (classifyHttpError s m)
  = spec_retryable (category (classifyHttpError s m)).
Proof.
  unfold classifyHttpError.
  repeat match goal with
         | |- context [if ?b then _ else _] => destruct b
         end; reflexivity.
Qed.

Lemma classifyError_retryable (e : Thrown) :
  retryable (classifyError e) = spec_retryable (category (classifyError e)).
Proof.
  destruct e as [[c m cat d] | name msg | s]; simpl.
  - unfold we_retryable; simpl. destruct cat; reflexivity.
  - repeat match goal with
           | |- context [if ?b then _ else _] => destruct b
           end; reflexivity.
  - reflexivity.
Qed.

(** C8: [classifyHttpError] follows the status table (5xx and 429 TRANSIENT,
    401/403 AUTHORIZATION, 404 NOT_FOUND, every other 4xx VALIDATION, the
    rest FATAL), and every classified error, whether built from a status,
    by [classifyError] or by [WorkflowError.toClassified], is retryable
    exactly when its category is TRANSIENT or RESOURCE. *)
Theorem C8_http_classification :
  (forall (s : Z) (m : option string),
      category (classifyHttpError s m) = spec_httpCategory s
      /\ retryable (classifyHttpError s m)
         = spec_retryable (category (classifyHttpError s m)))
  /\ (forall e : Thrown,
        retryable (classifyError e) = spec_retryable (category (classifyError e)))
  /\ (forall e : WorkflowError,
        retryable (toClassified e) = spec_retryable (category (toClassified e))).
Proof.
  split; [| split].
  - intros s m. split.
    + apply classifyHttpError_category.
    + apply classifyHttpError_retryable.
  - apply classifyError_retryable.
  - intros e. apply (classifyError_retryable (ThrownWorkflowError e)).
Qed.

(** ** Backoff *)

Section Doubles.
Import Double.

(** ** Powers of two *)

Lemma pow2_pos (k : Z) : (0 < pow2 k)%Q.
Proof. unfold pow2. apply Qpower_0_lt. reflexivity. Qed.

Lemma pow2_add (a b : Z) : (pow2 (a + b) == pow2 a * pow2 b)%Q.
Proof. unfold pow2. apply Qpower_plus. discriminate. Qed.

Lemma pow2_Z (k : Z) : 0 <= k -> (pow2 k == inject_Z (2 ^ k))%Q.
Proof. intros Hk. unfold pow2. rewrite Zpower_Qpower by exact Hk. reflexivity. Qed.

Lemma pow2_ge_1 (k : Z) : 0 <= k -> (1 <= pow2 k)%Q.
Proof.
  intros Hk. rewrite (pow2_Z k Hk). change 1%Q with (inject_Z 1).
  rewrite <- Zle_Qle. pose proof (Z.pow_pos_nonneg 2 k). lia.
Qed.

Lemma pow2_le (a b : Z) : a <= b -> (pow2 a <= pow2 b)%Q.
Proof.
  intros Hab. replace b with (a + (b - a)) by lia. rewrite pow2_add.
  pose proof (pow2_pos a). pose proof (pow2_ge_1 (b - a) ltac:(lia)). nra.
Qed.

Lemma pow2_lt (a b : Z) : a < b -> (pow2 a < pow2 b)%Q.
Proof.
  intros Hab. replace b with (a + 1 + (b - a - 1)) by lia. rewrite !pow2_add.
  pose proof (pow2_pos a). pose proof (pow2_ge_1 (b - a - 1) ltac:(lia)).
  change (pow2 1) with 2%Q. nra.
Qed.

Lemma pow2_succ (a : Z) : (pow2 (a + 1) == 2 * pow2 a)%Q.
Proof. rewrite pow2_add. change (pow2 1) with 2%Q. ring. Qed.

Lemma pow2_lt_inv (a b : Z) : (pow2 a < pow2 b)%Q -> a < b.
Proof.
  intros H. destruct (Z_lt_le_dec a b) as [Hlt | Hle]; [exact Hlt |].
  apply pow2_le in Hle. lra.
Qed.

(** ** The binary exponent *)

Lemma log2_bounds (p : positive) :
  (pow2 (Z.log2 (Zpos p)) <= inject_Z (Zpos p))%Q
  /\ (inject_Z (Zpos p) < pow2 (Z.log2 (Zpos p) + 1))%Q.
Proof.
  pose proof (Z.log2_spec (Zpos p) ltac:(lia)) as [Hlo Hhi].
  pose proof (Z.log2_nonneg (Zpos p)) as Hnn.
  rewrite !pow2_Z by lia. rewrite <- Zle_Qle, <- Zlt_Qlt.
  replace (Z.log2 (Z.pos p) + 1) with (Z.succ (Z.log2 (Z.pos p))) by lia.
  split; assumption.
Qed.

Lemma floorLog2_spec (x : Q) :
  (0 < x)%Q ->
  (pow2 (floorLog2 x) <= x)%Q /\ (x < pow2 (floorLog2 x + 1))%Q.
Proof.
  intros Hx. destruct x as [a b]. 
  assert (Ha : 0 < a). { unfold Qlt in Hx. simpl in Hx. lia. }
  destruct a as [| a | a]; try lia. clear Ha.
  unfold floorLog2. cbn [Qnum Qden].
  set (la := Z.log2 (Zpos a)). set (lb := Z.log2 (Zpos b)).
  destruct (log2_bounds a) as [Ha1 Ha2]. destruct (log2_bounds b) as [Hb1 Hb2].
  fold la in Ha1, Ha2. fold lb in Hb1, Hb2.
  assert (Hx' : ((Zpos a # b) * inject_Z (Zpos b) == inject_Z (Zpos a))%Q).
  { unfold Qeq, Qmult, inject_Z. simpl. lia. }
  assert (Hbpos : (0 < inject_Z (Zpos b))%Q) by (unfold Qlt; simpl; lia).
  set (x := (Zpos a # b)%Q) in *.
  (* x in (2^(k-1), 2^(k+1)) *)
  assert (Hup : (x < pow2 (la - lb + 1))%Q).
  { apply (Qmult_lt_r _ _ (inject_Z (Zpos b)) Hbpos). rewrite Hx'.
    eapply Qlt_le_trans; [exact Ha2 |].
    replace (la + 1) with (la - lb + 1 + lb) by lia. rewrite pow2_add.
    pose proof (pow2_pos (la - lb + 1)). nra. }
  assert (Hdown : (pow2 (la - lb - 1) < x)%Q).
  { apply (Qmult_lt_r _ _ (inject_Z (Zpos b)) Hbpos). rewrite Hx'.
    eapply Qlt_le_trans; [| exact Ha1].
    replace la with (la - lb - 1 + (lb + 1)) at 2 by lia. rewrite pow2_add.
    pose proof (pow2_pos (la - lb - 1)). nra. }
  destruct (Qle_bool (pow2 (la - lb)) x) eqn:Hcmp.
  - apply Qle_bool_iff in Hcmp. split; assumption.
  - assert (Hlt : (x < pow2 (la - lb))%Q).
    { apply Qnot_le_lt. intros H. apply Qle_bool_iff in H. congruence. }
    split.
    + apply Qlt_le_weak. exact Hdown.
    + replace (la - lb - 1 + 1) with (la - lb) by lia. exact Hlt.
Qed.

Lemma floorLog2_unique (x : Q) (e : Z) :
  (pow2 e <= x)%Q -> (x < pow2 (e + 1))%Q -> floorLog2 x = e.
Proof.
  intros Hlo Hhi.
  assert (Hx : (0 < x)%Q) by (pose proof (pow2_pos e); lra).
  destruct (floorLog2_spec x Hx) as [Hlo' Hhi'].
  assert (floorLog2 x < e + 1).
  { apply pow2_lt_inv. lra. }
  assert (e < floorLog2 x + 1).
  { apply pow2_lt_inv. lra. }
  lia.
Qed.

(** ** Rounding to an integer *)

Lemma roundHalfEven_near (x : Q) :
  (inject_Z (roundHalfEven x) - (1 # 2) <= x)%Q
  /\ (x <= inject_Z (roundHalfEven x) + (1 # 2))%Q.
Proof.
  unfold roundHalfEven.
  pose proof (Qfloor_le x) as Hlo. pose proof (Qlt_floor x) as Hhi.
  rewrite inject_Z_plus in Hhi. change (inject_Z 1) with 1%Q in Hhi.
  destruct (Qcompare_spec (x - inject_Z (Qfloor x)) (1 # 2)) as [Heq | Hlt | Hgt].
  - destruct (Z.even (Qfloor x)); rewrite ?inject_Z_plus; change (inject_Z 1) with 1%Q; lra.
  - lra.
  - rewrite inject_Z_plus. change (inject_Z 1) with 1%Q. lra.
Qed.

Lemma roundHalfEven_Z (n : Z) (x : Q) : (x == inject_Z n)%Q -> roundHalfEven x = n.
Proof.
  intros Hx. unfold roundHalfEven.
  assert (Hf : Qfloor x = n).
  { rewrite Hx. apply Qfloor_Z. }
  rewrite Hf.
  destruct (Qcompare_spec (x - inject_Z n) (1 # 2)) as [Heq | Hlt | Hgt]; try lra.
  reflexivity.
Qed.

Lemma roundHalfEven_le (x y : Q) : (x <= y)%Q -> roundHalfEven x <= roundHalfEven y.
Proof.
  intros Hxy.
  pose proof (Qfloor_resp_le x y Hxy) as Hf.
  destruct (Z.eq_dec (Qfloor x) (Qfloor y)) as [Heq | Hne].
  - unfold roundHalfEven. rewrite Heq.
    destruct (Qcompare_spec (x - inject_Z (Qfloor y)) (1 # 2)) as [H1 | H1 | H1];
      destruct (Qcompare_spec (y - inject_Z (Qfloor y)) (1 # 2)) as [H2 | H2 | H2];
      try destruct (Z.even (Qfloor y)); try lia; lra.
  - assert (Hlt : Qfloor x + 1 <= Qfloor y) by lia.
    assert (Hx : roundHalfEven x <= Qfloor x + 1).
    { unfold roundHalfEven.
      destruct (x - inject_Z (Qfloor x) ?= 1 # 2)%Q; try destruct (Z.even (Qfloor x)); lia. }
    assert (Hy : Qfloor y <= roundHalfEven y).
    { unfold roundHalfEven.
      destruct (y - inject_Z (Qfloor y) ?= 1 # 2)%Q; try destruct (Z.even (Qfloor y)); lia. }
    lia.
Qed.

Lemma roundHalfEven_proper (x y : Q) : (x == y)%Q -> roundHalfEven x = roundHalfEven y.
Proof.
  intros H. apply Z.le_antisymm; apply roundHalfEven_le; rewrite H; apply Qle_refl.
Qed.

(** ** Rounding to a double *)

Lemma inject_Z_nonneg (n : Z) : 0 <= n -> (0 <= inject_Z n)%Q.
Proof. intros H. change 0%Q with (inject_Z 0). rewrite <- Zle_Qle. exact H. Qed.

Lemma floorLog2_Qabs_pos (x : Q) : (0 < x)%Q -> floorLog2 (Qabs x) = floorLog2 x.
Proof.
  intros Hx. destruct (floorLog2_spec x Hx) as [Hlo Hhi].
  apply floorLog2_unique; rewrite Qabs_pos by lra; assumption.
Qed.

Lemma floorLog2_proper (x y : Q) : (0 < x)%Q -> (x == y)%Q -> floorLog2 x = floorLog2 y.
Proof.
  intros Hx Hxy. destruct (floorLog2_spec x Hx) as [Hlo Hhi].
  symmetry. apply floorLog2_unique; rewrite <- Hxy; assumption.
Qed.

Lemma floorLog2_le (x y : Q) : (0 < x)%Q -> (x <= y)%Q -> floorLog2 x <= floorLog2 y.
Proof.
  intros Hx Hxy. destruct (floorLog2_spec x Hx) as [Hlo Hhi].
  destruct (floorLog2_spec y ltac:(lra)) as [Hlo' Hhi'].
  assert (floorLog2 x < floorLog2 y + 1) by (apply pow2_lt_inv; lra). lia.
Qed.

Lemma round_pos (x : Q) :
  (0 < x)%Q ->
  round x = if Qle_bool (pow2 1024) (inject_Z (sigOf x) * pow2 (expOf x))
            then PosInf
            else Fin (Qred (inject_Z (sigOf x) * pow2 (expOf x))).
Proof.
  intros Hx. unfold round, quantum.
  destruct (Qeq_bool x 0) eqn:H0.
  { apply Qeq_bool_iff in H0. lra. }
  rewrite (floorLog2_Qabs_pos x Hx). fold (expOf x). fold (sigOf x).
  assert (Hs : 0 <= sigOf x).
  { unfold sigOf. rewrite <- (roundHalfEven_Z 0 0%Q (Qeq_refl _)).
    apply roundHalfEven_le. pose proof (pow2_pos (expOf x)).
    apply Qle_shift_div_l; lra. }
  rewrite Qabs_pos.
  2:{ pose proof (pow2_pos (expOf x)). apply inject_Z_nonneg in Hs. nra. }
  assert (Hle : Qle_bool 0 x = true) by (apply Qle_bool_iff; lra).
  rewrite Hle. reflexivity.
Qed.

Lemma sigOf_near (x : Q) :
  ((inject_Z (sigOf x) - (1 # 2)) * pow2 (expOf x) <= x)%Q
  /\ (x <= (inject_Z (sigOf x) + (1 # 2)) * pow2 (expOf x))%Q.
Proof.
  unfold sigOf. pose proof (pow2_pos (expOf x)) as Hq.
  destruct (roundHalfEven_near (x / pow2 (expOf x))) as [Hlo Hhi].
  assert (Hx : (x / pow2 (expOf x) * pow2 (expOf x) == x)%Q) by (field; lra).
  set (n := inject_Z (roundHalfEven (x / pow2 (expOf x)))) in *.
  set (d := (x / pow2 (expOf x))%Q) in *. set (q := pow2 (expOf x)) in *.
  split; nra.
Qed.

Lemma sigOf_le (x : Q) : (0 < x)%Q -> sigOf x <= 2 ^ 53.
Proof.
  intros Hx. unfold sigOf.
  rewrite <- (roundHalfEven_Z (2 ^ 53) (inject_Z (2 ^ 53)) (Qeq_refl _)).
  apply roundHalfEven_le. pose proof (pow2_pos (expOf x)) as Hq.
  apply Qle_shift_div_r; [exact Hq |].
  destruct (floorLog2_spec x Hx) as [_ Hhi].
  rewrite <- pow2_Z by lia. rewrite <- pow2_add.
  apply Qlt_le_weak. eapply Qlt_le_trans; [exact Hhi |].
  apply pow2_le. unfold expOf. lia.
Qed.

Lemma sigOf_ge (x : Q) : (0 < x)%Q -> -1022 <= floorLog2 x -> 2 ^ 52 <= sigOf x.
Proof.
  intros Hx He. unfold sigOf.
  rewrite <- (roundHalfEven_Z (2 ^ 52) (inject_Z (2 ^ 52)) (Qeq_refl _)).
  apply roundHalfEven_le. pose proof (pow2_pos (expOf x)) as Hq.
  apply Qle_shift_div_l; [exact Hq |].
  destruct (floorLog2_spec x Hx) as [Hlo _].
  rewrite <- pow2_Z by lia. rewrite <- pow2_add.
  eapply Qle_trans; [| exact Hlo].
  apply pow2_le. unfold expOf. lia.
Qed.

Lemma sigOf_nonneg (x : Q) : (0 <= x)%Q -> 0 <= sigOf x.
Proof.
  intros Hx. unfold sigOf. rewrite <- (roundHalfEven_Z 0 0%Q (Qeq_refl _)).
  apply roundHalfEven_le. pose proof (pow2_pos (expOf x)).
  apply Qle_shift_div_l; lra.
Qed.

(** Rounding is monotone on the non-negative rationals. *)
Lemma round_le (x y b : Q) :
  (0 <= x)%Q -> (x <= y)%Q -> round y = Fin b ->
  exists a, round x = Fin a /\ (0 <= a)%Q /\ (a <= b)%Q.
Proof.
  intros Hx Hxy Hy.
  assert (Hy0 : (0 <= y)%Q) by lra.
  destruct (Qlt_le_dec 0 x) as [Hxpos | Hx0].
  2:{ assert (Hxz : (x == 0)%Q) by lra.
      exists 0%Q. split.
      - unfold round. apply Qeq_bool_iff in Hxz. rewrite Hxz. reflexivity.
      - split; [lra |].
        destruct (Qlt_le_dec 0 y) as [Hypos | Hyz].
        + rewrite (round_pos y Hypos) in Hy.
          destruct (Qle_bool _ _) in Hy; [discriminate |].
          injection Hy as <-. rewrite Qred_correct.
          pose proof (sigOf_nonneg y Hy0) as Hs. apply inject_Z_nonneg in Hs.
          pose proof (pow2_pos (expOf y)). nra.
        + assert (Hyz' : (y == 0)%Q) by lra.
          unfold round in Hy. apply Qeq_bool_iff in Hyz'. rewrite Hyz' in Hy.
          injection Hy as <-. lra. }
  assert (Hypos : (0 < y)%Q) by lra.
  rewrite (round_pos y Hypos) in Hy. rewrite (round_pos x Hxpos).
  destruct (Qle_bool (pow2 1024) (inject_Z (sigOf y) * pow2 (expOf y))) eqn:Hovf;
    [discriminate |].
  injection Hy as <-.
  assert (Hval : (inject_Z (sigOf x) * pow2 (expOf x)
                  <= inject_Z (sigOf y) * pow2 (expOf y))%Q).
  { pose proof (floorLog2_le x y Hxpos Hxy) as He.
    destruct (Z.eq_dec (expOf x) (expOf y)) as [Heq | Hne].
    - rewrite Heq. pose proof (pow2_pos (expOf y)) as Hq.
      assert (Hs : sigOf x <= sigOf y).
      { unfold sigOf. rewrite Heq. apply roundHalfEven_le.
        apply Qmult_le_compat_r; [exact Hxy |].
        apply Qlt_le_weak. apply Qinv_lt_0_compat. exact Hq. }
      rewrite Zle_Qle in Hs. nra.
    - assert (Hlt : expOf x + 1 <= expOf y) by (unfold expOf in *; lia).
      assert (Hey : -1022 <= floorLog2 y) by (unfold expOf in *; lia).
      pose proof (sigOf_le x Hxpos) as Hsx. pose proof (sigOf_ge y Hypos Hey) as Hsy.
      rewrite Zle_Qle in Hsx, Hsy. rewrite <- pow2_Z in Hsx, Hsy by lia.
      pose proof (pow2_pos (expOf x)) as Hqx. pose proof (pow2_pos (expOf y)) as Hqy.
      apply Qle_trans with (pow2 53 * pow2 (expOf x))%Q; [nra |].
      apply Qle_trans with (pow2 52 * pow2 (expOf y))%Q; [| nra].
      rewrite <- !pow2_add. apply pow2_le. lia. }
  assert (Hovx : Qle_bool (pow2 1024) (inject_Z (sigOf x) * pow2 (expOf x)) = false).
  { apply not_true_iff_false. intros H. apply Qle_bool_iff in H.
    apply not_true_iff_false in Hovf. apply Hovf. apply Qle_bool_iff. lra. }
  rewrite Hovx. eexists. split; [reflexivity |].
  rewrite !Qred_correct. split; [| exact Hval].
  pose proof (sigOf_nonneg x Hx) as Hs. apply inject_Z_nonneg in Hs.
  pose proof (pow2_pos (expOf x)). nra.
Qed.

Lemma round_proper (x y : Q) : (x == y)%Q -> round x = round y.
Proof.
  intros Hxy. unfold round.
  assert (H0 : Qeq_bool x 0 = Qeq_bool y 0).
  { destruct (Qeq_bool x 0) eqn:Hx, (Qeq_bool y 0) eqn:Hy; try reflexivity.
    - apply Qeq_bool_iff in Hx. apply Qeq_bool_neq in Hy. exfalso. apply Hy. lra.
    - apply Qeq_bool_iff in Hy. apply Qeq_bool_neq in Hx. exfalso. apply Hx. lra. }
  rewrite <- H0. destruct (Qeq_bool x 0) eqn:Hx; [reflexivity |].
  apply Qeq_bool_neq in Hx.
  assert (Habs : (0 < Qabs x)%Q).
  { destruct (Qlt_le_dec 0 x) as [Hp | Hn].
    - rewrite Qabs_pos; lra.
    - rewrite Qabs_neg by exact Hn. destruct (Qeq_dec x 0); [contradiction | lra]. }
  assert (Hq : quantum x = quantum y).
  { unfold quantum. rewrite (floorLog2_proper (Qabs x) (Qabs y) Habs); [reflexivity |].
    rewrite Hxy. reflexivity. }
  rewrite <- Hq.
  assert (Hn : roundHalfEven (x / quantum x) = roundHalfEven (y / quantum x)).
  { apply roundHalfEven_proper. set (q := quantum x). rewrite Hxy. reflexivity. }
  rewrite <- Hn.
  assert (Hs : Qle_bool 0 x = Qle_bool 0 y).
  { destruct (Qle_bool 0 x) eqn:H1, (Qle_bool 0 y) eqn:H2; try reflexivity.
    - apply Qle_bool_iff in H1. apply not_true_iff_false in H2. exfalso.
      apply H2. apply Qle_bool_iff. lra.
    - apply Qle_bool_iff in H2. apply not_true_iff_false in H1. exfalso.
      apply H1. apply Qle_bool_iff. lra. }
  rewrite Hs. reflexivity.
Qed.

Lemma Qred_inject_Z (n : Z) : Qred (inject_Z n) = inject_Z n.
Proof.
  unfold Qred, inject_Z.
  pose proof (Z.ggcd_gcd n 1) as Hg. pose proof (Z.ggcd_correct_divisors n 1) as Hd.
  destruct (Z.ggcd n 1) as [g [aa bb]]. cbn [fst snd] in *.
  rewrite Z.gcd_1_r in Hg. subst g. destruct Hd as [Ha Hb].
  rewrite Z.mul_1_l in Ha, Hb. subst aa bb. reflexivity.
Qed.

(** An integer of at most 53 bits is a double. *)
Lemma round_integer (n : Z) (x : Q) :
  0 <= n <= 2 ^ 53 -> (x == inject_Z n)%Q -> round x = Fin (inject_Z n).
Proof.
  intros Hn Hx. rewrite (round_proper x (inject_Z n) Hx). clear x Hx.
  destruct (Z.eq_dec n 0) as [-> | Hnz]; [reflexivity |].
  assert (Hpos : (0 < inject_Z n)%Q).
  { change 0%Q with (inject_Z 0). rewrite <- Zlt_Qlt. lia. }
  rewrite (round_pos _ Hpos).
  set (e := floorLog2 (inject_Z n)).
  destruct (floorLog2_spec _ Hpos) as [Hlo Hhi]. fold e in Hlo, Hhi.
  assert (He0 : 0 <= e).
  { assert (0 < e + 1); [| lia]. apply pow2_lt_inv.
    eapply Qle_lt_trans; [| exact Hhi]. change (pow2 0) with (inject_Z 1).
    rewrite <- Zle_Qle. lia. }
  assert (He53 : e <= 53).
  { assert (e < 53 + 1); [| lia]. apply pow2_lt_inv.
    eapply Qle_lt_trans; [exact Hlo |].
    eapply Qle_lt_trans with (pow2 53); [| apply pow2_lt; lia].
    rewrite pow2_Z by lia. rewrite <- Zle_Qle. lia. }
  assert (Hexp : expOf (inject_Z n) = e - 52) by (unfold expOf; fold e; lia).
  clearbody e.
  assert (Hval : (inject_Z (sigOf (inject_Z n)) * pow2 (expOf (inject_Z n))
                  == inject_Z n)%Q).
  { unfold sigOf. rewrite Hexp.
    destruct (Z_le_gt_dec e 52) as [Hsmall | Hbig].
    - rewrite (roundHalfEven_Z (n * 2 ^ (52 - e))).
      + rewrite inject_Z_mult, <- pow2_Z by lia.
        rewrite <- Qmult_assoc, <- pow2_add.
        replace (52 - e + (e - 52)) with 0 by lia. change (pow2 0) with 1%Q. ring.
      + rewrite inject_Z_mult, <- pow2_Z by lia.
        unfold Qdiv. apply Qmult_inj_l with (z := pow2 (e - 52)).
        * pose proof (pow2_pos (e - 52)). lra.
        * rewrite (Qmult_comm (pow2 (e - 52))), <- Qmult_assoc.
          rewrite (Qmult_comm (/ pow2 (e - 52))), Qmult_inv_r
            by (pose proof (pow2_pos (e - 52)); lra).
          rewrite (Qmult_comm (pow2 (e - 52))), <- Qmult_assoc, <- pow2_add.
          replace (52 - e + (e - 52)) with 0 by lia. change (pow2 0) with 1%Q. ring.
    - assert (e = 53) by lia. subst e.
      assert (Hn53 : n = 2 ^ 53).
      { rewrite pow2_Z in Hlo by lia. rewrite <- Zle_Qle in Hlo. lia. }
      subst n. vm_compute. reflexivity. }
  destruct (Qle_bool (pow2 1024) _) eqn:Hovf.
  - apply Qle_bool_iff in Hovf. rewrite Hval in Hovf.
    exfalso. assert (Hc : (inject_Z n < pow2 1024)%Q).
    { eapply Qle_lt_trans with (pow2 53); [| apply pow2_lt; lia].
      rewrite pow2_Z by lia. rewrite <- Zle_Qle. lia. }
    lra.
  - f_equal. rewrite (Qred_complete _ _ Hval). apply Qred_inject_Z.
Qed.

Lemma round_relative (x : Q) :
  (pow2 (-1022) <= x)%Q -> (x <= pow2 1023)%Q ->
  exists y, round x = Fin y /\ (x * (1 - ulp) <= y)%Q /\ (y <= x * (1 + ulp))%Q.
Proof.
  intros Hlo Hhi.
  assert (Hx : (0 < x)%Q) by (pose proof (pow2_pos (-1022)); lra).
  rewrite (round_pos x Hx).
  destruct (floorLog2_spec x Hx) as [He1 He2].
  assert (He : -1022 <= floorLog2 x).
  { assert (-1022 < floorLog2 x + 1); [| lia]. apply pow2_lt_inv. lra. }
  assert (Hexp : expOf x = floorLog2 x - 52) by (unfold expOf; lia).
  destruct (sigOf_near x) as [Hn1 Hn2].
  set (v := (inject_Z (sigOf x) * pow2 (expOf x))%Q) in *.
  assert (Hq : (pow2 (expOf x) <= x * (2 # 1) * ulp)%Q).
  { rewrite Hexp. 
    replace (floorLog2 x - 52) with (floorLog2 x + (-52)) by lia.
    rewrite pow2_add.
    assert (Hc : (pow2 (-52) == (2 # 1) * ulp)%Q) by reflexivity. rewrite Hc.
    set (p := pow2 (floorLog2 x)) in *. set (u := ulp).
    assert (Hu : (0 < u)%Q) by reflexivity. nra. }
  assert (Hv : (x * (1 - ulp) <= v)%Q /\ (v <= x * (1 + ulp))%Q).
  { unfold v. set (s := inject_Z (sigOf x)) in *. set (q := pow2 (expOf x)) in *.
    split; nra. }
  destruct Hv as [Hv1 Hv2].
  assert (Hovf : Qle_bool (pow2 1024) v = false).
  { apply not_true_iff_false. intros H. apply Qle_bool_iff in H.
    assert (Hc : (pow2 1024 == 2 * pow2 1023)%Q) by (apply (pow2_succ 1023)).
    assert (Hu : (0 < ulp)%Q) by reflexivity.
    assert (Hu1 : (ulp < 1)%Q) by reflexivity.
    pose proof (pow2_pos 1023). nra. }
  rewrite Hovf. eexists. split; [reflexivity |].
  rewrite Qred_correct. split; assumption.
Qed.

Lemma tenth_value : tenth = Fin tenthQ.
Proof. vm_compute. reflexivity. Qed.

Lemma round_tenth : round tenthQ = Fin tenthQ.
Proof. vm_compute. reflexivity. Qed.

Lemma round_fifth : round (tenthQ + tenthQ) = Fin fifthQ.
Proof. vm_compute. reflexivity. Qed.

(** The jitter factor lies between the doubles [0.1] and [0.2]. *)
Lemma jitterFactor_bounds (r : Q) :
  (0 <= r)%Q -> (r < 1)%Q ->
  exists j, jitterFactor (Fin r) = Fin j
            /\ (tenthQ <= j)%Q /\ (j <= fifthQ)%Q.
Proof.
  intros Hr0 Hr1. unfold jitterFactor. rewrite tenth_value. cbn [mul].
  assert (Ht : (0 < tenthQ)%Q) by reflexivity.
  destruct (round_le (r * tenthQ) tenthQ tenthQ ltac:(nra) ltac:(nra) round_tenth)
    as (a & Ha & Ha0 & Ha1).
  rewrite Ha. cbn [add].
  destruct (round_le (tenthQ + a) (tenthQ + tenthQ) _ ltac:(lra) ltac:(lra) round_fifth)
    as (j & Hj & Hj0 & Hj1).
  exists j. split; [exact Hj |]. split; [| exact Hj1].
  destruct (round_le tenthQ (tenthQ + a) j ltac:(lra) ltac:(lra) Hj)
    as (t & Htt & _ & Ht1).
  rewrite round_tenth in Htt. injection Htt as <-. exact Ht1.
Qed.

Lemma base_is_double (backoffType : BackoffType) (attempt initialDelayMs : Z) :
  1 <= attempt -> 1 <= initialDelayMs ->
  backoffBase backoffType attempt initialDelayMs <= 2 ^ 53 ->
  match backoffType with
  | fixed => ofZ initialDelayMs
  | linear => mul (ofZ initialDelayMs) (ofZ attempt)
  | exponential => mul (ofZ initialDelayMs) (powerOfTwo (attempt - 1))
  end = Fin (inject_Z (backoffBase backoffType attempt initialDelayMs)).
Proof.
  intros Ha Hi Hb. destruct backoffType; cbn [backoffBase] in *.
  - apply round_integer; [lia | reflexivity].
  - assert (Hp : 0 < 2 ^ (attempt - 1)) by (apply Z.pow_pos_nonneg; lia).
    assert (Hk : attempt - 1 <= 53).
    { destruct (Z_le_gt_dec (attempt - 1) 53) as [H | H]; [exact H |].
      exfalso.
      assert (Hbig : 2 ^ 54 <= 2 ^ (attempt - 1)) by (apply Z.pow_le_mono_r; lia).
      change (2 ^ 54) with (2 * 2 ^ 53) in Hbig. assert (Hc : 0 < 2 ^ 53) by lia.
      set (p := 2 ^ (attempt - 1)) in *. set (c := 2 ^ 53) in *. clearbody p c.
      assert (1 * p <= initialDelayMs * p) by (apply Z.mul_le_mono_nonneg_r; lia). lia. }
    assert (Hp' : 2 ^ (attempt - 1) <= 2 ^ 53) by (apply Z.pow_le_mono_r; lia).
    assert (Hi' : initialDelayMs <= 2 ^ 53).
    { set (p := 2 ^ (attempt - 1)) in *. set (c := 2 ^ 53) in *. clearbody p c.
      assert (initialDelayMs * 1 <= initialDelayMs * p) by (apply Z.mul_le_mono_nonneg_l; lia).
      lia. }
    unfold ofZ. rewrite (round_integer initialDelayMs _ ltac:(lia) (Qeq_refl _)).
    unfold powerOfTwo.
    destruct (1024 <=? attempt - 1) eqn:H1; [apply Z.leb_le in H1; lia |].
    destruct (attempt - 1 <? -1075) eqn:H2; [apply Z.ltb_lt in H2; lia |].
    rewrite (round_integer (2 ^ (attempt - 1)) _ ltac:(lia)
               (pow2_Z (attempt - 1) ltac:(lia))).
    cbn [mul]. apply round_integer; [split; [apply Z.mul_nonneg_nonneg; lia | exact Hb] |].
    rewrite inject_Z_mult. reflexivity.
  - assert (Hi' : initialDelayMs <= 2 ^ 53).
    { assert (initialDelayMs * 1 <= initialDelayMs * attempt)
        by (apply Z.mul_le_mono_nonneg_l; lia). lia. }
    assert (Ha' : attempt <= 2 ^ 53).
    { assert (1 * attempt <= initialDelayMs * attempt)
        by (apply Z.mul_le_mono_nonneg_r; lia). lia. }
    unfold ofZ. rewrite (round_integer initialDelayMs _ ltac:(lia) (Qeq_refl _)).
    rewrite (round_integer attempt _ ltac:(lia) (Qeq_refl _)).
    cbn [mul]. apply round_integer; [split; [apply Z.mul_nonneg_nonneg; lia | exact Hb] |].
    rewrite inject_Z_mult. reflexivity.
Qed.

Lemma jitter_arith (B j g d u : Q) :
  (0 <= B)%Q -> (0 < u)%Q -> (u <= 1 # 8)%Q ->
  ((1 # 10) <= j)%Q -> (j <= (2 # 10) * (1 + u))%Q ->
  (B * j * (1 - u) <= g)%Q -> (g <= B * j * (1 + u))%Q ->
  ((B + g) * (1 - u) <= d)%Q -> (d <= (B + g) * (1 + u))%Q ->
  (B * (11 # 10) * (1 - (2 # 1) * u) <= d)%Q
  /\ (d <= B * (12 # 10) * (1 + (4 # 1) * u))%Q.
Proof.
  intros HB Hu Hu8 Hj1 Hj2 Hg1 Hg2 Hd1 Hd2.
  assert (Hg1' : (B * (1 # 10) * (1 - u) <= g)%Q).
  { apply Qle_trans with (B * j * (1 - u))%Q; [| exact Hg1].
    assert (B * (1 # 10) <= B * j)%Q by nra. nra. }
  assert (Hg2' : (g <= B * (2 # 10) * ((1 + u) * (1 + u)))%Q).
  { apply Qle_trans with (B * j * (1 + u))%Q; [exact Hg2 |].
    assert (B * j <= B * ((2 # 10) * (1 + u)))%Q by nra. nra. }
  split.
  - apply Qle_trans with ((B + g) * (1 - u))%Q; [| exact Hd1].
    assert (B + B * (1 # 10) * (1 - u) <= B + g)%Q by lra.
    assert (H1 : (B * (11 # 10) * (1 - (2 # 1) * u)
                 <= (B + B * (1 # 10) * (1 - u)) * (1 - u))%Q).
    { assert (0 <= B * u * u)%Q by nra. assert (0 <= B * u)%Q by nra. nra. }
    nra.
  - apply Qle_trans with ((B + g) * (1 + u))%Q; [exact Hd2 |].
    assert (H1 : ((B + B * (2 # 10) * ((1 + u) * (1 + u))) * (1 + u)
                  <= B * (12 # 10) * (1 + (4 # 1) * u))%Q).
    { assert (0 <= B * u)%Q by nra.
      assert (B * u * u <= B * u * (1 # 8))%Q by nra.
      assert (0 <= B * u * u)%Q by nra.
      assert (B * u * u * u <= B * u * u * (1 # 8))%Q by nra.
      nra. }
    nra.
Qed.

End Doubles.

(** [Double] agrees with the Standard Library's [SpecFloat] at binary64:
    on the literal [0.1], on the products and sums of the backoff, on
    integers that are not doubles, on overflow, and among the subnormals,
    ties included. *)
Example double_agrees_with_SpecFloat :
  let tenth := SFdiv 53 1024 (specOfZ 1) (specOfZ 10) in
  ofSpec tenth = Double.round (1 # 10)
  /\ ofSpec (SFmul 53 1024 (specOfZ 101) tenth)
     = Double.mul (Double.ofZ 101) (Double.round (1 # 10))
  /\ ofSpec (SFadd 53 1024 (specOfZ 101) (SFmul 53 1024 (specOfZ 101) tenth))
     = Double.add (Double.ofZ 101) (Double.mul (Double.ofZ 101) (Double.round (1 # 10)))
  /\ ofSpec (SFadd 53 1024 tenth
               (SFmul 53 1024 (SFdiv 53 1024 (specOfZ 1) (specOfZ 3)) tenth))
     = Double.add (Double.round (1 # 10))
         (Double.mul (Double.round (1 # 3)) (Double.round (1 # 10)))
  /\ ofSpec (specOfZ (2 ^ 53 + 1)) = Double.ofZ (2 ^ 53 + 1)
  /\ ofSpec (specOfZ (2 ^ 53 + 3)) = Double.ofZ (2 ^ 53 + 3)
  /\ ofSpec (specOfZ (- (10 ^ 21) - 7)) = Double.ofZ (- (10 ^ 21) - 7)
  /\ ofSpec (SFmul 53 1024 (specOfZ (2 ^ 1000)) (specOfZ (2 ^ 24)))
     = Double.mul (Double.ofZ (2 ^ 1000)) (Double.ofZ (2 ^ 24))
  /\ ofSpec (SFdiv 53 1024 (SFdiv 53 1024 (specOfZ 1) (specOfZ (2 ^ 1000)))
               (specOfZ (3 * 2 ^ 70)))
     = Double.round ((1 # 2 ^ 1000) / inject_Z (3 * 2 ^ 70))
  /\ ofSpec (SFdiv 53 1024 (SFdiv 53 1024 (specOfZ 3) (specOfZ (2 ^ 1000)))
               (specOfZ (2 ^ 75)))
     = Double.round ((3 # 2 ^ 1000) / inject_Z (2 ^ 75))
  /\ ofSpec (SFdiv 53 1024 (SFdiv 53 1024 (specOfZ 1) (specOfZ (2 ^ 1000)))
               (specOfZ (2 ^ 75)))
     = Double.round ((1 # 2 ^ 1000) / inject_Z (2 ^ 75)).
Proof. vm_compute. repeat split; reflexivity. Qed.

(** The texts of numbers and of dates, on known values. *)
Example number_texts :
  List.map (fun q => Double.toString (Double.round q))
    [1 # 10; 3 # 10; 1 # 3; inject_Z (10 ^ 21); inject_Z (10 ^ 21 - 1);
     inject_Z 123456789012345680000; Double.pow2 69; 1 # 1000000; 1 # 10000000;
     Double.pow2 (-1074); (Double.pow2 1024 - Double.pow2 971)%Q; 123456 # 1000;
     (-5 # 2)%Q; 0%Q; Double.pow2 1024]
  = ["0.1"; "0.3"; "0.3333333333333333"; "1e+21"; "1e+21"; "123456789012345680000";
     "590295810358705700000"; "0.000001"; "1e-7"; "5e-324"; "1.7976931348623157e+308";
     "123.456"; "-2.5"; "0"; "Infinity"].
Proof. vm_compute. reflexivity. Qed.

Example date_texts :
  List.map Date.toISOString
    [0; 1704067200000; 951782400000; -1; 253402300799999; 253402300800000;
     8640000000000000; -62167219200000]
  = ["1970-01-01T00:00:00.000Z"; "2024-01-01T00:00:00.000Z"; "2000-02-29T00:00:00.000Z";
     "1969-12-31T23:59:59.999Z"; "9999-12-31T23:59:59.999Z"; "+010000-01-01T00:00:00.000Z";
     "+275760-09-13T00:00:00.000Z"; "0000-01-01T00:00:00.000Z"].
Proof. vm_compute. reflexivity. Qed.

(** C5 (amended): in IEEE-754 double arithmetic, for an integer attempt
    of at least 1, an integer initial delay of at least 1, a base delay of
    at most [2^53], an integer cap between 0 and [2^53] and a draw [r] of
    [Math.random] in [0, 1): the jitter factor [j = 0.1 + r * 0.1] is a
    finite double between the doubles [0.1] and [0.2]; [calculateBackoff]
    returns [Math.min(base + base * j, maxDelayMs)], the cap applied after
    jitter; and the result [d] satisfies
    [min (initialDelayMs * 1.1 * (1 - 2^-52), maxDelayMs) <= d
     <= min (base * 1.2 * (1 + 2^-51), maxDelayMs)]. *)
Theorem C5_backoff_bounds (backoffType : BackoffType)
    (attempt initialDelayMs maxDelayMs : Z) (r : Q) :
  1 <= attempt -> 1 <= initialDelayMs ->
  backoffBase backoffType attempt initialDelayMs <= 2 ^ 53 ->
  0 <= maxDelayMs <= 2 ^ 53 ->
  (0 <= r)%Q -> (r < 1)%Q ->
  let base := inject_Z (backoffBase backoffType attempt initialDelayMs) in
  let result := calculateBackoff backoffType attempt (Double.ofZ initialDelayMs)
                  (Double.ofZ maxDelayMs) (Double.Fin r) in
  exists j d : Q,
    jitterFactor (Double.Fin r) = Double.Fin j
    /\ Double.round (1 # 10) = Double.Fin tenthQ
    /\ Double.round (2 # 10) = Double.Fin fifthQ
    /\ (tenthQ <= j)%Q /\ (j <= fifthQ)%Q
    /\ result = Double.min (Double.add (Double.Fin base)
                              (Double.mul (Double.Fin base) (Double.Fin j)))
                  (Double.ofZ maxDelayMs)
    /\ result = Double.Fin d
    /\ (Qmin (inject_Z initialDelayMs * (11 # 10) * (1 - (1 # 2 ^ 52)))
             (inject_Z maxDelayMs) <= d)%Q
    /\ (d <= Qmin (base * (12 # 10) * (1 + (1 # 2 ^ 51))) (inject_Z maxDelayMs))%Q.
Proof.
  intros Ha Hi Hb Hm Hr0 Hr1 base result.
  destruct (jitterFactor_bounds r Hr0 Hr1) as (j & Hj & Hj1 & Hj2).
  assert (Hmax : Double.ofZ maxDelayMs = Double.Fin (inject_Z maxDelayMs)).
  { apply round_integer; [lia | reflexivity]. }
  assert (HB1 : (1 <= base)%Q).
  { unfold base. change 1%Q with (inject_Z 1). rewrite <- Zle_Qle.
    destruct backoffType; cbn [backoffBase].
    - lia.
    - assert (0 < 2 ^ (attempt - 1)) by (apply Z.pow_pos_nonneg; lia). nia.
    - nia. }
  assert (HBi : (inject_Z initialDelayMs <= base)%Q).
  { unfold base. rewrite <- Zle_Qle. destruct backoffType; cbn [backoffBase].
    - lia.
    - assert (0 < 2 ^ (attempt - 1)) by (apply Z.pow_pos_nonneg; lia). nia.
    - nia. }
  assert (HB2 : (base <= Double.pow2 53)%Q).
  { unfold base. rewrite pow2_Z by lia. rewrite <- Zle_Qle. exact Hb. }
  assert (Hres : result = Double.min (Double.add (Double.Fin base)
                                        (Double.mul (Double.Fin base) (Double.Fin j)))
                            (Double.ofZ maxDelayMs)).
  { unfold result, calculateBackoff.
    rewrite (base_is_double backoffType attempt initialDelayMs Ha Hi Hb).
    fold base. fold (jitterFactor (Double.Fin r)). rewrite Hj. reflexivity. }
  assert (Ht : (0 < tenthQ)%Q) by reflexivity.
  assert (Ht10 : ((1 # 10) <= tenthQ)%Q) by (vm_compute; discriminate).
  assert (Ht20 : (fifthQ <= (2 # 10) * (1 + ulp))%Q) by (vm_compute; discriminate).
  assert (Hp53 : (Double.pow2 53 <= Double.pow2 1000)%Q) by (apply pow2_le; lia).
  assert (Hp1000 : (Double.pow2 1000 * 4 <= Double.pow2 1023)%Q).
  { change 4%Q with (Double.pow2 2). rewrite <- pow2_add. apply pow2_le. lia. }
  assert (Hpm : (Double.pow2 (-1022) <= 1 # 10)%Q).
  { apply Qle_trans with (Double.pow2 (-4)); [apply pow2_le; lia | vm_compute; discriminate]. }
  assert (Hu : (0 < ulp)%Q) by reflexivity.
  assert (Hu8 : (ulp <= 1 # 8)%Q) by (vm_compute; discriminate).
  destruct (round_relative (base * j)) as (g & Hg & Hg1 & Hg2).
  { apply Qle_trans with (1 # 10)%Q; [exact Hpm | nra]. }
  { apply Qle_trans with (Double.pow2 1000 * 4)%Q; [| exact Hp1000].
    pose proof (pow2_pos 1000). nra. }
  destruct (round_relative (base + g)) as (d & Hd & Hd1 & Hd2).
  { apply Qle_trans with (1 # 10)%Q; [exact Hpm | nra]. }
  { apply Qle_trans with (Double.pow2 1000 * 4)%Q; [| exact Hp1000].
    pose proof (pow2_pos 1000). nra. }
  destruct (jitter_arith base j g d ulp ltac:(lra) Hu Hu8 ltac:(lra) ltac:(lra)
              Hg1 Hg2 Hd1 Hd2) as [Hlow Hupp].
  assert (H2u : ((2 # 1) * ulp == 1 # 2 ^ 52)%Q) by reflexivity.
  assert (H4u : ((4 # 1) * ulp == 1 # 2 ^ 51)%Q) by reflexivity.
  rewrite H2u in Hlow. rewrite H4u in Hupp.
  assert (Hsum : Double.add (Double.Fin base)
                   (Double.mul (Double.Fin base) (Double.Fin j)) = Double.Fin d).
  { cbn [Double.mul]. rewrite Hg. cbn [Double.add]. exact Hd. }
  pose proof Hres as Hres'. rewrite Hsum, Hmax in Hres'. cbn [Double.min] in Hres'.
  assert (Hlow' : (inject_Z initialDelayMs * (11 # 10) * (1 - (1 # 2 ^ 52)) <= d)%Q).
  { eapply Qle_trans; [| exact Hlow].
    assert (0 <= 1 - (1 # 2 ^ 52))%Q by (vm_compute; discriminate).
    set (c := (1 - (1 # 2 ^ 52))%Q) in *. nra. }
  assert (H01 : Double.round (1 # 10) = Double.Fin tenthQ) by (vm_compute; reflexivity).
  assert (H02 : Double.round (2 # 10) = Double.Fin fifthQ) by (vm_compute; reflexivity).
  destruct (Qle_bool d (inject_Z maxDelayMs)) eqn:Hcmp.
  - apply Qle_bool_iff in Hcmp.
    exists j, d. split; [exact Hj |]. split; [exact H01 |]. split; [exact H02 |].
    split; [exact Hj1 |]. split; [exact Hj2 |]. split; [exact Hres |].
    split; [exact Hres' |]. split.
    + eapply Qle_trans; [apply Q.le_min_l | exact Hlow'].
    + apply Q.min_glb; assumption.
  - assert (Hgt : (inject_Z maxDelayMs < d)%Q).
    { apply Qnot_le_lt. intros H. apply Qle_bool_iff in H. congruence. }
    exists j, (inject_Z maxDelayMs). split; [exact Hj |]. split; [exact H01 |].
    split; [exact H02 |]. split; [exact Hj1 |]. split; [exact Hj2 |].
    split; [exact Hres |]. split; [exact Hres' |]. split.
    + apply Q.le_min_r.
    + apply Q.min_glb; [lra | apply Qle_refl].
Qed.

Lemma C5_backoff_bounds_witness :
  exists j d : Q,
    jitterFactor (Double.Fin (1 # 2)) = Double.Fin j
    /\ Double.round (1 # 10) = Double.Fin tenthQ
    /\ Double.round (2 # 10) = Double.Fin fifthQ
    /\ (tenthQ <= j)%Q /\ (j <= fifthQ)%Q
    /\ calculateBackoff exponential 2 (Double.ofZ 100) (Double.ofZ 10000)
         (Double.Fin (1 # 2))
       = Double.min (Double.add (Double.Fin (inject_Z 200))
                       (Double.mul (Double.Fin (inject_Z 200)) (Double.Fin j)))
           (Double.ofZ 10000)
    /\ calculateBackoff exponential 2 (Double.ofZ 100) (Double.ofZ 10000)
         (Double.Fin (1 # 2)) = Double.Fin d
    /\ (Qmin (inject_Z 100 * (11 # 10) * (1 - (1 # 2 ^ 52))) (inject_Z 10000) <= d)%Q
    /\ (d <= Qmin (inject_Z 200 * (12 # 10) * (1 + (1 # 2 ^ 51))) (inject_Z 10000))%Q.
Proof.
  apply (C5_backoff_bounds exponential 2 100 10000 (1 # 2)).
  - lia.
  - lia.
  - vm_compute. discriminate.
  - split; [lia | vm_compute; discriminate].
  - vm_compute. discriminate.
  - vm_compute. reflexivity.
Defined.

(** C5 as stated fails.  With [initialDelayMs = maxDelayMs = 60000], both
    within the ranges of the retry-policy schema, the cap brings the delay
    below [initialDelayMs * 1.10].  Below the cap, rounding does: with
    [initialDelayMs = 101] and a draw of 0 the delay is the double nearest
    to 111.1, which is less than 111.1 and less than the double
    [101 * 1.1].  And outside the ranges of the schema the result need not
    be a number: with [initialDelayMs = 0] and attempt 1026 the exponential
    delay is [0 * Infinity], which is NaN. *)
Lemma C5_counterexample :
  (calculateBackoff fixed 1 (Double.ofZ 60000) (Double.ofZ 60000) (Double.Fin 0)
   = Double.Fin 60000
   /\ ~ (60000 * (11 # 10) <= 60000)%Q)
  /\ (exists d z : Q,
        calculateBackoff fixed 1 (Double.ofZ 101) (Double.ofZ 60000) (Double.Fin 0)
        = Double.Fin d
        /\ (d < 101 * (11 # 10))%Q
        /\ Double.mul (Double.ofZ 101) (Double.round (11 # 10)) = Double.Fin z
        /\ (d < z)%Q)
  /\ calculateBackoff exponential 1026 (Double.ofZ 0) (Double.ofZ 60000) (Double.Fin 0)
     = Double.NaN.
Proof.
  split; [| split].
  - split; [vm_compute; reflexivity |].
    vm_compute. intros H. apply H. reflexivity.
  - eexists _, _. split; [vm_compute; reflexivity |].
    split; [vm_compute; reflexivity |].
    split; [vm_compute; reflexivity |].
    vm_compute. reflexivity.
  - vm_compute. reflexivity.
Qed.
(** ** Templates *)

Example resolve_single_raw :
  resolveExpressions variablesOnly 0 (VStr "{{ a }}") sampleContext = (VNum 1, 1%nat).
Proof. reflexivity. Qed.

Example resolve_interpolated :
  resolveExpressions variablesOnly 0 (VStr "x={{a}}, y={{ b }}, z={{c}}!") sampleContext
  = (VStr "x=1, y=two, z=[1,null]!", 3%nat).
Proof. reflexivity. Qed.

Example resolve_two :
  resolveExpressions variablesOnly 0 (VStr "{{a}} {{b}}") sampleContext
  = (VStr "{{a}} {{b}}", 1%nat).
Proof. reflexivity. Qed.

(** ** HMAC-SHA256 against known digests *)

Example round_constants :
  List.firstn 2 K256 = [0x428a2f98; 0x71374491]
  /\ List.nth 63 K256 0 = 0xc67178f2
  /\ List.length K256 = 64%nat
  /\ List.firstn 2 H0 = [0x6a09e667; 0xbb67ae85]
  /\ List.nth 7 H0 0 = 0x5be0cd19.
Proof. vm_compute. repeat split; reflexivity. Qed.

Example sha256_abc :
  sha256Hex "abc" = "ba7816bf8f01cfea414140de5dae2223b00361a396177a9cb410ff61f20015ad".
Proof. vm_compute. reflexivity. Qed.

Example sha256_empty :
  sha256Hex EmptyString = "e3b0c44298fc1c149afbf4c8996fb92427ae41e4649b934ca495991b7852b855".
Proof. vm_compute. reflexivity. Qed.

Example sha256_two_blocks :
  sha256Hex "aaaaaaaaaaaaaaaaaaaaaaaaaaaaaaaaaaaaaaaaaaaaaaaaaaaaaaaaaaaaaaaaaaaaaa"
  = "6bd5e5034855a11241f0dee8fc72850ffd9955b28347a86428b5fa19119f6ad0".
Proof. vm_compute. reflexivity. Qed.

Example hmac_fox :
  hmacSha256Hex "key" "The quick brown fox jumps over the lazy dog"
  = "f7bc83f430538424b13298e6aa6fb143ef4d59a14946175997479dbc2d1a3cd8".
Proof. vm_compute. reflexivity. Qed.

Example hmac_long_key :
  hmacSha256Hex "kkkkkkkkkkkkkkkkkkkkkkkkkkkkkkkkkkkkkkkkkkkkkkkkkkkkkkkkkkkkkkkkkkkkkk" "[1,2]"
  = "ad9daffe7ce5135639998e4d957892998d120191444766dba61018061da2b0ae".
Proof. vm_compute. reflexivity. Qed.

(** ** The run processor *)

Lemma lock_roundtrip (k : string) (w : World) :
  k ∉ locks w ->
  setLocks (fun l => l ∖ {[k]}) (setLocks (fun l => {[k]} ∪ l) w) = w.
Proof.
  intros Hk. destruct w as [wf rs xs iks js ls]. unfold setLocks; simpl in *.
  f_equal. apply set_eq. intros x.
  rewrite elem_of_difference, elem_of_union, elem_of_singleton. split.
  - intros [[Hx | Hx] Hne]; [contradiction | exact Hx].
  - intros Hx. split; [right; exact Hx |]. intros ->. contradiction.
Qed.

Lemma RunStatus_eqb_eq (a b : RunStatus) : RunStatus_eqb a b = true <-> a = b.
Proof. destruct a, b; simpl; split; intros H; try reflexivity; discriminate. Qed.

(** A worker whose registry has no handler for the type of the step throws
    before it creates the step execution, and leaves the world as it was. *)
Lemma no_handler_throws (config : Config) (env : Env)
    (handlers : StepType -> option StepHandler) (msg : ExecuteStepMessage)
    (w : World) (workflow : Workflow) (run : Run) (step : Step) :
  (LOCK_PREFIX +:+ runId msg) ∉ locks w ->
  workflows w !! workflowId msg = Some workflow ->
  runs w !! runId msg = Some run ->
  r_status run = running ->
  r_currentStepIndex run = stepIndex msg ->
  List.find (fun s => String.eqb (s_id s) (stepId msg))
    (List.filter s_enabled (wf_steps workflow)) = Some step ->
  handlers (s_type step) = None ->
  processExecuteStep config env handlers msg w
  = (Throw (newError ("No handler for step type: " +:+ StepType_name (s_type step))), w).
Proof.
  intros Hfree Hwf Hrun Hst Hidx Hstep Hnone.
  unfold processExecuteStep, bind, lock_acquire.
  destruct (decide _) as [Hyes | _]; [contradiction |].
  cbn [negb]. unfold tryFinally, underLock, bind, workflow_findById, run_findById.
  cbn [workflows setLocks]. rewrite Hwf. cbv beta iota.
  cbn [runs setLocks]. rewrite Hrun. cbv beta iota.
  rewrite Hst, Hidx, Z.eqb_refl. cbn [RunStatus_eqb negb].
  rewrite Hstep, Hnone.
  unfold throw, lock_release. f_equal. apply lock_roundtrip. exact Hfree.
Qed.

(** C10 (amended): when the run lock is held by someone else,
    [processExecuteStep] adds the unchanged message to the [execute] queue
    with a delay of 1000 ms, whatever the type of the step, and returns
    without touching runs, step executions or locks; so a message for an
    [ai] step that arrived on the [ai] queue moves to the [execute] queue.
    There it is not executed: the worker of that queue registers handlers
    for [http], [transform] and [delay] only, and when it takes the message
    with the lock free and the run still [running] at that step,
    [processExecuteStep] throws [No handler for step type: ai] before any
    step execution is created, writes nothing and enqueues nothing. *)
Theorem C10_lock_contention (config : Config) (env : Env)
    (handlers : StepType -> option StepHandler) (msg : ExecuteStepMessage) (w : World) :
  (LOCK_PREFIX +:+ runId msg) ∈ locks w ->
  let result := processExecuteStep config env handlers msg w in
  (fst result = Ok tt
   /\ jobs (snd result)
      = jobs w ++ [{| j_queue := execute; j_message := EXECUTE_STEP msg;
                      j_delay := Some (Double.Fin 1000) |}]
   /\ runs (snd result) = runs w
   /\ stepExecutions (snd result) = stepExecutions w
   /\ workflows (snd result) = workflows w
   /\ idempotencyKeys (snd result) = idempotencyKeys w
   /\ locks (snd result) = locks w)
  /\ forall (config2 : Config) (env2 : Env) (h_http h_transform h_delay : StepHandler)
       (w2 : World) (workflow : Workflow) (run : Run) (step : Step),
       (LOCK_PREFIX +:+ runId msg) ∉ locks w2 ->
       workflows w2 !! workflowId msg = Some workflow ->
       runs w2 !! runId msg = Some run ->
       r_status run = running ->
       r_currentStepIndex run = stepIndex msg ->
       List.find (fun s => String.eqb (s_id s) (stepId msg))
         (List.filter s_enabled (wf_steps workflow)) = Some step ->
       s_type step = ai ->
       processExecuteStep config2 env2 (executeWorkerHandlers h_http h_transform h_delay)
         msg w2
       = (Throw (newError "No handler for step type: ai"), w2).
Proof.
  intros Hheld result. split.
  - subst result. unfold processExecuteStep, bind, lock_acquire.
    destruct (decide ((LOCK_PREFIX +:+ runId msg) ∈ locks w)) as [_ | Hfree];
      [| contradiction].
    cbn [negb fst snd enqueue setJobs jobs runs stepExecutions workflows
         idempotencyKeys locks].
    change (Double.ofZ 1000) with (Double.Fin 1000).
    repeat split; reflexivity.
  - intros config2 env2 h_http h_transform h_delay w2 workflow run step
      Hfree Hwf Hrun Hst Hidx Hstep Hai.
    rewrite (no_handler_throws config2 env2 _ msg w2 workflow run step
               Hfree Hwf Hrun Hst Hidx Hstep); rewrite Hai; reflexivity.
Qed.

Lemma C10_lock_contention_witness :
  let result := processExecuteStep defaultConfig env0 (aiWorkerHandlers okHandler)
                  aiMsg contendedWorld in
  (LOCK_PREFIX +:+ "run1") ∈ locks contendedWorld
  /\ fst result = Ok tt
  /\ jobs (snd result)
     = jobs contendedWorld
       ++ [{| j_queue := execute; j_message := EXECUTE_STEP aiMsg;
              j_delay := Some (Double.Fin 1000) |}]
  /\ runs (snd result) = runs contendedWorld
  /\ stepExecutions (snd result) = stepExecutions contendedWorld
  /\ processExecuteStep defaultConfig env0
       (executeWorkerHandlers okHandler okHandler okHandler) aiMsg advancedWorld
     = (Throw (newError "No handler for step type: ai"), advancedWorld).
Proof.
  intros result.
  assert (Hheld : (LOCK_PREFIX +:+ runId aiMsg) ∈ locks contendedWorld)
    by (apply (bool_decide_unpack _); vm_compute; reflexivity).
  assert (Hfree : (LOCK_PREFIX +:+ runId aiMsg) ∉ locks advancedWorld)
    by (apply (bool_decide_unpack _); vm_compute; reflexivity).
  split; [exact Hheld |].
  pose proof (C10_lock_contention defaultConfig env0 (aiWorkerHandlers okHandler)
                aiMsg contendedWorld Hheld) as H.
  cbv zeta in H. destruct H as ((H1 & H2 & H3 & H4 & _) & Hlost).
  split; [exact H1 |]. split; [exact H2 |]. split; [exact H3 |]. split; [exact H4 |].
  exact (Hlost defaultConfig env0 okHandler okHandler okHandler advancedWorld
           ordersWorkflow (advancedRun msg1 fetchStep helloOutput run1) summariseStep
           Hfree eq_refl eq_refl eq_refl eq_refl eq_refl eq_refl).
Defined.

(** C10 as stated fails in its middle clause: the message for the [ai]
    step, moved to the [execute] queue by a held lock, is not processed by
    the worker of that queue.  When that worker takes it, with the lock
    free again, the call throws; no step execution is created for the step,
    nothing is enqueued, and the run stays [running] at index 1. *)
Lemma C10_counterexample :
  let moved := processExecuteStep defaultConfig env0 (aiWorkerHandlers okHandler)
                 aiMsg contendedWorld in
  let taken := processExecuteStep defaultConfig env0
                 (executeWorkerHandlers okHandler okHandler okHandler)
                 aiMsg advancedWorld in
  List.last (jobs (snd moved))
    {| j_queue := ai_queue; j_message := EXECUTE_STEP aiMsg; j_delay := None |}
  = {| j_queue := execute; j_message := EXECUTE_STEP aiMsg;
       j_delay := Some (Double.Fin 1000) |}
  /\ s_type summariseStep = ai
  /\ executeWorkerHandlers okHandler okHandler okHandler ai = None
  /\ fst taken = Throw (newError "No handler for step type: ai")
  /\ stepExecutions (snd taken) = stepExecutions advancedWorld
  /\ List.filter (fun x => String.eqb (x_stepId x) "s2") (stepExecutions (snd taken)) = []
  /\ jobs (snd taken) = jobs advancedWorld
  /\ (r_status <$> runs (snd taken) !! "run1") = Some running
  /\ (r_currentStepIndex <$> runs (snd taken) !! "run1") = Some 1.
Proof. vm_compute. repeat split; reflexivity. Qed.

Lemma underLock_stale (config : Config) (env : Env)
    (handlers : StepType -> option StepHandler) (msg : ExecuteStepMessage)
    (w : World) (workflow : Workflow) (run : Run) :
  workflows w !! workflowId msg = Some workflow ->
  runs w !! runId msg = Some run ->
  r_status run <> running \/ r_currentStepIndex run <> stepIndex msg ->
  underLock config env handlers msg w = (Ok tt, w).
Proof.
  intros Hwf Hrun Hstale.
  unfold underLock, bind, workflow_findById, run_findById.
  rewrite Hwf, Hrun.
  destruct (RunStatus_eqb (r_status run) running) eqn:Hs; cbn [negb].
  - destruct (r_currentStepIndex run =? stepIndex msg) eqn:Hi; cbn [negb].
    + exfalso. apply RunStatus_eqb_eq in Hs. apply Z.eqb_eq in Hi.
      destruct Hstale; contradiction.
    + reflexivity.
  - reflexivity.
Qed.

(** C2: with the lock acquired, a message for a run that is not [running],
    or whose [currentStepIndex] is not the message's [stepIndex], makes the
    processor return normally and leaves the whole world as it was: no run
    written, no step execution created or updated, nothing enqueued, and the
    lock released again. *)
Theorem C2_stale_message_is_dropped (config : Config) (env : Env)
    (handlers : StepType -> option StepHandler) (msg : ExecuteStepMessage)
    (w : World) (workflow : Workflow) (run : Run) :
  (LOCK_PREFIX +:+ runId msg) ∉ locks w ->
  workflows w !! workflowId msg = Some workflow ->
  runs w !! runId msg = Some run ->
  r_status run <> running \/ r_currentStepIndex run <> stepIndex msg ->
  processExecuteStep config env handlers msg w = (Ok tt, w).
Proof.
  intros Hfree Hwf Hrun Hstale.
  unfold processExecuteStep, bind, lock_acquire.
  destruct (decide ((LOCK_PREFIX +:+ runId msg) ∈ locks w)) as [Hin | _];
    [contradiction |].
  cbn [negb]. unfold tryFinally.
  rewrite (underLock_stale config env handlers msg
             (setLocks (fun l => {[LOCK_PREFIX +:+ runId msg]} ∪ l) w)
             workflow run Hwf Hrun Hstale).
  unfold lock_release. f_equal. apply lock_roundtrip. exact Hfree.
Qed.

Lemma C2_stale_message_is_dropped_witness :
  ((LOCK_PREFIX +:+ runId msg1) ∉ locks advancedWorld)
  /\ (r_currentStepIndex <$> runs advancedWorld !! "run1") = Some 1
  /\ stepIndex msg1 = 0
  /\ processExecuteStep defaultConfig env0
       (executeWorkerHandlers okHandler okHandler okHandler) msg1 advancedWorld
     = (Ok tt, advancedWorld).
Proof.
  assert (Hfree : (LOCK_PREFIX +:+ runId msg1) ∉ locks advancedWorld)
    by (apply (bool_decide_unpack _); vm_compute; reflexivity).
  assert (Hwf : workflows advancedWorld !! workflowId msg1 = Some ordersWorkflow)
    by (vm_compute; reflexivity).
  assert (Hrun : runs advancedWorld !! runId msg1
                 = Some (applyRunUpdates running
                           {| u_currentStepIndex := Some 1;
                              u_context := Some (extendedContext run1 fetchStep helloOutput);
                              u_completedAt := None; u_error := None |} run1))
    by (vm_compute; reflexivity).
  split; [exact Hfree |].
  split; [vm_compute; reflexivity |].
  split; [reflexivity |].
  apply (C2_stale_message_is_dropped defaultConfig env0
           (executeWorkerHandlers okHandler okHandler okHandler) msg1 advancedWorld
           ordersWorkflow _ Hfree Hwf Hrun).
  right. vm_compute. discriminate.
Defined.

(** *** What one call does to the table of runs *)

Lemma RunsEffect_weaken (rid : string) (next : option Z) (m m' : gmap string Run) :
  RunsEffect rid None m m' -> RunsEffect rid next m m'.
Proof.
  induction 1 as [| st u m1 _ IH Hu | st u m1 _ IH Hu | id r m1 _ IH Hid].
  - apply eff_none.
  - apply eff_status; assumption.
  - apply eff_status; assumption.
  - apply eff_insert; assumption.
Qed.

Lemma RunsEffect_index (rid : string) (next : option Z) (m m' : gmap string Run)
    (id : string) (r : Run) :
  RunsEffect rid next m m' ->
  m !! id = Some r ->
  exists r', m' !! id = Some r'
    /\ (r_currentStepIndex r' = r_currentStepIndex r
        \/ (id = rid /\ next = Some (r_currentStepIndex r'))).
Proof.
  intros Heff Hr.
  induction Heff as [| st u m1 _ IH Hu | st u m1 _ IH Hu | id' r0 m1 _ IH Hid].
  - exists r. split; [exact Hr | left; reflexivity].
  - destruct IH as (r1 & Hr1 & Hidx).
    rewrite lookup_alter. case_decide as Heq.
    + subst id. rewrite Hr1. exists (applyRunUpdates st u r1). split; [reflexivity |].
      unfold applyRunUpdates; simpl. rewrite Hu. exact Hidx.
    + exists r1. split; assumption.
  - destruct IH as (r1 & Hr1 & Hidx).
    rewrite lookup_alter. case_decide as Heq.
    + subst id. rewrite Hr1. exists (applyRunUpdates st u r1). split; [reflexivity |].
      unfold applyRunUpdates; simpl. rewrite Hu.
      destruct next as [i |]; [right; split; reflexivity | exact Hidx].
    + exists r1. split; assumption.
  - destruct IH as (r1 & Hr1 & Hidx).
    assert (id <> id') by (intros ->; congruence).
    exists r1. split; [| exact Hidx].
    rewrite lookup_insert_ne; [exact Hr1 | congruence].
Qed.

Ltac split_result :=
  repeat match goal with
         | |- context [match JSON_stringify ?v with _ => _ end] =>
             destruct (JSON_stringify v) eqn:?
         | |- context [if ?a <? ?b then _ else _] => destruct (a <? b) eqn:?
         | |- context [match nthZ ?l ?i with _ => _ end] => destruct (nthZ l i) eqn:?
         end.

Section AfterExecute.
Variables (config : Config) (env : Env) (msg : ExecuteStepMessage) (step : Step)
  (enabledSteps : list Step) (run : Run) (executionId : nat)
  (settled : value + Thrown) (finishedAt durationMs : Z).

Let body := afterExecute config msg step enabledSteps run executionId settled
              finishedAt durationMs.
Let handler := onFailure env msg step executionId finishedAt durationMs.

Lemma afterExecute_effect (w : World) :
  RunsEffect (runId msg) (Some (stepIndex msg + 1)) (runs w) (runs (snd (body w))).
Proof.
  subst body. unfold afterExecute, bind, stringifiedLength, throw, ret,
    updateStepExecution, updateStatus, enqueue.
  destruct settled as [output | error]; [| apply eff_none].
  split_result; cbn [fst snd runs setRuns setStepExecutions setJobs];
    try apply eff_none.
  - apply eff_advance; [apply eff_none | reflexivity].
  - apply eff_advance; [apply eff_none | reflexivity].
  - apply eff_status; [| reflexivity].
    apply eff_advance; [apply eff_none | reflexivity].
Qed.

Lemma afterExecute_throw (w w1 : World) (e : Thrown) :
  body w = (Throw e, w1) ->
  jobs w1 = jobs w
  /\ (runs w1 = runs w \/ retryable (classifyError e) = false).
Proof.
  subst body. unfold afterExecute, bind, stringifiedLength, throw, ret,
    updateStepExecution, updateStatus, enqueue.
  destruct settled as [output | error].
  - split_result; cbn [fst snd runs setRuns setStepExecutions setJobs];
      intros H; inversion H; subst; clear H; cbn [jobs runs setRuns setStepExecutions];
      split; try reflexivity; try (left; reflexivity).
    right. reflexivity.
  - intros H; inversion H; subst. split; [reflexivity | left; reflexivity].
Qed.

Lemma onFailure_effect (e : Thrown) (w : World) :
  fst (handler e w) = Ok tt
  /\ RunsEffect (runId msg) None (runs w) (runs (snd (handler e w))).
Proof.
  subst handler. unfold onFailure, bind, updateStepExecution, updateStatus, enqueue, ret.
  cbn [fst snd].
  destruct (retryable (classifyError e) && (attempt msg <? _));
    cbn [fst snd runs setRuns setStepExecutions setJobs].
  - split; [reflexivity | apply eff_none].
  - split; [reflexivity |]. apply eff_status; [apply eff_none | reflexivity].
Qed.

End AfterExecute.

Lemma RunsEffect_trans (rid : string) (next : option Z) (m m1 m2 : gmap string Run) :
  RunsEffect rid next m m1 -> RunsEffect rid next m1 m2 -> RunsEffect rid next m m2.
Proof.
  intros H1 H2. induction H2.
  - exact H1.
  - apply eff_status; assumption.
  - apply eff_advance; assumption.
  - apply eff_insert; assumption.
Qed.

Lemma underLock_effect (config : Config) (env : Env)
    (handlers : StepType -> option StepHandler) (msg : ExecuteStepMessage) (w : World) :
  Guarded msg w (snd (underLock config env handlers msg w)).
Proof.
  unfold Guarded, underLock, bind, workflow_findById, run_findById, throw, ret.
  destruct (workflows w !! workflowId msg) as [workflow |]; [| left; apply eff_none].
  destruct (runs w !! runId msg) as [run |] eqn:Hrun; [| left; apply eff_none].
  destruct (RunStatus_eqb (r_status run) running) eqn:Hs; cbn [negb];
    [| left; apply eff_none].
  destruct (r_currentStepIndex run =? stepIndex msg) eqn:Hi; cbn [negb];
    [| left; apply eff_none].
  apply RunStatus_eqb_eq in Hs. apply Z.eqb_eq in Hi.
  destruct (List.find _ _) as [step |]; [| left; apply eff_none].
  destruct (handlers (s_type step)) as [handler |]; [| left; apply eff_none].
  unfold createStepExecution, updateStepExecution.
  destruct (existsb _ _); [left; apply eff_none |].
  destruct (race _ _) as [settled durationMs].
  unfold tryCatch.
  match goal with
  | |- context [afterExecute ?c ?m ?s ?es ?r ?x ?st ?f ?d ?w0] =>
      pose proof (afterExecute_effect c m s es r x st f d w0) as Heff;
      destruct (afterExecute c m s es r x st f d w0) as [[[] | e] w3] eqn:Hbody
  end; cbn [fst snd runs setRuns setStepExecutions] in *.
  - right. exists run. repeat split; assumption.
  - right. exists run. repeat split; try assumption.
    eapply RunsEffect_trans; [exact Heff |].
    apply RunsEffect_weaken. apply onFailure_effect.
Qed.

Lemma processExecuteStep_effect (config : Config) (env : Env)
    (handlers : StepType -> option StepHandler) (msg : ExecuteStepMessage) (w : World) :
  Guarded msg w (snd (processExecuteStep config env handlers msg w)).
Proof.
  unfold processExecuteStep, bind, lock_acquire.
  destruct (decide _) as [Hheld | Hfree]; cbn [negb].
  - left. apply eff_none.
  - unfold tryFinally, lock_release.
    match goal with
    | |- context [underLock ?c ?e ?h ?m ?w0] =>
        pose proof (underLock_effect c e h m w0) as Heff;
        destruct (underLock c e h m w0) as [r w1]
    end.
    exact Heff.
Qed.

Lemma processStartRun_effect (now : Z) (rid wid : string) (w : World) :
  RunsEffect rid None (runs w) (runs (snd (processStartRun now rid wid w))).
Proof.
  unfold processStartRun, bind, workflow_findById, run_findById, throw, ret,
    updateStatus, enqueue.
  destruct (workflows w !! wid) as [workflow |]; [| apply eff_none].
  destruct (runs w !! rid) as [run |]; [| apply eff_none].
  cbn [fst snd]. destruct (List.filter _ _); cbn [fst snd runs setRuns setJobs].
  - apply eff_status; [| reflexivity]. apply eff_status; [apply eff_none | reflexivity].
  - apply eff_status; [apply eff_none | reflexivity].
Qed.

Lemma cancelRun_effect (now : Z) (id : string) (w : World) :
  RunsEffect id None (runs w) (runs (snd (cancelRun now id w))).
Proof.
  unfold cancelRun, bind, run_findById, ret, updateStatus.
  destruct (runs w !! id) as [run |]; [| apply eff_none].
  destruct (_ && _); cbn [fst snd runs setRuns]; [apply eff_none |].
  apply eff_status; [apply eff_none | reflexivity].
Qed.

Lemma retryRun_effect (id : string) (w : World) :
  RunsEffect id None (runs w) (runs (snd (retryRun id w))).
Proof.
  unfold retryRun, bind, run_findById, workflow_findById, ret, updateStatus, enqueue.
  destruct (runs w !! id) as [run |]; [| apply eff_none].
  destruct (negb _); cbn [fst snd runs setRuns]; [apply eff_none |].
  destruct (workflows w !! r_workflowId run); cbn [fst snd runs setRuns setJobs];
    [| apply eff_none].
  apply eff_status; [apply eff_none | reflexivity].
Qed.

Lemma setIdempotencyKey_runs (now : Z) (key rid : string) (w : World) :
  runs (snd (setIdempotencyKey now key rid w)) = runs w.
Proof.
  unfold setIdempotencyKey.
  repeat match goal with
         | |- context [match ?x with _ => _ end] => destruct x
         end; reflexivity.
Qed.

Lemma webhook_effect (env : AdmissionEnv) (req : Request) (w : World) :
  RunsEffect (adm_newRunId env) None (runs w) (runs (snd (webhook env req w))).
Proof.
  unfold webhook, bind, workflow_findBySlug. cbn [fst snd].
  destruct (snd <$> List.find _ _) as [workflow |]; [| apply eff_none].
  destruct (negb (wf_enabled workflow)); [apply eff_none |].
  assert (Hsig : forall w0, snd (verifySignature workflow req w0) = w0).
  { intros w0. unfold verifySignature, ret, throw.
    repeat match goal with
           | |- context [match ?x with _ => _ end] => destruct x
           end; reflexivity. }
  pose proof (Hsig w) as Hw.
  destruct (verifySignature workflow req w) as [[[reply |] | e] w1];
    cbn [snd] in Hw; subst w1; try apply eff_none.
  unfold admission, bind.
  assert (Hidem : forall key w0, snd (findByIdempotencyKey (adm_now env) key w0) = w0).
  { intros key w0. unfold findByIdempotencyKey.
    destruct (idempotencyKeys w0 !! key) as [[rid ex] |]; [| reflexivity].
    destruct (_ <? _); reflexivity. }
  match goal with
  | |- context [match ?lookup w with _ => _ end] =>
      assert (Hl : snd (lookup w) = w)
        by (destruct (truthy _); [apply Hidem | reflexivity]);
      destruct (lookup w) as [[[existing |] | e] w1]; cbn [snd] in Hl; subst w1
  end; try apply eff_none.
  unfold run_create, ret.
  destruct (runs w !! adm_newRunId env) eqn:Hfresh; [apply eff_none |].
  match goal with
  | |- context [match ?store ?w0 with _ => _ end] =>
      assert (Hs : runs (snd (store w0)) = runs w0)
        by (destruct (truthy _); [apply setIdempotencyKey_runs | reflexivity]);
      destruct (store w0) as [[u | e] w2]
  end.
  - cbn [fst snd] in *. unfold enqueue.
    cbn [fst snd runs setJobs]. rewrite Hs. cbn [runs setRuns].
    apply eff_insert; [apply eff_none | exact Hfresh].
  - cbn [fst snd] in *. rewrite Hs. cbn [runs setRuns].
    apply eff_insert; [apply eff_none | exact Hfresh].
Qed.

(** ** Messages of the size-limit errors *)

Lemma startsWith_occurs (p s : string) (c : ascii) :
  startsWith p s = true -> occurs c p = true -> occurs c s = true.
Proof.
  revert s. induction p as [| a p IH]; intros s Hp Hc; simpl in *.
  - discriminate.
  - destruct s as [| b s]; [discriminate |].
    destruct (Ascii.eqb a b) eqn:Hab; [| discriminate].
    apply Ascii.eqb_eq in Hab. subst b. simpl.
    destruct (Ascii.eqb c a); simpl in *; [reflexivity |].
    apply IH; assumption.
Qed.

Lemma includes_occurs (needle hay : string) (c : ascii) :
  includes needle hay = true -> occurs c needle = true -> occurs c hay = true.
Proof.
  induction hay as [| b hay IH]; intros Hi Hc; simpl in Hi.
  - rewrite orb_false_r in Hi. eapply startsWith_occurs; eassumption.
  - apply orb_true_iff in Hi. destruct Hi as [Hi | Hi].
    + eapply startsWith_occurs; eassumption.
    + simpl. rewrite (IH Hi Hc). apply orb_true_r.
Qed.

Lemma includes_absent (needle hay : string) (c : ascii) :
  occurs c needle = true -> occurs c hay = false -> includes needle hay = false.
Proof.
  intros Hn Hh. destruct (includes needle hay) eqn:Hi; [| reflexivity].
  rewrite (includes_occurs _ _ _ Hi Hn) in Hh. discriminate.
Qed.

Lemma occurs_app (c : ascii) (a b : string) :
  occurs c (a +:+ b) = occurs c a || occurs c b.
Proof.
  induction a as [| x a IH]; simpl; [reflexivity |].
  rewrite IH. apply orb_assoc.
Qed.

Ltac number_chars H :=
  unfold isNumberChar in H; simpl in H;
  repeat (apply orb_false_iff in H; let H' := fresh "Hc" in destruct H as [H' H]).

Lemma occurs_string_of_uint (c : ascii) (d : Decimal.uint) :
  isNumberChar c = false -> occurs c (NilEmpty.string_of_uint d) = false.
Proof.
  intros Hc. number_chars Hc.
  induction d; simpl; try reflexivity; rewrite IHd;
    rewrite orb_false_r; assumption.
Qed.

Lemma occurs_digits (c : ascii) (n : Z) :
  isNumberChar c = false -> occurs c (Double.digits n) = false.
Proof.
  intros Hc. unfold Double.digits, NilZero.string_of_int.
  assert (Hu : forall d, occurs c (NilZero.string_of_uint d) = false).
  { intros d. unfold NilZero.string_of_uint.
    pose proof (occurs_string_of_uint c d Hc) as Hd.
    destruct d; try exact Hd.
    simpl. rewrite orb_false_r. number_chars Hc. assumption. }
  destruct (Z.to_int n) as [d | d]; [apply Hu |].
  simpl. rewrite Hu, orb_false_r. number_chars Hc. assumption.
Qed.

Lemma occurs_zeros (c : ascii) (n : nat) :
  isNumberChar c = false -> occurs c (Double.zeros n) = false.
Proof.
  intros Hc. number_chars Hc.
  induction n as [| n IH]; simpl; [reflexivity |]. rewrite IH, orb_false_r. assumption.
Qed.

Lemma occurs_substring (c : ascii) (s : string) (i l : nat) :
  occurs c s = false -> occurs c (substring i l s) = false.
Proof.
  revert i l. induction s as [| a s IH]; intros i l Hs.
  - destruct i, l; reflexivity.
  - simpl in Hs. apply orb_false_iff in Hs. destruct Hs as [Ha Hs].
    destruct i as [| i]; simpl.
    + destruct l as [| l]; simpl; [reflexivity |]. rewrite Ha. apply (IH 0%nat l Hs).
    + apply IH. exact Hs.
Qed.

Lemma occurs_positiveToString (c : ascii) (x : Q) :
  isNumberChar c = false -> occurs c (Double.positiveToString x) = false.
Proof.
  intros Hc. unfold Double.positiveToString.
  destruct (Double.shortest 17 x (Double.decimalExponent x) 1) as [s n].
  pose proof (occurs_digits c s Hc) as Hs.
  assert (Hsub : forall i l, occurs c (substring i l (Double.digits s)) = false).
  { intros i l. apply occurs_substring. exact Hs. }
  assert (He : occurs c ((if 0 <=? n - 1 then "e+" else "e-")
                         +:+ Double.digits (Z.abs (n - 1))) = false).
  { rewrite occurs_app, (occurs_digits c _ Hc), orb_false_r.
    pose proof Hc as Hc'. number_chars Hc'. destruct (0 <=? n - 1); simpl.
    all: repeat (apply orb_false_iff; split); try assumption; reflexivity. }
  pose proof Hc as Hc'. number_chars Hc'.
  repeat match goal with
         | |- context [if ?b then _ else _] => destruct b
         end;
    rewrite ?occurs_app, ?Hs, ?Hsub, ?He, ?(occurs_zeros c _ Hc); simpl;
    repeat (apply orb_false_iff; split); try assumption; try reflexivity.
  all: apply occurs_digits; exact Hc.
Qed.

Lemma occurs_toString (c : ascii) (a : Double.double) :
  isNumberChar c = false -> occurs c (Double.toString a) = false.
Proof.
  intros Hc. destruct a as [x | | |]; cbn [Double.toString].
  - destruct (Double.isZero x).
    + number_chars Hc. simpl. rewrite orb_false_r. assumption.
    + destruct (Qle_bool 0 x); [apply occurs_positiveToString; exact Hc |].
      rewrite occurs_app, (occurs_positiveToString c _ Hc), orb_false_r.
      number_chars Hc. simpl. rewrite orb_false_r. assumption.
  - pose proof Hc as Hc'. number_chars Hc'. simpl.
    repeat (apply orb_false_iff; split); try assumption; reflexivity.
  - pose proof Hc as Hc'. number_chars Hc'. simpl.
    repeat (apply orb_false_iff; split); try assumption; reflexivity.
  - pose proof Hc as Hc'. number_chars Hc'. simpl.
    repeat (apply orb_false_iff; split); try assumption; reflexivity.
Qed.

Lemma occurs_Z_to_string (c : ascii) (n : Z) :
  isNumberChar c = false -> occurs c (Z_to_string n) = false.
Proof. intros Hc. apply occurs_toString. exact Hc. Qed.

(** An [Error] whose message is a fixed text around a number, with no
    capital E, no k and no m in the text, is classified as unknown. *)
Lemma classifyError_limit_message (before after : string) (n : Z) :
  occurs "E" (before +:+ after) = false ->
  occurs "k" (before +:+ after) = false ->
  occurs "m" (before +:+ after) = false ->
  classifyError (newError (before +:+ Z_to_string n +:+ after))
  = unknownError (before +:+ Z_to_string n +:+ after).
Proof.
  intros HE Hk Hm.
  rewrite occurs_app in HE, Hk, Hm.
  apply orb_false_iff in HE, Hk, Hm.
  destruct HE as [HE1 HE2], Hk as [Hk1 Hk2], Hm as [Hm1 Hm2].
  assert (Habs : forall c, isNumberChar c = false ->
                           occurs c before = false -> occurs c after = false ->
                           occurs c (before +:+ Z_to_string n +:+ after) = false).
  { intros c Hc Hb Ha. rewrite !occurs_app, Hb, Ha, (occurs_Z_to_string c n Hc).
    reflexivity. }
  unfold newError, classifyError.
  rewrite (includes_absent "ECONNREFUSED" _ "E" eq_refl (Habs "E"%char eq_refl HE1 HE2)).
  rewrite (includes_absent "ENOTFOUND" _ "E" eq_refl (Habs "E"%char eq_refl HE1 HE2)).
  rewrite (includes_absent "ETIMEDOUT" _ "E" eq_refl (Habs "E"%char eq_refl HE1 HE2)).
  rewrite (includes_absent "ECONNRESET" _ "E" eq_refl (Habs "E"%char eq_refl HE1 HE2)).
  rewrite (includes_absent "socket hang up" _ "k" eq_refl (Habs "k"%char eq_refl Hk1 Hk2)).
  rewrite (includes_absent "timeout" _ "m" eq_refl (Habs "m"%char eq_refl Hm1 Hm2)).
  reflexivity.
Qed.

(** ** Running the model on the sample deployment *)

Example sample_success :
  let w := snd (processExecuteStep defaultConfig env0
                  (executeWorkerHandlers okHandler okHandler okHandler) msg1 world0) in
  (r_currentStepIndex <$> runs w !! "run1") = Some 1
  /\ jobs w = [{| j_queue := ai_queue;
                  j_message := EXECUTE_STEP {| runId := "run1"; workflowId := "wf1";
                                               stepIndex := 1; stepId := "s2";
                                               attempt := 1 |};
                  j_delay := None |}]
  /\ List.map x_status (stepExecutions w) = [exec_completed]
  /\ locks w = ∅.
Proof. vm_compute. repeat split; reflexivity. Qed.

Example sample_retry :
  let w := snd (processExecuteStep defaultConfig env0
                  (executeWorkerHandlers (failingHandler serverError) okHandler okHandler)
                  msg1 world0) in
  runs w !! "run1" = Some run1
  /\ List.map j_message (jobs w)
     = [EXECUTE_STEP {| runId := "run1"; workflowId := "wf1"; stepIndex := 0;
                        stepId := "s1"; attempt := 2 |}]
  /\ List.map x_status (stepExecutions w) = [exec_failed].
Proof. vm_compute. repeat split; reflexivity. Qed.

Example sample_not_found :
  let w := snd (processExecuteStep defaultConfig env0
                  (executeWorkerHandlers (failingHandler notFound) okHandler okHandler)
                  msg1 world0) in
  (r_status <$> runs w !! "run1") = Some failed
  /\ jobs w = []
  /\ List.map x_status (stepExecutions w) = [exec_failed].
Proof. vm_compute. repeat split; reflexivity. Qed.

(** A message for the [ai] step that lock contention moved to the [execute]
    queue reaches the worker of that queue, which has no handler for it. *)
Example sample_ai_on_execute_worker :
  let aiMsg := {| runId := "run1"; workflowId := "wf1"; stepIndex := 1;
                  stepId := "s2"; attempt := 1 |} in
  let result := processExecuteStep defaultConfig env0
                  (executeWorkerHandlers okHandler okHandler okHandler)
                  aiMsg advancedWorld in
  fst result = Throw (newError "No handler for step type: ai")
  /\ snd result = advancedWorld.
Proof. vm_compute. split; reflexivity. Qed.

Example sample_webhook_compact :
  statusOf (fst (webhook admission0 compactRequest world0)) = 202.
Proof. vm_compute. reflexivity. Qed.

(** ** Monotonicity of [currentStepIndex] *)

Lemma perform_index (op : Operation) (w : World) (id : string) (r : Run) :
  runs w !! id = Some r ->
  exists r1,
    runs (perform op w) !! id = Some r1
    /\ (r_currentStepIndex r1 = r_currentStepIndex r
        \/ exists config env handlers msg,
             op = OpExecuteStep config env handlers msg
             /\ runId msg = id
             /\ r_status r = running
             /\ r_currentStepIndex r = stepIndex msg
             /\ r_currentStepIndex r1 = stepIndex msg + 1).
Proof.
  intros Hr.
  assert (Hquiet : forall rid,
             RunsEffect rid None (runs w) (runs (perform op w)) ->
             exists r1, runs (perform op w) !! id = Some r1
                        /\ r_currentStepIndex r1 = r_currentStepIndex r).
  { intros rid Heff.
    destruct (RunsEffect_index _ _ _ _ _ _ Heff Hr) as (r1 & Hr1 & [Hsame | [_ Habs]]).
    - exists r1. split; assumption.
    - discriminate Habs. }
  destruct op as [now rid wid | config env handlers msg | now rid | rid | env req].
  - destruct (Hquiet rid (processStartRun_effect now rid wid w)) as (r1 & ? & ?).
    exists r1. split; [assumption | left; assumption].
  - destruct (processExecuteStep_effect config env handlers msg w)
      as [Heff | (run & Hrun & Hstatus & Hidx & Heff)].
    + destruct (Hquiet _ Heff) as (r1 & ? & ?).
      exists r1. split; [assumption | left; assumption].
    + destruct (RunsEffect_index _ _ _ _ _ _ Heff Hr) as (r1 & Hr1 & [Hsame | [Hid Hnext]]).
      * exists r1. split; [assumption | left; assumption].
      * exists r1. split; [exact Hr1 |]. right.
        exists config, env, handlers, msg.
        subst id. cbn [perform] in Hr1. rewrite Hrun in Hr. inversion Hr; subst run.
        inversion Hnext as [Hn].
        repeat split; try assumption; try reflexivity.
  - destruct (Hquiet rid (cancelRun_effect now rid w)) as (r1 & ? & ?).
    exists r1. split; [assumption | left; assumption].
  - destruct (Hquiet rid (retryRun_effect rid w)) as (r1 & ? & ?).
    exists r1. split; [assumption | left; assumption].
  - destruct (Hquiet _ (webhook_effect env req w)) as (r1 & ? & ?).
    exists r1. split; [assumption | left; assumption].
Qed.

(** C3: along every history of processor calls (start, execute-step with
    any messages, duplicated or late), cancellations, run retries and webhook
    admissions, the [currentStepIndex] of an existing run never decreases;
    and a single operation changes it only when it is [processExecuteStep]
    for a message of that run, found [running] with the stored index equal
    to [msg.stepIndex], and then to [msg.stepIndex + 1]. *)
Theorem C3_currentStepIndex_monotone (ops : list Operation) (w : World)
    (id : string) (r : Run) :
  runs w !! id = Some r ->
  (exists r', runs (performAll ops w) !! id = Some r'
              /\ r_currentStepIndex r <= r_currentStepIndex r')
  /\ (forall op, exists r1,
        runs (perform op w) !! id = Some r1
        /\ (r_currentStepIndex r1 = r_currentStepIndex r
            \/ exists config env handlers msg,
                 op = OpExecuteStep config env handlers msg
                 /\ runId msg = id
                 /\ r_status r = running
                 /\ r_currentStepIndex r = stepIndex msg
                 /\ r_currentStepIndex r1 = stepIndex msg + 1)).
Proof.
  intros Hr. split.
  - revert w r Hr. induction ops as [| op ops IH]; intros w r Hr.
    + exists r. split; [exact Hr | lia].
    + destruct (perform_index op w id r Hr) as (r1 & Hr1 & Hstep).
      destruct (IH (perform op w) r1 Hr1) as (r' & Hr' & Hle).
      exists r'. split; [exact Hr' |].
      destruct Hstep as [Hsame | (config & env & handlers & msg & _ & _ & _ & Hidx & Hnew)];
        lia.
  - intros op. apply perform_index. exact Hr.
Qed.

Lemma C3_currentStepIndex_monotone_witness :
  runs world0 !! "run1" = Some run1
  /\ (exists r', runs (performAll history world0) !! "run1" = Some r'
                 /\ r_currentStepIndex run1 <= r_currentStepIndex r').
Proof.
  assert (Hrun : runs world0 !! "run1" = Some run1) by (vm_compute; reflexivity).
  split; [exact Hrun |].
  exact (proj1 (C3_currentStepIndex_monotone history world0 "run1" run1 Hrun)).
Defined.

Example history_outcome :
  (r_currentStepIndex <$> runs (performAll history world0) !! "run1") = Some 1
  /\ (r_status <$> runs (performAll history world0) !! "run1") = Some running.
Proof. vm_compute. split; reflexivity. Qed.

(** ** The failure path *)

(** The [catch] block after any error of the inner [try]. *)
Lemma catch_after_throw (config : Config) (env : Env) (msg : ExecuteStepMessage)
    (step : Step) (enabledSteps : list Step) (run : Run) (executionId : nat)
    (settled : value + Thrown) (finishedAt durationMs : Z)
    (w w1 : World) (e : Thrown) :
  afterExecute config msg step enabledSteps run executionId settled
    finishedAt durationMs w = (Throw e, w1) ->
  let classified := classifyError e in
  let policy :=
    match s_retryPolicy step with
    | Some p => p
    | None => {| maxAttempts := 3; backoffType := exponential;
                 initialDelayMs := 1000; maxDelayMs := 60000 |}
    end in
  let result :=
    tryCatch
      (afterExecute config msg step enabledSteps run executionId settled
         finishedAt durationMs)
      (onFailure env msg step executionId finishedAt durationMs) w in
  fst result = Ok tt
  /\ if retryable classified && (attempt msg <? maxAttempts policy) then
       jobs (snd result)
       = jobs w ++ [{| j_queue := queueFor (s_type step);
                       j_message :=
                         EXECUTE_STEP {| runId := runId msg;
                                         workflowId := workflowId msg;
                                         stepIndex := stepIndex msg;
                                         stepId := stepId msg;
                                         attempt := attempt msg + 1 |};
                       j_delay :=
                         Some (calculateBackoff (backoffType policy) (attempt msg)
                                 (Double.ofZ (initialDelayMs policy))
                                 (Double.ofZ (maxDelayMs policy)) (env_random env)) |}]
       /\ runs (snd result) = runs w
     else
       jobs (snd result) = jobs w
       /\ runs (snd result)
          = alter (applyRunUpdates failed
                     {| u_currentStepIndex := None;
                        u_context := None;
                        u_completedAt := Some finishedAt;
                        u_error := Some {| re_code := code classified;
                                           re_message := message classified;
                                           re_details := details classified;
                                           re_stepId := Some (stepId msg);
                                           re_stepName := Some (s_name step) |} |})
              (runId msg) (runs w1).
Proof.
  intros Hthrow classified policy result.
  destruct (afterExecute_throw _ _ _ _ _ _ _ _ _ _ _ _ Hthrow) as [Hjobs Hruns].
  subst result. unfold tryCatch. rewrite Hthrow.
  unfold onFailure, bind, updateStepExecution, updateStatus, enqueue, ret.
  cbn [fst snd]. fold classified. change defaultRetryPolicy with
    {| maxAttempts := 3; backoffType := exponential;
       initialDelayMs := 1000; maxDelayMs := 60000 |}.
  fold policy.
  destruct (retryable classified && (attempt msg <? maxAttempts policy)) eqn:Hretry;
    cbn [fst snd jobs runs setRuns setStepExecutions setJobs].
  - split; [reflexivity |]. rewrite Hjobs. split; [reflexivity |].
    destruct Hruns as [Hruns | Hno]; [exact Hruns |].
    apply andb_true_iff in Hretry. destruct Hretry as [Hr _].
    subst classified. rewrite Hno in Hr. discriminate.
  - split; [reflexivity |]. rewrite Hjobs. split; reflexivity.
Qed.

(** The [catch] block after an error that is not retryable. *)
Lemma catch_not_retryable (config : Config) (env : Env) (msg : ExecuteStepMessage)
    (step : Step) (enabledSteps : list Step) (run : Run) (executionId : nat)
    (settled : value + Thrown) (finishedAt durationMs : Z)
    (w w1 : World) (e : Thrown) :
  afterExecute config msg step enabledSteps run executionId settled
    finishedAt durationMs w = (Throw e, w1) ->
  retryable (classifyError e) = false ->
  let result :=
    tryCatch
      (afterExecute config msg step enabledSteps run executionId settled
         finishedAt durationMs)
      (onFailure env msg step executionId finishedAt durationMs) w in
  fst result = Ok tt
  /\ jobs (snd result) = jobs w
  /\ runs (snd result)
     = alter (applyRunUpdates failed
                {| u_currentStepIndex := None;
                   u_context := None;
                   u_completedAt := Some finishedAt;
                   u_error := Some {| re_code := code (classifyError e);
                                      re_message := message (classifyError e);
                                      re_details := details (classifyError e);
                                      re_stepId := Some (stepId msg);
                                      re_stepName := Some (s_name step) |} |})
         (runId msg) (runs w1).
Proof.
  intros Hthrow Hno result.
  destruct (afterExecute_throw _ _ _ _ _ _ _ _ _ _ _ _ Hthrow) as [Hjobs _].
  subst result. unfold tryCatch. rewrite Hthrow.
  unfold onFailure, bind, updateStepExecution, updateStatus, enqueue, ret.
  cbn [fst snd]. rewrite Hno.
  cbn [andb fst snd jobs runs setRuns setStepExecutions setJobs].
  rewrite Hjobs. repeat split; reflexivity.
Qed.

(** For a message that passes every check, [processExecuteStep] is the inner
    [try]/[catch] run in [handlerStart], followed by the release of the
    lock. *)
Lemma processExecuteStep_active (config : Config) (env : Env)
    (handlers : StepType -> option StepHandler) (msg : ExecuteStepMessage)
    (w : World) (workflow : Workflow) (run : Run) (step : Step) (handler : StepHandler) :
  Active handlers msg w workflow run step handler ->
  processExecuteStep config env handlers msg w
  = tryFinally
      (tryCatch (innerTry config env msg workflow run step handler w)
                (innerCatch config env msg run step handler w))
      (lock_release (runId msg))
      (handlerStart env msg step run w).
Proof.
  intros [Hfree Hwf Hrun Hstatus Hidx Hstep Hhandler Hnew].
  unfold processExecuteStep, bind, handlerStart, lock_acquire.
  destruct (decide _) as [Hheld | _]; [contradiction |].
  cbn [negb snd]. unfold tryFinally at 1. unfold underLock, bind, workflow_findById,
    run_findById.
  cbn [workflows setLocks]. rewrite Hwf. cbv beta iota.
  cbn [runs setLocks]. rewrite Hrun. cbv beta iota.
  rewrite Hstatus, Hidx, Z.eqb_refl. cbn [RunStatus_eqb negb].
  rewrite Hstep, Hhandler.
  unfold innerTry, innerCatch, settledOf, timeoutOf, resolvedConfigOf.
  unfold createStepExecution. cbn [stepExecutions setLocks]. rewrite Hnew.
  cbv beta iota. unfold tryFinally.
  destruct (race _ _) as [settled durationMs]. cbn [fst snd].
  reflexivity.
Qed.

Lemma handlerStart_frame (env : Env) (msg : ExecuteStepMessage) (step : Step)
    (run : Run) (w : World) :
  jobs (handlerStart env msg step run w) = jobs w
  /\ runs (handlerStart env msg step run w) = runs w.
Proof.
  unfold handlerStart, updateStepExecution, createStepExecution, lock_acquire.
  destruct (decide _); cbn [snd stepExecutions setLocks];
    destruct (existsb _ _); split; reflexivity.
Qed.

Lemma release_frame {A} (body : M A) (rid : string) (w : World) :
  fst (tryFinally body (lock_release rid) w) = fst (body w)
  /\ jobs (snd (tryFinally body (lock_release rid) w)) = jobs (snd (body w))
  /\ runs (snd (tryFinally body (lock_release rid) w)) = runs (snd (body w)).
Proof.
  unfold tryFinally, lock_release. destruct (body w) as [r w1].
  repeat split; reflexivity.
Qed.

Lemma alter_found (f : Run -> Run) (id : string) (r : Run) (m : gmap string Run) :
  m !! id = Some r -> alter f id m = <[id := f r]> m.
Proof.
  intros Hr. apply map_eq. intros k.
  destruct (decide (k = id)) as [-> | Hne].
  - rewrite lookup_alter_eq, lookup_insert_eq, Hr. reflexivity.
  - rewrite lookup_alter_ne, lookup_insert_ne by congruence. reflexivity.
Qed.

Lemma RunsEffect_keeps (rid : string) (next : option Z) (m m1 : gmap string Run) :
  RunsEffect rid next m m1 ->
  forall (k : string) (x : Run), m !! k = Some x -> exists y, m1 !! k = Some y.
Proof.
  induction 1 as [| st u m1 _ IH _ | st u m1 _ IH _ | id r m1 _ IH Hfresh];
    intros k x Hk.
  - exists x. exact Hk.
  - destruct (IH k x Hk) as [y Hy]. destruct (decide (k = rid)) as [-> | Hne].
    + rewrite lookup_alter_eq, Hy. eexists. reflexivity.
    + rewrite lookup_alter_ne by congruence. exists y. exact Hy.
  - destruct (IH k x Hk) as [y Hy]. destruct (decide (k = rid)) as [-> | Hne].
    + rewrite lookup_alter_eq, Hy. eexists. reflexivity.
    + rewrite lookup_alter_ne by congruence. exists y. exact Hy.
  - destruct (IH k x Hk) as [y Hy]. destruct (decide (k = id)) as [-> | Hne].
    + congruence.
    + rewrite lookup_insert_ne by congruence. exists y. exact Hy.
Qed.

(** The failure path, with the write of the failed run as the repository
    makes it. *)
Lemma failure_path_effect (config : Config) (env : Env)
    (handlers : StepType -> option StepHandler) (msg : ExecuteStepMessage)
    (w : World) (workflow : Workflow) (run : Run) (step : Step) (handler : StepHandler)
    (e : Thrown) (w1 : World) :
  Active handlers msg w workflow run step handler ->
  innerTry config env msg workflow run step handler w (handlerStart env msg step run w)
  = (Throw e, w1) ->
  let classified := classifyError e in
  let policy :=
    match s_retryPolicy step with
    | Some p => p
    | None => {| maxAttempts := 3; backoffType := exponential;
                 initialDelayMs := 1000; maxDelayMs := 60000 |}
    end in
  let finishedAt := env_now env + snd (settledOf config env step run handler) in
  let result := processExecuteStep config env handlers msg w in
  fst result = Ok tt
  /\ if retryable classified && (attempt msg <? maxAttempts policy) then
       jobs (snd result)
       = jobs w ++ [{| j_queue := queueFor (s_type step);
                       j_message :=
                         EXECUTE_STEP {| runId := runId msg;
                                         workflowId := workflowId msg;
                                         stepIndex := stepIndex msg;
                                         stepId := stepId msg;
                                         attempt := attempt msg + 1 |};
                       j_delay :=
                         Some (calculateBackoff (backoffType policy) (attempt msg)
                                 (Double.ofZ (initialDelayMs policy))
                                 (Double.ofZ (maxDelayMs policy)) (env_random env)) |}]
       /\ runs (snd result) = runs w
     else
       jobs (snd result) = jobs w
       /\ runs (snd result)
          = alter (applyRunUpdates failed
                     {| u_currentStepIndex := None;
                        u_context := None;
                        u_completedAt := Some finishedAt;
                        u_error := Some {| re_code := code classified;
                                           re_message := message classified;
                                           re_details := details classified;
                                           re_stepId := Some (stepId msg);
                                           re_stepName := Some (s_name step) |} |})
              (runId msg) (runs w1).
Proof.
  intros Hactive Hthrow classified policy finishedAt result.
  subst result. rewrite (processExecuteStep_active config env _ _ _ _ _ _ _ Hactive).
  destruct (release_frame
              (tryCatch (innerTry config env msg workflow run step handler w)
                        (innerCatch config env msg run step handler w))
              (runId msg) (handlerStart env msg step run w)) as (Hfst & Hjobs & Hruns).
  rewrite Hfst, Hjobs, Hruns. clear Hfst Hjobs Hruns.
  destruct (handlerStart_frame env msg step run w) as [Hj0 Hr0].
  pose proof (catch_after_throw config env msg step _ run _ _ _ _ _ _ _ Hthrow) as H.
  cbv zeta in H. fold classified policy finishedAt in H.
  unfold innerTry, innerCatch. fold finishedAt.
  destruct H as [Hok Hrest]. split; [exact Hok |].
  destruct (retryable classified && (attempt msg <? maxAttempts policy)).
  - destruct Hrest as [Hj Hr]. rewrite Hj, Hr, Hj0, Hr0. split; reflexivity.
  - destruct Hrest as [Hj Hr]. rewrite Hj, Hr, Hj0. split; reflexivity.
Qed.


(** C1: when the inner [try] of [processExecuteStep] throws, the call
    returns normally and, with [policy] the step's retry policy or the
    default (3 attempts, exponential, 1000 ms, 60000 ms), it adds exactly one
    job if the classified error is retryable and [msg.attempt <
    policy.maxAttempts]: the same message with [attempt + 1], on the [ai]
    queue for an [ai] step and on the [execute] queue for every other type,
    delayed by the computed backoff; the table of runs is then as it was
    before the call, so [currentStepIndex] has not moved.  Otherwise it adds
    no job and replaces the stored run by one that differs in three
    fields: the status is [failed], [completedAt] is the time the race
    settled, and [error] is [{code, message, details, stepId, stepName}]. *)
Theorem C1_failure_path (config : Config) (env : Env)
    (handlers : StepType -> option StepHandler) (msg : ExecuteStepMessage)
    (w : World) (workflow : Workflow) (run : Run) (step : Step) (handler : StepHandler)
    (e : Thrown) (w1 : World) :
  Active handlers msg w workflow run step handler ->
  innerTry config env msg workflow run step handler w (handlerStart env msg step run w)
  = (Throw e, w1) ->
  let classified := classifyError e in
  let policy :=
    match s_retryPolicy step with
    | Some p => p
    | None => {| maxAttempts := 3; backoffType := exponential;
                 initialDelayMs := 1000; maxDelayMs := 60000 |}
    end in
  let finishedAt := env_now env + snd (settledOf config env step run handler) in
  let result := processExecuteStep config env handlers msg w in
  fst result = Ok tt
  /\ if retryable classified && (attempt msg <? maxAttempts policy) then
       jobs (snd result)
       = jobs w ++ [{| j_queue := match s_type step with
                                  | ai => ai_queue
                                  | http | transform | delay => execute
                                  end;
                       j_message :=
                         EXECUTE_STEP {| runId := runId msg;
                                         workflowId := workflowId msg;
                                         stepIndex := stepIndex msg;
                                         stepId := stepId msg;
                                         attempt := attempt msg + 1 |};
                       j_delay :=
                         Some (calculateBackoff (backoffType policy) (attempt msg)
                                 (Double.ofZ (initialDelayMs policy))
                                 (Double.ofZ (maxDelayMs policy)) (env_random env)) |}]
       /\ runs (snd result) = runs w
     else
       jobs (snd result) = jobs w
       /\ exists stored : Run,
            runs w1 !! runId msg = Some stored
            /\ runs (snd result)
               = <[runId msg :=
                     {| r_id := r_id stored;
                        r_workflowId := r_workflowId stored;
                        r_status := failed;
                        r_triggerData := r_triggerData stored;
                        r_context := r_context stored;
                        r_currentStepIndex := r_currentStepIndex stored;
                        r_startedAt := r_startedAt stored;
                        r_completedAt := Some finishedAt;
                        r_error := Some {| re_code := code classified;
                                           re_message := message classified;
                                           re_details := details classified;
                                           re_stepId := Some (stepId msg);
                                           re_stepName := Some (s_name step) |} |}]>
                   (runs w1).
Proof.
  intros Hactive Hthrow classified policy finishedAt result.
  pose proof (failure_path_effect config env handlers msg w workflow run step handler
                e w1 Hactive Hthrow) as H.
  cbv zeta in H. fold classified policy finishedAt result in H.
  destruct H as [Hok H]. split; [exact Hok |].
  destruct (retryable classified && (attempt msg <? maxAttempts policy)).
  - destruct H as [Hj Hr]. split; [| exact Hr].
    rewrite Hj. unfold queueFor. destruct (s_type step); reflexivity.
  - destruct H as [Hj Hr]. split; [exact Hj |].
    assert (Hstored : exists stored, runs w1 !! runId msg = Some stored).
    { pose proof (afterExecute_effect config msg step
                    (List.filter s_enabled (wf_steps workflow)) run
                    (List.length (stepExecutions w))
                    (fst (settledOf config env step run handler))
                    (env_now env + snd (settledOf config env step run handler))
                    (snd (settledOf config env step run handler))
                    (handlerStart env msg step run w)) as Heff.
      unfold innerTry in Hthrow. rewrite Hthrow in Heff. cbn [snd] in Heff.
      destruct (handlerStart_frame env msg step run w) as [_ Hr0].
      apply (RunsEffect_keeps _ _ _ _ Heff (runId msg) run).
      rewrite Hr0. exact (act_run _ _ _ _ _ _ _ Hactive). }
    destruct Hstored as [stored Hstored]. exists stored. split; [exact Hstored |].
    rewrite Hr. rewrite (alter_found _ _ _ _ Hstored). reflexivity.
Qed.

Lemma sample_active (h : StepHandler) :
  Active (executeWorkerHandlers h okHandler okHandler) msg1 world0
    ordersWorkflow run1 fetchStep h.
Proof.
  split; try (vm_compute; reflexivity).
  apply (bool_decide_unpack _). vm_compute. reflexivity.
Qed.

Lemma sample_active_ai (h : StepHandler) :
  Active (aiWorkerHandlers h) aiMsg advancedWorld ordersWorkflow
    (advancedRun msg1 fetchStep helloOutput run1) summariseStep h.
Proof.
  split; try (vm_compute; reflexivity).
  apply (bool_decide_unpack _). vm_compute. reflexivity.
Qed.

Lemma C1_failure_path_witness :
  (let result := processExecuteStep defaultConfig env0
                   (executeWorkerHandlers (failingHandler serverError) okHandler okHandler)
                   msg1 world0 in
   fst result = Ok tt
   /\ jobs (snd result)
      = [{| j_queue := execute;
            j_message := EXECUTE_STEP {| runId := "run1"; workflowId := "wf1";
                                         stepIndex := 0; stepId := "s1";
                                         attempt := 2 |};
            j_delay := Some (calculateBackoff exponential 1 (Double.ofZ 1000)
                               (Double.ofZ 60000) (Double.Fin (1 # 2))) |}]
   /\ runs (snd result) = runs world0)
  /\ (let result := processExecuteStep defaultConfig env0
                      (aiWorkerHandlers (failingHandler serverError))
                      aiMsg advancedWorld in
      fst result = Ok tt
      /\ jobs (snd result)
         = jobs advancedWorld
           ++ [{| j_queue := ai_queue;
                  j_message := EXECUTE_STEP {| runId := "run1"; workflowId := "wf1";
                                               stepIndex := 1; stepId := "s2";
                                               attempt := 2 |};
                  j_delay := Some (calculateBackoff linear 1 (Double.ofZ 200)
                                     (Double.ofZ 5000) (Double.Fin (1 # 2))) |}]
      /\ runs (snd result) = runs advancedWorld)
  /\ (let result := processExecuteStep defaultConfig env0
                      (executeWorkerHandlers (failingHandler notFound) okHandler okHandler)
                      msg1 world0 in
      fst result = Ok tt
      /\ jobs (snd result) = []
      /\ exists stored : Run,
           runs (handlerStart env0 msg1 fetchStep run1 world0) !! "run1" = Some stored
           /\ runs (snd result)
              = <["run1" :=
                    {| r_id := r_id stored;
                       r_workflowId := r_workflowId stored;
                       r_status := failed;
                       r_triggerData := r_triggerData stored;
                       r_context := r_context stored;
                       r_currentStepIndex := r_currentStepIndex stored;
                       r_startedAt := r_startedAt stored;
                       r_completedAt := Some 2120;
                       r_error := Some {| re_code := "HTTP_404";
                                          re_message := "Resource not found";
                                          re_details := VUndefined;
                                          re_stepId := Some "s1";
                                          re_stepName := Some "fetch" |} |}]>
                  (runs (handlerStart env0 msg1 fetchStep run1 world0))).
Proof.
  split; [| split].
  - exact (C1_failure_path defaultConfig env0 _ msg1 world0 ordersWorkflow run1 fetchStep
             (failingHandler serverError) serverError _
             (sample_active (failingHandler serverError)) eq_refl).
  - exact (C1_failure_path defaultConfig env0 _ aiMsg advancedWorld ordersWorkflow
             (advancedRun msg1 fetchStep helloOutput run1) summariseStep
             (failingHandler serverError) serverError _
             (sample_active_ai (failingHandler serverError)) eq_refl).
  - exact (C1_failure_path defaultConfig env0 _ msg1 world0 ordersWorkflow run1 fetchStep
             (failingHandler notFound) notFound _
             (sample_active (failingHandler notFound)) eq_refl).
Defined.

(** ** Size limits *)

Section SizeLimits.
Variables (config : Config) (msg : ExecuteStepMessage) (step : Step)
  (enabledSteps : list Step) (run : Run) (executionId : nat)
  (output : value) (finishedAt durationMs : Z) (text ctext : string).

Hypothesis Htext : JSON_stringify output = Some text.
Hypothesis Hctext : JSON_stringify (contextJson (extendedContext run step output)) = Some ctext.

Lemma afterExecute_output_too_large (w : World) :
  MAX_STEP_OUTPUT_BYTES config < Z.of_nat (String.length text) ->
  afterExecute config msg step enabledSteps run executionId (inl output)
    finishedAt durationMs w
  = (Throw (newError ("Step output exceeds "
                      +:+ Z_to_string (MAX_STEP_OUTPUT_BYTES config) +:+ " bytes")), w).
Proof using Htext.
  intros Hbig. unfold afterExecute, bind, stringifiedLength.
  rewrite Htext. unfold ret at 1. cbv beta iota.
  apply Z.ltb_lt in Hbig. rewrite Hbig. reflexivity.
Qed.

Lemma afterExecute_context_too_large (w : World) :
  ~ MAX_STEP_OUTPUT_BYTES config < Z.of_nat (String.length text) ->
  MAX_CONTEXT_SIZE_BYTES config < Z.of_nat (String.length ctext) ->
  exists w1,
    afterExecute config msg step enabledSteps run executionId (inl output)
      finishedAt durationMs w
    = (Throw (newError ("Context exceeds "
                        +:+ Z_to_string (MAX_CONTEXT_SIZE_BYTES config) +:+ " bytes")), w1)
    /\ runs w1 = runs w.
Proof using Htext Hctext.
  intros Hsmall Hbig. unfold afterExecute, bind, stringifiedLength.
  rewrite Htext. unfold ret at 1. cbv beta iota.
  apply Z.ltb_nlt in Hsmall. rewrite Hsmall.
  unfold updateStepExecution at 1. cbv beta iota.
  unfold extendedContext in Hctext. rewrite Hctext. unfold ret at 1. cbv beta iota.
  apply Z.ltb_lt in Hbig. rewrite Hbig.
  eexists. split; reflexivity.
Qed.

End SizeLimits.

(** C4 (amended): when the handler's output, once serialised, is longer
    than [MAX_STEP_OUTPUT_BYTES], or the serialised extended context longer
    than [MAX_CONTEXT_SIZE_BYTES], the inner [try] throws a plain [Error],
    which is classified FATAL with code [UNKNOWN_ERROR], hence not
    retryable; [processExecuteStep] enqueues nothing and writes the run as
    [failed], whatever the retry policy of the step. *)
Theorem C4_size_limit_is_fatal (config : Config) (env : Env)
    (handlers : StepType -> option StepHandler) (msg : ExecuteStepMessage)
    (w : World) (workflow : Workflow) (run : Run) (step : Step) (handler : StepHandler)
    (output : value) (text ctext : string) :
  Active handlers msg w workflow run step handler ->
  fst (settledOf config env step run handler) = inl output ->
  JSON_stringify output = Some text ->
  JSON_stringify (contextJson (extendedContext run step output)) = Some ctext ->
  MAX_STEP_OUTPUT_BYTES config < Z.of_nat (String.length text)
  \/ MAX_CONTEXT_SIZE_BYTES config < Z.of_nat (String.length ctext) ->
  exists (e : Thrown) (w1 : World),
    innerTry config env msg workflow run step handler w (handlerStart env msg step run w)
    = (Throw e, w1)
    /\ category (classifyError e) = FATAL
    /\ code (classifyError e) = "UNKNOWN_ERROR"
    /\ retryable (classifyError e) = false
    /\ let result := processExecuteStep config env handlers msg w in
       fst result = Ok tt
       /\ jobs (snd result) = jobs w
       /\ runs (snd result)
          = alter (applyRunUpdates failed
                     {| u_currentStepIndex := None;
                        u_context := None;
                        u_completedAt :=
                          Some (env_now env + snd (settledOf config env step run handler));
                        u_error := Some {| re_code := "UNKNOWN_ERROR";
                                           re_message := message (classifyError e);
                                           re_details := VUndefined;
                                           re_stepId := Some (stepId msg);
                                           re_stepName := Some (s_name step) |} |})
              (runId msg) (runs w).
Proof.
  intros Hactive Hsettled Htext Hctext Hbig.
  destruct (handlerStart_frame env msg step run w) as [Hj0 Hr0].
  assert (Hthrow : exists before n w1,
             innerTry config env msg workflow run step handler w
               (handlerStart env msg step run w)
             = (Throw (newError (before +:+ Z_to_string n +:+ " bytes")), w1)
             /\ runs w1 = runs w
             /\ (before = "Step output exceeds " \/ before = "Context exceeds ")).
  { unfold innerTry. rewrite Hsettled.
    destruct (Z_lt_dec (MAX_STEP_OUTPUT_BYTES config) (Z.of_nat (String.length text)))
      as [Hout | Hout].
    - exists "Step output exceeds ", (MAX_STEP_OUTPUT_BYTES config),
        (handlerStart env msg step run w).
      split; [| split; [exact Hr0 | left; reflexivity]].
      eapply afterExecute_output_too_large; eassumption.
    - destruct Hbig as [Hbig | Hbig]; [contradiction |].
      destruct (afterExecute_context_too_large config msg step
                  (List.filter s_enabled (wf_steps workflow)) run
                  (List.length (stepExecutions w)) output
                  (env_now env + snd (settledOf config env step run handler))
                  (snd (settledOf config env step run handler))
                  text ctext Htext Hctext
                  (handlerStart env msg step run w) Hout Hbig) as (w1 & Heq & Hruns).
      exists "Context exceeds ", (MAX_CONTEXT_SIZE_BYTES config), w1.
      split; [exact Heq | split; [congruence | right; reflexivity]]. }
  destruct Hthrow as (before & n & w1 & Heq & Hruns & Hbefore).
  assert (Hclass : classifyError (newError (before +:+ Z_to_string n +:+ " bytes"))
                   = unknownError (before +:+ Z_to_string n +:+ " bytes")).
  { destruct Hbefore; subst before; apply classifyError_limit_message; reflexivity. }
  exists (newError (before +:+ Z_to_string n +:+ " bytes")), w1.
  split; [exact Heq |].
  rewrite Hclass. cbn [category code retryable message unknownError].
  repeat split; try reflexivity.
  all: rewrite (processExecuteStep_active config env _ _ _ _ _ _ _ Hactive).
  all: destruct (release_frame
              (tryCatch (innerTry config env msg workflow run step handler w)
                        (innerCatch config env msg run step handler w))
              (runId msg) (handlerStart env msg step run w)) as (Hfst & Hjobs & Hrn).
  all: rewrite ?Hfst, ?Hjobs, ?Hrn.
  all: pose proof (catch_not_retryable config env msg step _ run _ _ _ _ _ _ _ Heq) as H.
  all: rewrite Hclass in H; cbn [retryable code message details unknownError] in H.
  all: specialize (H eq_refl); cbv zeta in H; rewrite Hruns in H.
  all: unfold innerTry, innerCatch.
  - apply H.
  - rewrite <- Hj0. apply H.
  - apply H.
Qed.

Lemma C4_size_limit_is_fatal_witness :
  exists (e : Thrown) (w1 : World),
    innerTry tinyConfig env0 msg1 ordersWorkflow run1 fetchStep okHandler world0
      (handlerStart env0 msg1 fetchStep run1 world0) = (Throw e, w1)
    /\ category (classifyError e) = FATAL
    /\ code (classifyError e) = "UNKNOWN_ERROR"
    /\ retryable (classifyError e) = false
    /\ let result := processExecuteStep tinyConfig env0
                       (executeWorkerHandlers okHandler okHandler okHandler) msg1 world0 in
       fst result = Ok tt
       /\ jobs (snd result) = jobs world0
       /\ runs (snd result)
          = alter (applyRunUpdates failed
                     {| u_currentStepIndex := None;
                        u_context := None;
                        u_completedAt := Some (2000 + 35);
                        u_error := Some {| re_code := "UNKNOWN_ERROR";
                                           re_message := message (classifyError e);
                                           re_details := VUndefined;
                                           re_stepId := Some "s1";
                                           re_stepName := Some "fetch" |} |})
              "run1" (runs world0).
Proof.
  assert (H1 : JSON_stringify helloOutput = Some (textOf helloOutput))
    by (vm_compute; reflexivity).
  assert (H2 : JSON_stringify (contextJson (extendedContext run1 fetchStep helloOutput))
               = Some (textOf (contextJson (extendedContext run1 fetchStep helloOutput))))
    by (vm_compute; reflexivity).
  assert (H3 : MAX_STEP_OUTPUT_BYTES tinyConfig < Z.of_nat (String.length (textOf helloOutput))
               \/ MAX_CONTEXT_SIZE_BYTES tinyConfig
                  < Z.of_nat (String.length
                                (textOf (contextJson
                                           (extendedContext run1 fetchStep helloOutput)))))
    by (left; vm_compute; reflexivity).
  exact (C4_size_limit_is_fatal tinyConfig env0 _ msg1 world0 ordersWorkflow run1
           fetchStep okHandler helloOutput _ _ (sample_active okHandler) eq_refl H1 H2 H3).
Defined.

(** C4 as stated fails: with the default limits, a handler output that
    serialises to 280001 characters makes the step fail with an error of
    category FATAL, not VALIDATION. *)
Lemma C4_counterexample :
  Z.of_nat (String.length (textOf bigOutput)) = 280001
  /\ MAX_STEP_OUTPUT_BYTES defaultConfig = 262144
  /\ exists e w1,
       innerTry defaultConfig env0 msg1 ordersWorkflow run1 fetchStep bigHandler world0
         (handlerStart env0 msg1 fetchStep run1 world0) = (Throw e, w1)
       /\ category (classifyError e) = FATAL
       /\ category (classifyError e) <> VALIDATION.
Proof.
  split; [vm_compute; reflexivity |]. split; [reflexivity |].
  exists (newError "Step output exceeds 262144 bytes"),
    (handlerStart env0 msg1 fetchStep run1 world0).
  split; [vm_compute; reflexivity |].
  split; [vm_compute; reflexivity | vm_compute; discriminate].
Qed.

(** ** Webhook admission *)

Lemma truthy_Some (secret : string) :
  secret <> EmptyString -> truthy (Some secret) = Some secret.
Proof. destruct secret; [congruence | reflexivity]. Qed.

Lemma admission_status (env : AdmissionEnv) (workflow : Workflow) (req : Request) (w : World) :
  statusOf (fst (admission env workflow req w)) = 200
  \/ statusOf (fst (admission env workflow req w)) = 202
  \/ statusOf (fst (admission env workflow req w)) = 500.
Proof.
  unfold admission, bind.
  match goal with
  | |- context [match ?lookup w with _ => _ end] =>
      destruct (lookup w) as [[[existing |] | e] w1]
  end; cbn [fst statusOf status ret]; auto.
  unfold run_create.
  destruct (runs w1 !! adm_newRunId env); cbn [fst statusOf]; auto.
  match goal with
  | |- context [match ?store ?w0 with _ => _ end] =>
      destruct (store w0) as [[u | e] w2]
  end; cbn [fst statusOf status enqueue ret]; auto.
Qed.

(** C9 (amended): for an enabled workflow with a non-empty secret and a
    request body that serialises, the answer is 401 exactly when the
    [x-webhook-signature] header is missing or is not ["sha256="] followed by
    the lowercase hex HMAC-SHA256, under the secret, of [JSON.stringify] of
    the parsed body; with a matching header the route continues with the
    idempotency check and the creation of the run.  The comparison is the
    string inequality of the language. *)
Theorem C9_signature_check (env : AdmissionEnv) (req : Request) (w : World)
    (workflow : Workflow) (secret bodyString : string) :
  workflow_findBySlug (req_slug req) w = (Ok (Some workflow), w) ->
  wf_enabled workflow = true ->
  wf_webhookSecret workflow = Some secret ->
  secret <> EmptyString ->
  JSON_stringify (req_body req) = Some bodyString ->
  let expected := "sha256=" +:+ hmacSha256Hex secret bodyString in
  let signature := header "x-webhook-signature" (req_headers req) in
  (statusOf (fst (webhook env req w)) = 401 <-> signature <> Some expected)
  /\ (signature = Some expected -> webhook env req w = admission env workflow req w).
Proof.
  intros Hfind Henabled Hsecret Hne Hbody expected signature.
  assert (Hexp : expected <> EmptyString) by (subst expected; discriminate).
  unfold webhook, bind. rewrite Hfind, Henabled. cbn [negb].
  unfold verifySignature. rewrite Hsecret, (truthy_Some secret Hne).
  fold signature.
  destruct signature as [sig |] eqn:Hsig.
  - destruct sig as [| c sig'].
    + cbn [truthy ret fst statusOf status]. split.
      * split; [intros _; congruence | reflexivity].
      * intros Heq. exfalso. apply Hexp. congruence.
    + cbn [truthy]. rewrite Hbody. fold expected.
      destruct (String.eqb (String c sig') expected) eqn:Heqb; cbn [negb ret].
      * apply String.eqb_eq in Heqb. rewrite Heqb. split.
        -- split; [| intros Hneq; congruence].
           intros H401.
           destruct (admission_status env workflow req w) as [H | [H | H]]; lia.
        -- intros _. reflexivity.
      * apply String.eqb_neq in Heqb. cbn [fst statusOf status]. split.
        -- split; [intros _; congruence | reflexivity].
        -- intros Heq. congruence.
  - cbn [truthy ret fst statusOf status]. split.
    + split; [intros _; discriminate | reflexivity].
    + discriminate.
Qed.

Lemma C9_signature_check_witness :
  let expected := "sha256=" +:+ hmacSha256Hex "s3cret" "[1,2]" in
  let signature := header "x-webhook-signature" (req_headers compactRequest) in
  (statusOf (fst (webhook admission0 compactRequest world0)) = 401
   <-> signature <> Some expected)
  /\ (signature = Some expected ->
      webhook admission0 compactRequest world0
      = admission admission0 ordersWorkflow compactRequest world0).
Proof.
  assert (H1 : workflow_findBySlug (req_slug compactRequest) world0
               = (Ok (Some ordersWorkflow), world0)) by (vm_compute; reflexivity).
  assert (H2 : "s3cret" <> EmptyString) by discriminate.
  assert (H3 : JSON_stringify (req_body compactRequest) = Some "[1,2]")
    by (vm_compute; reflexivity).
  exact (C9_signature_check admission0 compactRequest world0 ordersWorkflow
           "s3cret" "[1,2]" H1 eq_refl eq_refl H2 H3).
Defined.

(** C9 as stated fails: the payload ["[1, 2]"] is signed correctly over the
    bytes that were sent, yet the route answers 401, because it signs the
    re-serialised body ["[1,2]"]. *)
Lemma C9_counterexample :
  header "x-webhook-signature" (req_headers spacedRequest)
  = Some ("sha256=" +:+ hmacSha256Hex "s3cret" (req_rawBody spacedRequest))
  /\ JSON_stringify (req_body spacedRequest) = Some "[1,2]"
  /\ req_rawBody spacedRequest = "[1, 2]"
  /\ statusOf (fst (webhook admission0 spacedRequest world0)) = 401.
Proof. vm_compute. repeat split; reflexivity. Qed.

(** The text that is signed prints numbers as the language does. *)
Example signed_text_of_numbers :
  JSON_stringify (VArr [VNum (10 ^ 21); VNum (10 ^ 21 - 1); VNum 123456789012345680000;
                        VFrac (3 # 2); VFrac (1 # 10); VFrac (- (1 # 10000000));
                        VNum (2 ^ 53 + 1); VNum (2 ^ 1024); VNum 0; VNum (-7)])
  = Some "[1e+21,1e+21,123456789012345680000,1.5,0.1,-1e-7,9007199254740992,null,0,-7]".
Proof. vm_compute. reflexivity. Qed.

(** ** Templates: the whole-string match *)

Lemma string_length_app (a b : string) :
  String.length (a +:+ b) = (String.length a + String.length b)%nat.
Proof. induction a as [| c a IH]; simpl; [reflexivity | rewrite IH; reflexivity]. Qed.

Lemma substring_whole (s : string) : substring 0 (String.length s) s = s.
Proof. induction s as [| c s IH]; simpl; [reflexivity | rewrite IH; reflexivity]. Qed.

Lemma substring_prefix (a b : string) : substring 0 (String.length a) (a +:+ b) = a.
Proof.
  induction a as [| c a IH]; simpl.
  - destruct b; reflexivity.
  - rewrite IH. reflexivity.
Qed.

Lemma substring_skip (a b : string) (m : nat) :
  substring (String.length a) m (a +:+ b) = substring 0 m b.
Proof. induction a as [| c a IH]; simpl; [reflexivity | exact IH]. Qed.

(** Every string made of two opening braces, a non-empty text without line
    terminators, and two closing braces matches the whole-string pattern,
    and the captured group is that text, whatever braces it contains. *)
Lemma singleExprMatch_wrapped (g : string) :
  g <> EmptyString ->
  forallb_string (fun c => negb (isLineTerminator c)) g = true ->
  singleExprMatch ("{{" +:+ g +:+ "}}") = Some g.
Proof.
  intros Hne Hlt. unfold singleExprMatch.
  assert (Hlen : String.length ("{{" +:+ g +:+ "}}") = (String.length g + 4)%nat).
  { rewrite !string_length_app. simpl. lia. }
  rewrite Hlen.
  assert (Hpos : (1 <= String.length g)%nat).
  { destruct g; [congruence | simpl; lia]. }
  assert (H5 : (5 <=? String.length g + 4)%nat = true) by (apply Nat.leb_le; lia).
  rewrite H5.
  replace (String.length g + 4 - 4)%nat with (String.length g) by lia.
  assert (Hmid : substring 2 (String.length g) ("{{" +:+ g +:+ "}}") = g).
  { change 2%nat with (String.length "{{").
    rewrite substring_skip. apply substring_prefix. }
  rewrite Hmid, Hlt.
  assert (Hend : slice_from (String.length g + 4 - 2) ("{{" +:+ g +:+ "}}") = "}}").
  { unfold slice_from. rewrite Hlen.
    replace (String.length g + 4 - 2)%nat with (String.length ("{{" +:+ g)) 
      by (rewrite string_length_app; simpl; lia).
    replace ("{{" +:+ g +:+ "}}") with (("{{" +:+ g) +:+ "}}") by reflexivity.
    rewrite substring_skip.
    replace (String.length g + 4 - String.length ("{{" +:+ g))%nat with 2%nat
      by (rewrite string_length_app; simpl; lia).
    reflexivity. }
  rewrite Hend. reflexivity.
Qed.

Lemma resolveStringTemplate_wrapped (ev : Evaluator) (k : nat) (g : string)
    (context : ExecutionContext) :
  g <> EmptyString ->
  forallb_string (fun c => negb (isLineTerminator c)) g = true ->
  resolveStringTemplate ev k ("{{" +:+ g +:+ "}}") context
  = (evaluateExpression ev k (trim g) context, S k).
Proof.
  intros Hne Hlt. unfold resolveStringTemplate.
  rewrite (singleExprMatch_wrapped g Hne Hlt). reflexivity.
Qed.

Lemma evaluateExpression_failure (ev : Evaluator) (k : nat) (expr : string)
    (context : ExecutionContext) :
  startsWith "$" expr = false ->
  jsonata ev k expr (dataOf context) = None ->
  evaluateExpression ev k expr context = VStr ("{{" +:+ expr +:+ "}}").
Proof.
  intros Hb Hj. unfold evaluateExpression. rewrite Hb, Hj. reflexivity.
Qed.

(** C6 (the behaviour of the code where it departs from the specification):
    a template that starts with two opening braces and ends with two closing
    braces, with a non-empty text free of line terminators in between, is
    evaluated as one expression, the trimmed text between the outer braces,
    and the raw value is returned, however many placeholders the template
    contains. *)
Theorem C6_outer_braces_read_as_one (ev : Evaluator) (k : nat) (g : string)
    (context : ExecutionContext) :
  g <> EmptyString ->
  forallb_string (fun c => negb (isLineTerminator c)) g = true ->
  resolveExpressions ev k (VStr ("{{" +:+ g +:+ "}}")) context
  = (evaluateExpression ev k (trim g) context, S k).
Proof.
  intros Hne Hlt. cbn [resolveExpressions].
  apply resolveStringTemplate_wrapped; assumption.
Qed.

(** At the template ["{{a}} {{b}}"], with [a = 1] and [b = "two"]: the text
    ["a}} {{b"] is evaluated once, it is not an expression, and the template
    comes back unresolved, where interpolation gives ["1 two"]. *)
Lemma C6_outer_braces_read_as_one_witness :
  resolveExpressions variablesOnly 0 (VStr "{{a}} {{b}}") sampleContext
  = (evaluateExpression variablesOnly 0 "a}} {{b" sampleContext, 1%nat)
  /\ evaluateExpression variablesOnly 0 "a}} {{b" sampleContext = VStr "{{a}} {{b}}"
  /\ render 11 variablesOnly 0 sampleContext "{{a}} {{b}}" = "1 two"
  /\ resolveExpressions variablesOnly 0 (VStr "{{a}} and {{b}}.") sampleContext
     = (VStr "1 and two.", 2%nat).
Proof.
  split; [| split; [| split]; reflexivity].
  assert (H1 : "a}} {{b" <> EmptyString) by discriminate.
  exact (C6_outer_braces_read_as_one variablesOnly 0 "a}} {{b" sampleContext H1 eq_refl).
Defined.

(** C7 (the behaviour of the code where it departs from the specification):
    when the text between the braces of a whole-string placeholder is not a call of a built-in and
    the expression language rejects it, the result is the fragment rebuilt
    around the trimmed text: white space next to the braces is lost. *)
Theorem C7_failed_fragment_is_rebuilt (ev : Evaluator) (k : nat) (g : string)
    (context : ExecutionContext) :
  g <> EmptyString ->
  forallb_string (fun c => negb (isLineTerminator c)) g = true ->
  startsWith "$" (trim g) = false ->
  jsonata ev k (trim g) (dataOf context) = None ->
  resolveExpressions ev k (VStr ("{{" +:+ g +:+ "}}")) context
  = (VStr ("{{" +:+ trim g +:+ "}}"), S k).
Proof.
  intros Hne Hlt Hb Hj. cbn [resolveExpressions].
  rewrite (resolveStringTemplate_wrapped ev k g context Hne Hlt).
  rewrite (evaluateExpression_failure ev k (trim g) context Hb Hj). reflexivity.
Qed.

Lemma C7_failed_fragment_is_rebuilt_witness :
  resolveExpressions variablesOnly 0 (VStr "{{ bad @@ }}") sampleContext
  = (VStr "{{bad @@}}", 1%nat)
  /\ "{{bad @@}}" <> "{{ bad @@ }}"
  /\ resolveExpressions variablesOnly 0 (VStr "say {{ bad @@ }}!") sampleContext
     = (VStr "say {{bad @@}}!", 1%nat).
Proof.
  split; [| split; [discriminate | reflexivity]].
  assert (H1 : " bad @@ " <> EmptyString) by discriminate.
  exact (C7_failed_fragment_is_rebuilt variablesOnly 0 " bad @@ " sampleContext
           H1 eq_refl eq_refl eq_refl).
Defined.

(** ** Templates: interpolation *)

Lemma string_app_assoc (a b c : string) : (a +:+ b) +:+ c = a +:+ (b +:+ c).
Proof.
  induction a as [| x a IH]; [reflexivity |].
  change (String x ((a +:+ b) +:+ c) = String x (a +:+ (b +:+ c))).
  rewrite IH. reflexivity.
Qed.

Lemma slice_to_app (a b : string) : slice_to (String.length a) (a +:+ b) = a.
Proof. apply substring_prefix. Qed.

Lemma slice_from_app (a b : string) : slice_from (String.length a) (a +:+ b) = b.
Proof.
  unfold slice_from. rewrite substring_skip, string_length_app.
  replace (String.length a + String.length b - String.length a)%nat
    with (String.length b) by lia.
  apply substring_whole.
Qed.

Lemma stripPrefix_app (p s r : string) : stripPrefix p s = Some r -> s = p +:+ r.
Proof.
  revert s. induction p as [| a p IH]; intros s H; simpl in H.
  - inversion H. reflexivity.
  - destruct s as [| b s]; [discriminate |].
    destruct (Ascii.eqb a b) eqn:Hab; [| discriminate].
    apply Ascii.eqb_eq in Hab. subst b.
    change (String a s = String a (p +:+ r)). rewrite (IH s H). reflexivity.
Qed.

Lemma spanNotBrace_app (s a b : string) : spanNotBrace s = (a, b) -> s = a +:+ b.
Proof.
  revert a b. induction s as [| c s IH]; intros a b H; simpl in H.
  - inversion H. reflexivity.
  - destruct (Ascii.eqb c "}").
    + inversion H. reflexivity.
    + destruct (spanNotBrace s) as [a' b'] eqn:Hs. inversion H; subst.
      change (String c s = String c (a' +:+ b)). rewrite (IH a' b eq_refl). reflexivity.
Qed.

Lemma matchAt_app (s expr rest : string) :
  matchAt s = Some (expr, rest) -> s = ("{{" +:+ expr +:+ "}}") +:+ rest.
Proof.
  unfold matchAt. intros H.
  destruct (stripPrefix "{{" s) as [body |] eqn:Hp; [| discriminate].
  destruct (spanNotBrace body) as [e after] eqn:Hs.
  destruct e as [| c e]; [discriminate |].
  destruct (stripPrefix "}}" after) as [r |] eqn:Ha; [| discriminate].
  inversion H; subst.
  rewrite (stripPrefix_app _ _ _ Hp), (spanNotBrace_app _ _ _ Hs),
    (stripPrefix_app _ _ _ Ha).
  rewrite !string_app_assoc. reflexivity.
Qed.

Lemma findMatch_app (s before expr rest : string) :
  findMatch s = Some (before, expr, rest) ->
  s = before +:+ ("{{" +:+ expr +:+ "}}") +:+ rest.
Proof.
  revert before. induction s as [| c s IH]; intros before H; simpl in H.
  - discriminate H.
  - destruct (matchAt (String c s)) as [[e r] |] eqn:Hm.
    + inversion H; subst. rewrite (matchAt_app _ _ _ Hm). reflexivity.
    + destruct (findMatch s) as [[[b e] r] |] eqn:Hf; [| discriminate].
      inversion H; subst.
      change (String c s = String c (b +:+ ("{{" +:+ expr +:+ "}}") +:+ rest)).
      rewrite (IH b eq_refl) at 1. reflexivity.
Qed.

(** [regex.exec] finds the leftmost match, at the offset of what precedes it. *)
Lemma exec_findMatch (s : string) (index : nat) :
  exec s index
  = match findMatch s with
    | Some (before, expr, rest) =>
        Some ({| m_match := "{{" +:+ expr +:+ "}}";
                 m_expr := trim expr;
                 m_index := index + String.length before |}, rest)
    | None => None
    end.
Proof.
  revert index. induction s as [| c s IH]; intros index; simpl.
  - reflexivity.
  - destruct (matchAt (String c s)) as [[e r] |].
    + simpl. rewrite Nat.add_0_r. reflexivity.
    + rewrite IH. destruct (findMatch s) as [[[b e] r] |]; [| reflexivity].
      simpl. rewrite Nat.add_succ_r. reflexivity.
Qed.

(** The rounds of the loop are enough: more fuel finds the same matches. *)
Lemma collectMatches_enough (fuel extra : nat) (s : string) (index : nat) :
  (String.length s <= fuel)%nat ->
  collectMatches (fuel + extra) s index = collectMatches fuel s index.
Proof.
  revert s index. induction fuel as [| fuel IH]; intros s index Hlen.
  - destruct s; [| simpl in Hlen; lia].
    destruct extra; reflexivity.
  - simpl. rewrite exec_findMatch.
    destruct (findMatch s) as [[[b e] r] |] eqn:Hf; [| reflexivity].
    f_equal. apply IH.
    apply findMatch_app in Hf. rewrite Hf in Hlen.
    rewrite !string_length_app in Hlen. simpl in Hlen. lia.
Qed.

Lemma spliceAll_render (ev : Evaluator) (context : ExecutionContext) (fuel : nat) :
  forall (s scanned : string) (k : nat),
    spliceAll (collectMatches fuel s (String.length scanned))
      (evaluateAll ev k (collectMatches fuel s (String.length scanned)) context)
      (scanned +:+ s)
    = scanned +:+ render fuel ev k context s.
Proof.
  induction fuel as [| fuel IH]; intros s scanned k; [reflexivity |].
  simpl. rewrite exec_findMatch.
  destruct (findMatch s) as [[[before expr] rest] |] eqn:Hf; [| reflexivity].
  pose proof (findMatch_app _ _ _ _ Hf) as Hs.
  cbn [m_index m_match m_expr evaluateAll spliceAll].
  set (whole := "{{" +:+ expr +:+ "}}") in *.
  set (v := evaluateExpression ev k (trim expr) context).
  assert (Hnext : (String.length scanned + String.length before + String.length whole)%nat
                  = String.length ((scanned +:+ before) +:+ whole))
    by (rewrite !string_length_app; reflexivity).
  rewrite Hnext.
  assert (Ht : scanned +:+ s = ((scanned +:+ before) +:+ whole) +:+ rest)
    by (rewrite Hs, !string_app_assoc; reflexivity).
  rewrite Ht, IH.
  unfold spliceOne. cbn [m_index m_match].
  set (tail := render fuel ev (S k) context rest).
  replace (String.length scanned + String.length before)%nat
    with (String.length (scanned +:+ before)) by apply string_length_app.
  rewrite (string_app_assoc (scanned +:+ before) whole tail) at 1.
  rewrite slice_to_app.
  replace (String.length (scanned +:+ before) + String.length whole)%nat
    with (String.length ((scanned +:+ before) +:+ whole)) by apply string_length_app.
  rewrite slice_from_app.
  rewrite !string_app_assoc. reflexivity.
Qed.

(** Where the whole-string pattern does not match, [resolveStringTemplate]
    is the left-to-right interpolation: splicing from the last match to the
    first gives the same text as replacing each placeholder in turn. *)
Lemma interpolation_left_to_right (ev : Evaluator) (k : nat) (template : string)
    (context : ExecutionContext) :
  singleExprMatch template = None ->
  resolveStringTemplate ev k template context
  = (VStr (render (String.length template) ev k context template),
     (k + List.length (templateMatches template))%nat).
Proof.
  intros Hsingle. unfold resolveStringTemplate. rewrite Hsingle.
  assert (H : spliceAll (templateMatches template)
                 (evaluateAll ev k (templateMatches template) context) template
               = render (String.length template) ev k context template)
    by exact (spliceAll_render ev context (String.length template) template
                EmptyString k).
  destruct (templateMatches template) as [| m ms] eqn:Hm.
  - cbn [evaluateAll spliceAll] in H. rewrite <- H, Nat.add_0_r. reflexivity.
  - rewrite <- H. reflexivity.
Qed.

(** * Further properties of the processor *)

Lemma alter_last {A} (f : A -> A) (l : list A) (x : A) :
  alter f (List.length l) (l ++ [x]) = l ++ [f x].
Proof. induction l as [| a l IH]; [reflexivity |]. simpl. f_equal. exact IH. Qed.

Section InnerBlock.
Variables (config : Config) (env : Env) (msg : ExecuteStepMessage) (step : Step)
  (enabledSteps : list Step) (run : Run) (executionId : nat)
  (settled : value + Thrown) (finishedAt durationMs : Z).

Let block : M unit :=
  tryCatch
    (afterExecute config msg step enabledSteps run executionId settled
       finishedAt durationMs)
    (onFailure env msg step executionId finishedAt durationMs).

(** What the inner [try]/[catch] leaves alone. *)
Lemma block_frame (w : World) :
  fst (block w) = Ok tt
  /\ workflows (snd (block w)) = workflows w
  /\ idempotencyKeys (snd (block w)) = idempotencyKeys w
  /\ locks (snd (block w)) = locks w
  /\ (forall id, id <> runId msg -> runs (snd (block w)) !! id = runs w !! id).
Proof.
  subst block. unfold tryCatch, afterExecute, onFailure, bind, stringifiedLength,
    throw, ret, updateStepExecution, updateStatus, enqueue.
  destruct settled as [output | error]; split_result;
    repeat match goal with
           | |- context [if ?c then _ else _] => destruct c
           end;
    cbn [fst snd workflows idempotencyKeys locks runs
           setRuns setStepExecutions setJobs];
    repeat split; try reflexivity;
    intros id Hid; rewrite ?lookup_alter_ne by congruence; reflexivity.
Qed.

(** At most one job is added, a step message for the same run. *)
Lemma block_jobs (w : World) :
  jobs (snd (block w)) = jobs w
  \/ exists j, jobs (snd (block w)) = jobs w ++ [j] /\ ForSameRun msg j.
Proof.
  subst block. unfold tryCatch, afterExecute, onFailure, bind, stringifiedLength,
    throw, ret, updateStepExecution, updateStatus, enqueue.
  destruct settled as [output | error]; split_result;
    repeat match goal with
           | |- context [if ?c then _ else _] => destruct c
           end;
    cbn [fst snd jobs setRuns setStepExecutions setJobs];
    try (left; reflexivity);
    right; eexists; (split; [reflexivity |]);
    eexists; repeat split; reflexivity.
Qed.

(** The row of the attempt ends [completed] or [failed]; the rows before it
    are not touched. *)
Lemma block_row (w : World) (before : list StepExecution) (row : StepExecution) :
  stepExecutions w = before ++ [row] ->
  executionId = List.length before ->
  exists row',
    stepExecutions (snd (block w)) = before ++ [row']
    /\ attemptKey row' = attemptKey row
    /\ (x_status row' = exec_completed \/ x_status row' = exec_failed)
    /\ x_completedAt row' = Some finishedAt
    /\ x_durationMs row' = Some durationMs.
Proof.
  intros Hrows Hid.
  subst block. unfold tryCatch, afterExecute, onFailure, bind, stringifiedLength,
    throw, ret, updateStepExecution, updateStatus, enqueue.
  destruct settled as [output | error]; split_result;
    repeat match goal with
           | |- context [if ?c then _ else _] => destruct c
           end;
    cbn [fst snd stepExecutions setRuns setStepExecutions setJobs];
    rewrite Hrows, Hid, !alter_last;
    eexists; (split; [reflexivity |]);
    repeat split; try reflexivity; (left; reflexivity) || (right; reflexivity).
Qed.

End InnerBlock.

(** A call of [processExecuteStep] goes one of three ways: the lock is held
    and the message is put back; the call ends before the handler is called
    and leaves the world as it was; or the message passes every check. *)
Lemma processExecuteStep_cases (config : Config) (env : Env)
    (handlers : StepType -> option StepHandler) (msg : ExecuteStepMessage) (w : World) :
  ((LOCK_PREFIX +:+ runId msg) ∈ locks w
   /\ processExecuteStep config env handlers msg w
      = (Ok tt, setJobs (fun l => l ++ [{| j_queue := execute;
                                           j_message := EXECUTE_STEP msg;
                                           j_delay := Some (Double.ofZ 1000) |}]) w))
  \/ (exists r, processExecuteStep config env handlers msg w = (r, w))
  \/ (exists workflow run step handler,
        Active handlers msg w workflow run step handler).
Proof.
  destruct (decide ((LOCK_PREFIX +:+ runId msg) ∈ locks w)) as [Hheld | Hfree].
  - left. split; [exact Hheld |].
    unfold processExecuteStep, bind, lock_acquire.
    destruct (decide _) as [_ | Hno]; [reflexivity | contradiction].
  - right.
    assert (Hquiet : forall r,
               underLock config env handlers msg
                 (setLocks (fun l => {[LOCK_PREFIX +:+ runId msg]} ∪ l) w)
               = (r, setLocks (fun l => {[LOCK_PREFIX +:+ runId msg]} ∪ l) w) ->
               exists r', processExecuteStep config env handlers msg w = (r', w)).
    { intros r Hr. exists r.
      unfold processExecuteStep, bind, lock_acquire.
      destruct (decide _) as [Hyes | _]; [contradiction |].
      cbn [negb]. unfold tryFinally. rewrite Hr. unfold lock_release.
      f_equal. apply lock_roundtrip. exact Hfree. }
    destruct (workflows w !! workflowId msg) as [workflow |] eqn:Hwf.
    2: { left. eapply Hquiet. unfold underLock, bind, workflow_findById.
         cbn [workflows setLocks]. rewrite Hwf. reflexivity. }
    destruct (runs w !! runId msg) as [run |] eqn:Hrun.
    2: { left. eapply Hquiet. unfold underLock, bind, workflow_findById, run_findById.
         cbn [workflows setLocks]. rewrite Hwf. cbv beta iota.
         cbn [runs setLocks]. rewrite Hrun. reflexivity. }
    assert (Hdec : r_status run = running \/ r_status run <> running)
      by (destruct (r_status run); (left; reflexivity) || (right; discriminate)).
    destruct Hdec as [Hst | Hst].
    2: { left. eapply Hquiet.
         apply (underLock_stale config env handlers msg
                  (setLocks (fun l => {[LOCK_PREFIX +:+ runId msg]} ∪ l) w)
                  workflow run Hwf Hrun).
         left. exact Hst. }
    destruct (decide (r_currentStepIndex run = stepIndex msg)) as [Hidx | Hidx].
    2: { left. eapply Hquiet.
         apply (underLock_stale config env handlers msg
                  (setLocks (fun l => {[LOCK_PREFIX +:+ runId msg]} ∪ l) w)
                  workflow run Hwf Hrun).
         right. exact Hidx. }
    assert (Hhead : forall k : Workflow -> Run -> M unit,
               (let* workflow := workflow_findById (workflowId msg) in
                match workflow with
                | None => throw (newError ("Workflow " +:+ workflowId msg +:+ " not found"))
                | Some workflow =>
                    let* run := run_findById (runId msg) in
                    match run with
                    | None => throw (newError ("Run " +:+ runId msg +:+ " not found"))
                    | Some run => k workflow run
                    end
                end) (setLocks (fun l => {[LOCK_PREFIX +:+ runId msg]} ∪ l) w)
               = k workflow run (setLocks (fun l => {[LOCK_PREFIX +:+ runId msg]} ∪ l) w)).
    { intros k. unfold bind, workflow_findById, run_findById.
      cbn [workflows setLocks]. rewrite Hwf. cbv beta iota.
      cbn [runs setLocks]. rewrite Hrun. reflexivity. }
    destruct (List.find (fun s => String.eqb (s_id s) (stepId msg))
                (List.filter s_enabled (wf_steps workflow))) as [step |] eqn:Hstep.
    2: { left. eapply Hquiet. unfold underLock. rewrite Hhead.
         rewrite Hst, Hidx, Z.eqb_refl. cbn [RunStatus_eqb negb].
         rewrite Hstep. reflexivity. }
    destruct (handlers (s_type step)) as [handler |] eqn:Hh.
    2: { left. eapply Hquiet. unfold underLock. rewrite Hhead.
         rewrite Hst, Hidx, Z.eqb_refl. cbn [RunStatus_eqb negb].
         rewrite Hstep, Hh. reflexivity. }
    destruct (existsb (sameAttempt (runId msg) (stepId msg) (attempt msg))
                (stepExecutions w)) eqn:Hnew.
    { left. eapply Hquiet. unfold underLock. rewrite Hhead.
      rewrite Hst, Hidx, Z.eqb_refl. cbn [RunStatus_eqb negb].
      rewrite Hstep, Hh. unfold bind at 1, createStepExecution.
      cbn [stepExecutions setLocks]. rewrite Hnew. reflexivity. }
    right. exists workflow, run, step, handler. split; assumption.
Qed.

Lemma handlerStart_active (handlers : StepType -> option StepHandler) (env : Env)
    (msg : ExecuteStepMessage) (w : World) (workflow : Workflow) (run : Run)
    (step : Step) (handler : StepHandler) :
  Active handlers msg w workflow run step handler ->
  handlerStart env msg step run w
  = {| workflows := workflows w;
       runs := runs w;
       stepExecutions :=
         stepExecutions w
         ++ [{| x_runId := runId msg; x_stepId := stepId msg;
                x_stepName := s_name step; x_status := exec_running;
                x_attempt := attempt msg; x_input := resolvedConfigOf env step run;
                x_output := None; x_error := None; x_startedAt := env_now env;
                x_completedAt := None; x_durationMs := None |}];
       idempotencyKeys := idempotencyKeys w;
       jobs := jobs w;
       locks := {[LOCK_PREFIX +:+ runId msg]} ∪ locks w |}.
Proof.
  intros [Hfree _ _ _ _ _ _ Hnew].
  unfold handlerStart, lock_acquire, createStepExecution, updateStepExecution.
  destruct (decide _) as [Hheld | _]; [contradiction |].
  cbn [snd stepExecutions setLocks]. rewrite Hnew.
  cbn [snd stepExecutions setStepExecutions]. unfold setStepExecutions, setLocks.
  cbn [workflows runs stepExecutions idempotencyKeys jobs locks].
  rewrite alter_last. reflexivity.
Qed.

(** The outcome of a message that passes every check. *)
Lemma active_outcome (config : Config) (env : Env)
    (handlers : StepType -> option StepHandler) (msg : ExecuteStepMessage)
    (w : World) (workflow : Workflow) (run : Run) (step : Step) (handler : StepHandler) :
  Active handlers msg w workflow run step handler ->
  let result := processExecuteStep config env handlers msg w in
  fst result = Ok tt
  /\ workflows (snd result) = workflows w
  /\ idempotencyKeys (snd result) = idempotencyKeys w
  /\ locks (snd result) = locks w
  /\ (forall id, id <> runId msg -> runs (snd result) !! id = runs w !! id)
  /\ (jobs (snd result) = jobs w
      \/ exists j, jobs (snd result) = jobs w ++ [j] /\ ForSameRun msg j)
  /\ exists row,
       stepExecutions (snd result) = stepExecutions w ++ [row]
       /\ Finished msg row.
Proof.
  intros Hactive result. subst result.
  rewrite (processExecuteStep_active config env _ _ _ _ _ _ _ Hactive).
  rewrite (handlerStart_active _ env _ _ _ _ _ _ Hactive).
  unfold innerTry, innerCatch.
  set (settled := fst (settledOf config env step run handler)).
  set (durationMs := snd (settledOf config env step run handler)).
  set (enabled := List.filter s_enabled (wf_steps workflow)).
  set (w0 := {| workflows := workflows w; runs := runs w;
                stepExecutions := _; idempotencyKeys := idempotencyKeys w;
                jobs := jobs w; locks := _ |}).
  destruct (block_frame config env msg step enabled run (List.length (stepExecutions w))
              settled (env_now env + durationMs) durationMs w0)
    as (Hok & Hwf & Hik & Hlk & Hruns).
  pose proof (block_jobs config env msg step enabled run (List.length (stepExecutions w))
                settled (env_now env + durationMs) durationMs w0) as Hjobs.
  destruct (block_row config env msg step enabled run (List.length (stepExecutions w))
              settled (env_now env + durationMs) durationMs w0 (stepExecutions w) _
              eq_refl eq_refl)
    as (row & Hrows & Hkey & Hstatus & Hdone & Hdur).
  unfold tryFinally, lock_release.
  destruct (tryCatch _ _ w0) as [r w3]. cbn [fst snd] in *.
  cbn [workflows idempotencyKeys locks runs jobs stepExecutions setLocks].
  repeat split; try assumption.
  - rewrite Hlk. subst w0. cbn [locks].
    destruct Hactive as [Hfree _ _ _ _ _ _ _].
    apply set_eq. intros x.
    rewrite elem_of_difference, elem_of_union, elem_of_singleton. split.
    + intros [[Hx | Hx] Hne]; [contradiction | exact Hx].
    + intros Hx. split; [right; exact Hx |]. intros ->. contradiction.
  - exists row. split; [exact Hrows |].
    split; [exact Hkey |]. split; [exact Hstatus |].
    split; [rewrite Hdone | rewrite Hdur]; discriminate.
Qed.

(** X1: whatever the message and the world, [processExecuteStep] leaves the
    set of held locks as it found it: the lock it takes is released on every
    path, also when the body throws, and a lock held by another worker is
    not touched. *)
Theorem processExecuteStep_releases_lock (config : Config) (env : Env)
    (handlers : StepType -> option StepHandler) (msg : ExecuteStepMessage) (w : World) :
  locks (snd (processExecuteStep config env handlers msg w)) = locks w.
Proof.
  destruct (processExecuteStep_cases config env handlers msg w)
    as [[_ Heq] | [[r Heq] | (workflow & run & step & handler & Hactive)]].
  - rewrite Heq. reflexivity.
  - rewrite Heq. reflexivity.
  - apply (active_outcome config env handlers msg w workflow run step handler Hactive).
Qed.

(** X2: when [processExecuteStep] throws (workflow, run or step not found,
    no handler for the step's type, or a second row for the same attempt),
    it has written nothing: the world after the call is the world before
    it, the lock included. *)
Theorem processExecuteStep_throw_writes_nothing (config : Config) (env : Env)
    (handlers : StepType -> option StepHandler) (msg : ExecuteStepMessage)
    (w : World) (e : Thrown) :
  fst (processExecuteStep config env handlers msg w) = Throw e ->
  snd (processExecuteStep config env handlers msg w) = w.
Proof.
  intros Hthrow.
  destruct (processExecuteStep_cases config env handlers msg w)
    as [[_ Heq] | [[r Heq] | (workflow & run & step & handler & Hactive)]].
  - rewrite Heq in Hthrow. discriminate Hthrow.
  - rewrite Heq. reflexivity.
  - destruct (active_outcome config env handlers msg w workflow run step handler Hactive)
      as [Hok _].
    rewrite Hok in Hthrow. discriminate Hthrow.
Qed.

Lemma processExecuteStep_throw_writes_nothing_witness :
  fst (processExecuteStep defaultConfig env0
         (executeWorkerHandlers okHandler okHandler okHandler) aiMsg advancedWorld)
  = Throw (newError "No handler for step type: ai")
  /\ snd (processExecuteStep defaultConfig env0
            (executeWorkerHandlers okHandler okHandler okHandler) aiMsg advancedWorld)
     = advancedWorld.
Proof.
  assert (H : fst (processExecuteStep defaultConfig env0
                     (executeWorkerHandlers okHandler okHandler okHandler)
                     aiMsg advancedWorld)
              = Throw (newError "No handler for step type: ai"))
    by (vm_compute; reflexivity).
  split; [exact H |].
  exact (processExecuteStep_throw_writes_nothing defaultConfig env0
           (executeWorkerHandlers okHandler okHandler okHandler) aiMsg advancedWorld
           (newError "No handler for step type: ai") H).
Defined.

(** X3: one call of [processExecuteStep] adds at most one row to the table
    of step executions and changes no row that was there.  The row it adds
    is the one of the message's (run, step, attempt), and when the call
    returns that row is [completed] or [failed], never [pending] or
    [running], with [completedAt] and [durationMs] set. *)
Theorem processExecuteStep_rows (config : Config) (env : Env)
    (handlers : StepType -> option StepHandler) (msg : ExecuteStepMessage) (w : World) :
  let w' := snd (processExecuteStep config env handlers msg w) in
  stepExecutions w' = stepExecutions w
  \/ exists row, stepExecutions w' = stepExecutions w ++ [row] /\ Finished msg row.
Proof.
  intros w'. subst w'.
  destruct (processExecuteStep_cases config env handlers msg w)
    as [[_ Heq] | [[r Heq] | (workflow & run & step & handler & Hactive)]].
  - left. rewrite Heq. reflexivity.
  - left. rewrite Heq. reflexivity.
  - right.
    apply (active_outcome config env handlers msg w workflow run step handler Hactive).
Qed.

(** X4: one call of [processExecuteStep] removes no job and adds at most
    one, and the job it adds is a step message for the run and the workflow
    of the message it was given. *)
Theorem processExecuteStep_jobs (config : Config) (env : Env)
    (handlers : StepType -> option StepHandler) (msg : ExecuteStepMessage) (w : World) :
  let w' := snd (processExecuteStep config env handlers msg w) in
  jobs w' = jobs w
  \/ exists j, jobs w' = jobs w ++ [j] /\ ForSameRun msg j.
Proof.
  intros w'. subst w'.
  destruct (processExecuteStep_cases config env handlers msg w)
    as [[_ Heq] | [[r Heq] | (workflow & run & step & handler & Hactive)]].
  - right. rewrite Heq. eexists. split; [reflexivity |].
    exists msg. repeat split; reflexivity.
  - left. rewrite Heq. reflexivity.
  - apply (active_outcome config env handlers msg w workflow run step handler Hactive).
Qed.

Lemma delete_agree (id : string) (m m' : gmap string Run) :
  (forall k, k <> id -> m' !! k = m !! k) -> delete id m' = delete id m.
Proof.
  intros H. apply map_eq. intros k. destruct (decide (k = id)) as [-> | Hk].
  - rewrite !lookup_delete_eq. reflexivity.
  - rewrite !lookup_delete_ne by congruence. apply H. exact Hk.
Qed.

(** X5: [processExecuteStep] writes to no run other than the one of its
    message (the tables of runs before and after agree once that run is
    left out), and never to the tables of workflows and idempotency keys. *)
Theorem processExecuteStep_other_runs (config : Config) (env : Env)
    (handlers : StepType -> option StepHandler) (msg : ExecuteStepMessage) (w : World) :
  let w' := snd (processExecuteStep config env handlers msg w) in
  workflows w' = workflows w
  /\ idempotencyKeys w' = idempotencyKeys w
  /\ delete (runId msg) (runs w') = delete (runId msg) (runs w).
Proof.
  intros w'. subst w'.
  destruct (processExecuteStep_cases config env handlers msg w)
    as [[_ Heq] | [[r Heq] | (workflow & run & step & handler & Hactive)]].
  - rewrite Heq. repeat split; reflexivity.
  - rewrite Heq. repeat split; reflexivity.
  - destruct (active_outcome config env handlers msg w workflow run step handler Hactive)
      as (_ & Hwf & Hik & _ & Hruns & _).
    split; [exact Hwf |]. split; [exact Hik |]. apply delete_agree. exact Hruns.
Qed.

Lemma locks_restored (k : string) (l : gset string) :
  k ∉ l -> ({[k]} ∪ l) ∖ {[k]} = l.
Proof.
  intros Hk. apply set_eq. intros x.
  rewrite elem_of_difference, elem_of_union, elem_of_singleton. split.
  - intros [[Hx | Hx] Hne]; [contradiction | exact Hx].
  - intros Hx. split; [right; exact Hx |]. intros ->. contradiction.
Qed.

Lemma nthZ_in_range {A} (l : list A) (i : Z) (x : A) :
  nthZ l i = Some x -> (i <? Z.of_nat (List.length l)) = true.
Proof.
  unfold nthZ. destruct (i <? 0) eqn:Hneg; [discriminate |].
  intros H. apply lookup_lt_Some in H. apply Z.ltb_lt. apply Z.ltb_ge in Hneg. lia.
Qed.

(** The world after a message that passes every check and whose race ends
    with an error: the attempt's row is [failed]; the next attempt is
    enqueued or the run is written [failed]. *)
Lemma rejected_outcome (config : Config) (env : Env)
    (handlers : StepType -> option StepHandler) (msg : ExecuteStepMessage)
    (w : World) (workflow : Workflow) (run : Run) (step : Step) (handler : StepHandler)
    (e : Thrown) :
  Active handlers msg w workflow run step handler ->
  fst (settledOf config env step run handler) = inr e ->
  let c := classifyError e in
  let d := snd (settledOf config env step run handler) in
  let again := retryable c && (attempt msg <? maxAttempts (policyOf step)) in
  processExecuteStep config env handlers msg w
  = (Ok tt,
     {| workflows := workflows w;
        runs := if again then runs w
                else <[runId msg := failedRun msg step c (env_now env + d) run]> (runs w);
        stepExecutions :=
          stepExecutions w
          ++ [attemptRow env msg step run exec_failed None (Some (stepErrorOf c)) d];
        idempotencyKeys := idempotencyKeys w;
        jobs := if again then jobs w ++ [retryJob env msg step] else jobs w;
        locks := locks w |}).
Proof.
  intros Hactive Hsettled c d again.
  rewrite (processExecuteStep_active config env _ _ _ _ _ _ _ Hactive).
  rewrite (handlerStart_active _ env _ _ _ _ _ _ Hactive).
  destruct Hactive as [Hfree _ Hrun _ _ _ _ _].
  unfold innerTry, innerCatch. rewrite Hsettled. fold d.
  unfold tryFinally, tryCatch, afterExecute, throw, onFailure, bind,
    updateStepExecution, updateStatus, enqueue, ret, lock_release.
  fold c. fold (policyOf step). fold again.
  cbn [fst snd stepExecutions setStepExecutions].
  destruct again;
    unfold setLocks, setJobs, setRuns, setStepExecutions;
    cbn [fst snd workflows runs stepExecutions idempotencyKeys jobs locks];
    rewrite alter_last, (locks_restored _ _ Hfree); [reflexivity |].
  rewrite (alter_found _ _ _ _ Hrun). reflexivity.
Qed.

(** The world after a message that passes every check and whose handler's
    output and the extended context are within the size limits. *)
Lemma resolved_outcome (config : Config) (env : Env)
    (handlers : StepType -> option StepHandler) (msg : ExecuteStepMessage)
    (w : World) (workflow : Workflow) (run : Run) (step : Step) (handler : StepHandler)
    (output : value) (text ctext : string) :
  Active handlers msg w workflow run step handler ->
  fst (settledOf config env step run handler) = inl output ->
  JSON_stringify output = Some text ->
  Z.of_nat (String.length text) <= MAX_STEP_OUTPUT_BYTES config ->
  JSON_stringify (contextJson (extendedContext run step output)) = Some ctext ->
  Z.of_nat (String.length ctext) <= MAX_CONTEXT_SIZE_BYTES config ->
  0 <= stepIndex msg + 1 ->
  let d := snd (settledOf config env step run handler) in
  let enabledSteps := List.filter s_enabled (wf_steps workflow) in
  processExecuteStep config env handlers msg w
  = (Ok tt,
     {| workflows := workflows w;
        runs := match nthZ enabledSteps (stepIndex msg + 1) with
                | Some _ => <[runId msg := advancedRun msg step output run]> (runs w)
                | None =>
                    <[runId msg := completedRun msg step output (env_now env + d) run]>
                      (runs w)
                end;
        stepExecutions :=
          stepExecutions w
          ++ [attemptRow env msg step run exec_completed (Some output) None d];
        idempotencyKeys := idempotencyKeys w;
        jobs := match nthZ enabledSteps (stepIndex msg + 1) with
                | Some next => jobs w ++ [nextJob msg step next]
                | None => jobs w
                end;
        locks := locks w |}).
Proof.
  intros Hactive Hsettled Htext Hsmall Hctext Hcsmall Hpos d enabledSteps.
  rewrite (processExecuteStep_active config env _ _ _ _ _ _ _ Hactive).
  rewrite (handlerStart_active _ env _ _ _ _ _ _ Hactive).
  destruct Hactive as [Hfree _ Hrun _ Hidx _ _ _].
  unfold innerTry, innerCatch. rewrite Hsettled. fold d. fold enabledSteps.
  unfold tryFinally, tryCatch, afterExecute, bind, stringifiedLength.
  rewrite Htext. unfold ret at 1. cbv beta iota.
  apply Z.ltb_ge in Hsmall. rewrite Hsmall.
  unfold updateStepExecution at 1. cbv beta iota.
  unfold extendedContext in Hctext. rewrite Hctext. unfold ret at 1. cbv beta iota.
  apply Z.ltb_ge in Hcsmall. rewrite Hcsmall.
  unfold updateStatus at 1. cbv beta iota.
  destruct (nthZ enabledSteps (stepIndex msg + 1)) as [next |] eqn:Hnext.
  - rewrite (nthZ_in_range _ _ _ Hnext).
    unfold enqueue, lock_release.
    unfold setLocks, setJobs, setRuns, setStepExecutions.
    cbn [fst snd workflows runs stepExecutions idempotencyKeys jobs locks].
    rewrite alter_last, (locks_restored _ _ Hfree), (alter_found _ _ _ _ Hrun).
    reflexivity.
  - assert (Hlast : (stepIndex msg + 1 <? Z.of_nat (List.length enabledSteps)) = false).
    { apply Z.ltb_ge. unfold nthZ in Hnext.
      destruct (stepIndex msg + 1 <? 0) eqn:Hneg; [apply Z.ltb_lt in Hneg; lia |].
      apply lookup_ge_None in Hnext. apply Z.ltb_ge in Hneg. lia. }
    rewrite Hlast. unfold updateStatus, ret, lock_release.
    unfold setLocks, setJobs, setRuns, setStepExecutions.
    cbn [fst snd workflows runs stepExecutions idempotencyKeys jobs locks].
    rewrite alter_last, (locks_restored _ _ Hfree), (alter_found _ _ _ _ Hrun).
    rewrite (alter_found _ _ _ _ (lookup_insert_eq _ _ _)).
    rewrite insert_insert_eq. reflexivity.
Qed.






Lemma late_settles (config : Config) (env : Env) (step : Step) (run : Run)
    (handler : StepHandler) :
  Late (handler step (resolvedConfigOf env step run) (r_context run))
    (timeoutOf config step) ->
  settledOf config env step run handler
  = (inr (newError "Step timeout"), timeoutOf config step).
Proof.
  unfold settledOf, race, Late.
  destruct (handler step _ _) as [output t | error t |]; intros Hlate;
    [| | reflexivity];
    apply Z.leb_gt in Hlate; rewrite Hlate; reflexivity.
Qed.

(** A handler that settles at the very millisecond of the timeout is not
    timed out; one that settles a millisecond later is. *)
Example handler_wins_the_tie :
  race (Resolves helloOutput 300000) 300000 = (inl helloOutput, 300000)
  /\ race (Rejects notFound 300000) 300000 = (inr notFound, 300000)
  /\ race (Resolves helloOutput 300001) 300000 = (inr (newError "Step timeout"), 300000).
Proof. repeat split; reflexivity. Qed.

(** X8: when the handler's promise is not settled when the timer of the
    step's timeout ([step.timeoutMs], or the configured default) fires, that
    is when it settles after more milliseconds than the timeout or never,
    then whatever it does later the attempt fails with code [TIMEOUT], which
    is retryable, and with [durationMs] equal to the timeout.  While [attempt < maxAttempts] the
    same message is enqueued with [attempt + 1] and the backoff delay, and
    the run is not written; otherwise the run is written [failed] with the
    [TIMEOUT] error. *)
Theorem timeout_is_retried (config : Config) (env : Env)
    (handlers : StepType -> option StepHandler) (msg : ExecuteStepMessage)
    (w : World) (workflow : Workflow) (run : Run) (step : Step) (handler : StepHandler) :
  Active handlers msg w workflow run step handler ->
  Late (handler step (resolvedConfigOf env step run) (r_context run))
    (timeoutOf config step) ->
  let again := attempt msg <? maxAttempts (policyOf step) in
  processExecuteStep config env handlers msg w
  = (Ok tt,
     {| workflows := workflows w;
        runs := if again then runs w
                else <[runId msg :=
                         failedRun msg step timeoutClassified
                           (env_now env + timeoutOf config step) run]> (runs w);
        stepExecutions :=
          stepExecutions w
          ++ [attemptRow env msg step run exec_failed None
                (Some (stepErrorOf timeoutClassified)) (timeoutOf config step)];
        idempotencyKeys := idempotencyKeys w;
        jobs := if again then jobs w ++ [retryJob env msg step] else jobs w;
        locks := locks w |}).
Proof.
  intros Hactive Hlate again.
  pose proof (late_settles config env step run handler Hlate) as Hs.
  assert (Hsettled : fst (settledOf config env step run handler)
                     = inr (newError "Step timeout")) by (rewrite Hs; reflexivity).
  pose proof (rejected_outcome config env handlers msg w workflow run step handler
                (newError "Step timeout") Hactive Hsettled) as H.
  cbv zeta in H. rewrite Hs in H. cbn [snd] in H.
  change (classifyError (newError "Step timeout")) with timeoutClassified in H.
  exact H.
Qed.

Lemma timeout_is_retried_witness :
  let timedOut :=
    (Ok tt,
     {| workflows := workflows world0;
        runs := if attempt msg1 <? maxAttempts (policyOf fetchStep) then runs world0
                else <[runId msg1 :=
                         failedRun msg1 fetchStep timeoutClassified
                           (env_now env0 + timeoutOf defaultConfig fetchStep) run1]>
                       (runs world0);
        stepExecutions :=
          stepExecutions world0
          ++ [attemptRow env0 msg1 fetchStep run1 exec_failed None
                (Some (stepErrorOf timeoutClassified)) (timeoutOf defaultConfig fetchStep)];
        idempotencyKeys := idempotencyKeys world0;
        jobs := if attempt msg1 <? maxAttempts (policyOf fetchStep)
                then jobs world0 ++ [retryJob env0 msg1 fetchStep] else jobs world0;
        locks := locks world0 |}) in
  processExecuteStep defaultConfig env0
    (executeWorkerHandlers hangingHandler okHandler okHandler) msg1 world0 = timedOut
  /\ processExecuteStep defaultConfig env0
       (executeWorkerHandlers lateHandler okHandler okHandler) msg1 world0 = timedOut.
Proof.
  split.
  - exact (timeout_is_retried defaultConfig env0 _ msg1 world0 ordersWorkflow run1
             fetchStep hangingHandler (sample_active hangingHandler) I).
  - exact (timeout_is_retried defaultConfig env0 _ msg1 world0 ordersWorkflow run1
             fetchStep lateHandler (sample_active lateHandler) eq_refl).
Defined.

(** X27: the message of an [ai] step that meets a held lock is put back on
    the [execute] queue, also by the worker of the [ai] queue; and the
    worker of the [execute] queue, which has handlers for [http],
    [transform] and [delay] only, throws on a message whose step is an [ai]
    step, before any row is written: the world is left as it was and the
    run stays [running] at that step. *)
Theorem requeued_ai_message_is_lost (config : Config) (env : Env)
    (h_ai h_http h_transform h_delay : StepHandler) (msg : ExecuteStepMessage)
    (w w2 : World) (workflow : Workflow) (run : Run) (step : Step) :
  (LOCK_PREFIX +:+ runId msg) ∈ locks w ->
  (LOCK_PREFIX +:+ runId msg) ∉ locks w2 ->
  workflows w2 !! workflowId msg = Some workflow ->
  runs w2 !! runId msg = Some run ->
  r_status run = running ->
  r_currentStepIndex run = stepIndex msg ->
  List.find (fun s => String.eqb (s_id s) (stepId msg))
    (List.filter s_enabled (wf_steps workflow)) = Some step ->
  s_type step = ai ->
  jobs (snd (processExecuteStep config env (aiWorkerHandlers h_ai) msg w))
  = jobs w ++ [{| j_queue := execute; j_message := EXECUTE_STEP msg;
                  j_delay := Some (Double.Fin 1000) |}]
  /\ processExecuteStep config env (executeWorkerHandlers h_http h_transform h_delay)
       msg w2
     = (Throw (newError "No handler for step type: ai"), w2).
Proof.
  intros Hheld Hfree Hwf Hrun Hst Hidx Hstep Hai. split.
  - unfold processExecuteStep, bind, lock_acquire.
    destruct (decide _) as [_ | Hno]; [| contradiction].
    change (Double.ofZ 1000) with (Double.Fin 1000). reflexivity.
  - unfold processExecuteStep, bind, lock_acquire.
    destruct (decide _) as [Hyes | _]; [contradiction |].
    cbn [negb]. unfold tryFinally, underLock, bind, workflow_findById, run_findById.
    cbn [workflows setLocks]. rewrite Hwf. cbv beta iota.
    cbn [runs setLocks]. rewrite Hrun. cbv beta iota.
    rewrite Hst, Hidx, Z.eqb_refl. cbn [RunStatus_eqb negb].
    rewrite Hstep, Hai. cbn [executeWorkerHandlers StepType_name].
    unfold throw, lock_release. f_equal. apply lock_roundtrip. exact Hfree.
Qed.

Lemma requeued_ai_message_is_lost_witness :
  jobs (snd (processExecuteStep defaultConfig env0 (aiWorkerHandlers okHandler) aiMsg
               contendedWorld))
  = jobs contendedWorld ++ [{| j_queue := execute; j_message := EXECUTE_STEP aiMsg;
                               j_delay := Some (Double.Fin 1000) |}]
  /\ processExecuteStep defaultConfig env0
       (executeWorkerHandlers okHandler okHandler okHandler) aiMsg advancedWorld
     = (Throw (newError "No handler for step type: ai"), advancedWorld).
Proof.
  assert (H1 : (LOCK_PREFIX +:+ runId aiMsg) ∈ locks contendedWorld)
    by (apply (bool_decide_unpack _); vm_compute; reflexivity).
  assert (H2 : (LOCK_PREFIX +:+ runId aiMsg) ∉ locks advancedWorld)
    by (apply (bool_decide_unpack _); vm_compute; reflexivity).
  assert (H3 : workflows advancedWorld !! workflowId aiMsg = Some ordersWorkflow)
    by (vm_compute; reflexivity).
  assert (H4 : runs advancedWorld !! runId aiMsg
               = Some (advancedRun msg1 fetchStep helloOutput run1))
    by (vm_compute; reflexivity).
  exact (requeued_ai_message_is_lost defaultConfig env0 okHandler okHandler okHandler
           okHandler aiMsg contendedWorld advancedWorld ordersWorkflow _ summariseStep
           H1 H2 H3 H4 eq_refl eq_refl eq_refl eq_refl).
Defined.

(** * Further properties of the webhook route *)

Lemma verifySignature_pure (workflow : Workflow) (req : Request) (w : World) :
  snd (verifySignature workflow req w) = w
  /\ forall reply, fst (verifySignature workflow req w) = Ok (Some reply) ->
                   status reply = 401.
Proof.
  unfold verifySignature, ret, throw.
  repeat match goal with
         | |- context [match ?x with _ => _ end] => destruct x
         end; cbn [fst snd]; (split; [reflexivity |]);
    intros reply H; inversion H; reflexivity.
Qed.

Lemma findByIdempotencyKey_pure (now : Z) (key : string) (w : World) :
  snd (findByIdempotencyKey now key w) = w
  /\ exists o, fst (findByIdempotencyKey now key w) = Ok o.
Proof.
  unfold findByIdempotencyKey.
  destruct (idempotencyKeys w !! key) as [[rid ex] |];
    [destruct (now <? ex) |]; split; try reflexivity; eexists; reflexivity.
Qed.

Lemma varchar_fits (key : string) :
  (String.length key <= 256)%nat -> varchar 256 key = Some key.
Proof.
  intros H. unfold varchar. apply Nat.leb_le in H. rewrite H. reflexivity.
Qed.

Lemma varchar_too_long (key : string) :
  varchar 256 key = None -> (256 < String.length key)%nat.
Proof.
  unfold varchar. destruct (String.length key <=? 256)%nat eqn:H; [discriminate |].
  intros _. apply Nat.leb_gt in H. exact H.
Qed.

(** [admission] either answers without writing, with a status other than
    202; or creates the run, binds the key and enqueues the start message;
    or creates the run and throws, the key being too long for its column. *)
Lemma admission_cases (env : AdmissionEnv) (workflow : Workflow) (req : Request)
    (w : World) :
  (exists r, admission env workflow req w = (r, w) /\ statusOf r <> 202)
  \/ (runs w !! adm_newRunId env = None
      /\ (forall key, idempotencyKeyOf req = Some key ->
                      idempotencyKeys w !! key = None -> varchar 256 key <> None)
      /\ admission env workflow req w
         = (Ok (acceptedReply env workflow), acceptedWorld env workflow req w))
  \/ (exists key,
        runs w !! adm_newRunId env = None
        /\ idempotencyKeyOf req = Some key
        /\ idempotencyKeys w !! key = None
        /\ varchar 256 key = None
        /\ admission env workflow req w
           = (Throw valueTooLong, orphanWorld env workflow req w)).
Proof.
  unfold admission, bind.
  fold (idempotencyKeyOf req).
  assert (Hlook : exists o,
             (match idempotencyKeyOf req with
              | Some key => findByIdempotencyKey (adm_now env) key
              | None => ret None
              end) w = (Ok o, w)).
  { destruct (idempotencyKeyOf req) as [key |]; [| eexists; reflexivity].
    destruct (findByIdempotencyKey_pure (adm_now env) key w) as [Hw [o Ho]].
    exists o. destruct (findByIdempotencyKey _ _ _) as [r w1].
    cbn [fst snd] in *. subst. reflexivity. }
  destruct Hlook as [o Hlook]. rewrite Hlook.
  destruct o as [existing |].
  - left. eexists. split; [reflexivity |]. cbn. discriminate.
  - unfold run_create.
    destruct (runs w !! adm_newRunId env) eqn:Hfresh.
    + left. eexists. split; [reflexivity |]. cbn. discriminate.
    + unfold acceptedWorld, orphanWorld, acceptedReply, boundKeys, newRun, triggerDataOf,
        Date_toJSON, Date.isValid.
      cbn [r_id r_status].
      destruct (idempotencyKeyOf req) as [key |].
      2:{ right. left. split; [reflexivity |]. split; [intros key H; discriminate H |].
          reflexivity. }
      unfold setIdempotencyKey. cbn [idempotencyKeys runs setRuns].
      destruct (idempotencyKeys w !! key) eqn:Hkey.
      { right. left. split; [reflexivity |]. split; [| reflexivity].
        intros key' H Hnone. injection H as <-. congruence. }
      destruct (varchar 256 key) as [stored |] eqn:Hfit.
      2:{ right. right. exists key. repeat split; first [assumption | reflexivity]. }
      right. left. split; [reflexivity |]. split.
      { intros key' H _. injection H as <-. congruence. }
      destruct (idempotencyKeys w !! stored); [reflexivity |].
      rewrite lookup_insert_eq. reflexivity.
Qed.

(** [webhook] either answers without writing, with a status other than 202;
    or accepts the call for an enabled workflow with the requested slug; or
    throws after it has created the run, the key being too long. *)
Lemma webhook_cases (env : AdmissionEnv) (req : Request) (w : World) :
  (exists r, webhook env req w = (r, w) /\ statusOf r <> 202)
  \/ (exists workflow,
        fst (workflow_findBySlug (req_slug req) w) = Ok (Some workflow)
        /\ wf_enabled workflow = true
        /\ runs w !! adm_newRunId env = None
        /\ (forall key, idempotencyKeyOf req = Some key ->
                        idempotencyKeys w !! key = None -> varchar 256 key <> None)
        /\ webhook env req w
           = (Ok (acceptedReply env workflow), acceptedWorld env workflow req w))
  \/ (exists workflow key,
        fst (workflow_findBySlug (req_slug req) w) = Ok (Some workflow)
        /\ wf_enabled workflow = true
        /\ runs w !! adm_newRunId env = None
        /\ idempotencyKeyOf req = Some key
        /\ idempotencyKeys w !! key = None
        /\ varchar 256 key = None
        /\ webhook env req w = (Throw valueTooLong, orphanWorld env workflow req w)).
Proof.
  unfold webhook, bind.
  destruct (workflow_findBySlug (req_slug req) w) as [found w0] eqn:Hfind.
  assert (Hw0 : w0 = w) by (unfold workflow_findBySlug in Hfind; congruence).
  subst w0.
  assert (Hfound : exists o, found = Ok o)
    by (unfold workflow_findBySlug in Hfind; inversion Hfind; eexists; reflexivity).
  destruct Hfound as [o ->].
  destruct o as [workflow |].
  2: { left. eexists. split; [reflexivity |]. cbn. discriminate. }
  destruct (wf_enabled workflow) eqn:Hen; cbn [negb].
  2: { left. eexists. split; [reflexivity |]. cbn. discriminate. }
  destruct (verifySignature_pure workflow req w) as [Hpure H401].
  destruct (verifySignature workflow req w) as [[[reply |] | e] w1];
    cbn [fst snd] in *; subst w1.
  - left. eexists. split; [reflexivity |]. cbn.
    rewrite (H401 reply eq_refl). discriminate.
  - destruct (admission_cases env workflow req w)
      as [[r [Heq Hst]] | [(Hfresh & Hfit & Heq) | (key & Hfresh & Hk & Hnone & Hlong & Heq)]].
    + left. exists r. split; assumption.
    + right. left. exists workflow. repeat split; assumption.
    + right. right. exists workflow, key. repeat split; assumption.
  - left. eexists. split; [reflexivity |]. cbn. discriminate.
Qed.

(** X9: a webhook call that is not answered 202 (404 for an unknown slug,
    400 for a disabled workflow, 401 for a missing or wrong signature, 200
    for a replayed idempotency key, 500 when the handler throws) has written
    nothing, no run, no key and no job, with one exception: when the call
    carries an idempotency key that is not in the table and is too long for
    its column (more than 256 characters, not all of the excess spaces), the
    run has been created, [pending], before the insertion of the key fails;
    the call is then answered 500, no key is bound and no start message is
    enqueued. *)
Theorem webhook_rejection_writes_nothing (env : AdmissionEnv) (req : Request) (w : World) :
  statusOf (fst (webhook env req w)) <> 202 ->
  snd (webhook env req w) = w
  \/ exists (workflow : Workflow) (key : string),
       fst (workflow_findBySlug (req_slug req) w) = Ok (Some workflow)
       /\ header "x-idempotency-key" (req_headers req) = Some key
       /\ idempotencyKeys w !! key = None
       /\ (256 < String.length key)%nat
       /\ varchar 256 key = None
       /\ statusOf (fst (webhook env req w)) = 500
       /\ snd (webhook env req w)
          = {| workflows := workflows w;
               runs := <[adm_newRunId env := newRun env workflow req]> (runs w);
               stepExecutions := stepExecutions w;
               idempotencyKeys := idempotencyKeys w;
               jobs := jobs w;
               locks := locks w |}.
Proof.
  intros Hst.
  destruct (webhook_cases env req w)
    as [[r [Heq _]] | [(workflow & _ & _ & _ & _ & Heq)
                      | (workflow & key & Hfind & _ & _ & Hk & Hnone & Hlong & Heq)]].
  - left. rewrite Heq. reflexivity.
  - rewrite Heq in Hst. cbn in Hst. contradiction.
  - right. exists workflow, key. split; [exact Hfind |]. split.
    { unfold idempotencyKeyOf, truthy in Hk.
      destruct (header "x-idempotency-key" (req_headers req)) as [[| c k] |];
        try discriminate; exact Hk. }
    split; [exact Hnone |]. split; [exact (varchar_too_long key Hlong) |].
    split; [exact Hlong |]. rewrite Heq. split; reflexivity.
Qed.

Lemma webhook_rejection_writes_nothing_witness :
  (statusOf (fst (webhook admission0 spacedRequest world0)) = 401
   /\ snd (webhook admission0 spacedRequest world0) = world0)
  /\ (statusOf (fst (webhook admission0 longKeyRequest world0)) = 500
      /\ runs (snd (webhook admission0 longKeyRequest world0))
         = <["run2" := newRun admission0 ordersWorkflow longKeyRequest]> (runs world0)
      /\ idempotencyKeys (snd (webhook admission0 longKeyRequest world0)) = ∅
      /\ jobs (snd (webhook admission0 longKeyRequest world0)) = []).
Proof.
  assert (H1 : statusOf (fst (webhook admission0 spacedRequest world0)) = 401)
    by (vm_compute; reflexivity).
  assert (H2 : statusOf (fst (webhook admission0 longKeyRequest world0)) = 500)
    by (vm_compute; reflexivity).
  split; (split; [assumption |]).
  - destruct (webhook_rejection_writes_nothing admission0 spacedRequest world0) as [H | H].
    + rewrite H1. discriminate.
    + exact H.
    + destruct H as (workflow & key & _ & _ & _ & _ & _ & H500 & _).
      rewrite H1 in H500. discriminate H500.
  - destruct (webhook_rejection_writes_nothing admission0 longKeyRequest world0)
      as [H | H].
    + rewrite H2. discriminate.
    + exfalso. assert (Hj : runs (snd (webhook admission0 longKeyRequest world0))
                            !! "run2" = None) by (rewrite H; vm_compute; reflexivity).
      vm_compute in Hj. discriminate Hj.
    + destruct H as (workflow & key & Hfind & _ & _ & _ & _ & _ & Hw).
      assert (Hwf : workflow = ordersWorkflow).
      { vm_compute in Hfind. injection Hfind as <-. reflexivity. }
      subst workflow. rewrite Hw. repeat split; reflexivity.
Defined.

(** X10: a webhook call answered 202 was for an enabled workflow with the
    requested slug, and has done exactly this: created the run under the
    new id, [pending], at index 0, with the trigger data (headers, body,
    query, method, the time of receipt as the text [toISOString] gives, and
    the source address) as [triggerData] and as [context.trigger], and no
    step output; bound the idempotency key, if the call carries one that is
    not in the table, to the new run for 24 hours, under the key as the
    column stores it (a key that fits the column is stored as it is); and
    enqueued one start message on the [execute] queue. *)
Theorem webhook_accepted_world (env : AdmissionEnv) (req : Request) (w : World) :
  statusOf (fst (webhook env req w)) = 202 ->
  exists workflow,
    fst (workflow_findBySlug (req_slug req) w) = Ok (Some workflow)
    /\ wf_enabled workflow = true
    /\ runs w !! adm_newRunId env = None
    /\ webhook env req w
       = (Ok (acceptedReply env workflow), acceptedWorld env workflow req w)
    /\ (Z.abs (adm_now env) <= 8640000000000000 ->
        lookupField "receivedAt" (fields_of (r_triggerData (newRun env workflow req)))
        = Some (VStr (Date.toISOString (adm_now env))))
    /\ (forall key, idempotencyKeyOf req = Some key ->
          idempotencyKeys w !! key = None ->
          varchar 256 key <> None
          /\ ((String.length key <= 256)%nat ->
              idempotencyKeys (snd (webhook env req w))
              = <[key := (adm_newRunId env, adm_now env + dayMs)]> (idempotencyKeys w))).
Proof.
  intros Hst.
  destruct (webhook_cases env req w)
    as [[r [Heq Hno]] | [(workflow & Hfind & Hen & Hfresh & Hfit & Heq)
                        | (workflow & key & _ & _ & _ & _ & _ & _ & Heq)]].
  - rewrite Heq in Hst. contradiction.
  - exists workflow. split; [exact Hfind |]. split; [exact Hen |].
    split; [exact Hfresh |]. split; [exact Heq |]. split.
    + intros Hvalid. apply Z.leb_le in Hvalid.
      unfold newRun, triggerDataOf, fields_of. cbn [r_triggerData].
      rewrite Hvalid. reflexivity.
    + intros key Hk Hnone. split; [exact (Hfit key Hk Hnone) |].
      intros Hlen. rewrite Heq. cbn [snd acceptedWorld idempotencyKeys].
      unfold boundKeys. rewrite Hk, Hnone, (varchar_fits key Hlen), Hnone. reflexivity.
  - rewrite Heq in Hst. cbn in Hst. discriminate Hst.
Qed.

Lemma webhook_accepted_world_witness :
  exists workflow,
    fst (workflow_findBySlug (req_slug keyedRequest) world0) = Ok (Some workflow)
    /\ wf_enabled workflow = true
    /\ runs world0 !! adm_newRunId admission0 = None
    /\ webhook admission0 keyedRequest world0
       = (Ok (acceptedReply admission0 workflow),
          acceptedWorld admission0 workflow keyedRequest world0)
    /\ (Z.abs (adm_now admission0) <= 8640000000000000 ->
        lookupField "receivedAt"
          (fields_of (r_triggerData (newRun admission0 workflow keyedRequest)))
        = Some (VStr (Date.toISOString (adm_now admission0))))
    /\ (forall key, idempotencyKeyOf keyedRequest = Some key ->
          idempotencyKeys world0 !! key = None ->
          varchar 256 key <> None
          /\ ((String.length key <= 256)%nat ->
              idempotencyKeys (snd (webhook admission0 keyedRequest world0))
              = <[key := (adm_newRunId admission0, adm_now admission0 + dayMs)]>
                  (idempotencyKeys world0))).
Proof.
  assert (H : statusOf (fst (webhook admission0 keyedRequest world0)) = 202)
    by (vm_compute; reflexivity).
  exact (webhook_accepted_world admission0 keyedRequest world0 H).
Defined.

Example receivedAt_is_text :
  lookupField "receivedAt"
    (fields_of (r_triggerData (newRun admission0 ordersWorkflow keyedRequest)))
  = Some (VStr "1970-01-01T00:00:05.000Z").
Proof. vm_compute. reflexivity. Qed.

(** X11: a webhook call that passes the checks and carries an idempotency
    key bound, and not yet expired, to an existing run is answered 200 with
    the id and the current status of that run, and writes nothing: no second
    run, no job. *)
Theorem webhook_replay_returns_existing_run (env : AdmissionEnv) (req : Request)
    (w : World) (workflow : Workflow) (key rid : string) (expiresAt : Z) (run : Run) :
  fst (workflow_findBySlug (req_slug req) w) = Ok (Some workflow) ->
  wf_enabled workflow = true ->
  fst (verifySignature workflow req w) = Ok None ->
  idempotencyKeyOf req = Some key ->
  idempotencyKeys w !! key = Some (rid, expiresAt) ->
  adm_now env < expiresAt ->
  runs w !! rid = Some run ->
  webhook env req w
  = (Ok {| status := 200;
           payload := DuplicatePayload (r_id run) (r_status run)
                        "Duplicate request - returning existing run" |}, w).
Proof.
  intros Hfind Hen Hsig Hkey Hbound Hlive Hrun.
  unfold webhook, bind.
  unfold workflow_findBySlug in *. cbn [fst] in Hfind. injection Hfind as Hfind.
  rewrite Hfind, Hen. cbn [negb].
  destruct (verifySignature_pure workflow req w) as [Hpure _].
  destruct (verifySignature workflow req w) as [r w1]. cbn [fst snd] in *. subst r w1.
  unfold admission, bind. fold (idempotencyKeyOf req). rewrite Hkey.
  unfold findByIdempotencyKey. rewrite Hbound.
  apply Z.ltb_lt in Hlive. rewrite Hlive, Hrun. reflexivity.
Qed.

Lemma webhook_replay_returns_existing_run_witness :
  webhook admissionSoon keyedRequest keyedWorld
  = (Ok {| status := 200;
           payload := DuplicatePayload (r_id (newRun admission0 ordersWorkflow keyedRequest))
                        (r_status (newRun admission0 ordersWorkflow keyedRequest))
                        "Duplicate request - returning existing run" |}, keyedWorld).
Proof.
  assert (H1 : fst (workflow_findBySlug (req_slug keyedRequest) keyedWorld)
               = Ok (Some ordersWorkflow)) by (vm_compute; reflexivity).
  assert (H2 : fst (verifySignature ordersWorkflow keyedRequest keyedWorld) = Ok None)
    by (vm_compute; reflexivity).
  assert (H3 : idempotencyKeys keyedWorld !! "order-42" = Some ("run2", 5000 + dayMs))
    by (vm_compute; reflexivity).
  assert (H4 : adm_now admissionSoon < 5000 + dayMs) by (vm_compute; reflexivity).
  assert (H5 : runs keyedWorld !! "run2"
               = Some (newRun admission0 ordersWorkflow keyedRequest))
    by (vm_compute; reflexivity).
  exact (webhook_replay_returns_existing_run admissionSoon keyedRequest keyedWorld
           ordersWorkflow "order-42" "run2" (5000 + dayMs) _ H1 eq_refl H2 eq_refl
           H3 H4 H5).
Defined.

(** X12: a webhook call that passes the checks and carries an idempotency
    key whose binding is still in the table but has expired is accepted as
    a new run, and the binding is left as it was, expired and pointing to
    the old run: the insertion of the key does nothing on conflict. *)
Theorem expired_key_is_not_rebound (env : AdmissionEnv) (req : Request)
    (w : World) (workflow : Workflow) (key rid : string) (expiresAt : Z) :
  fst (workflow_findBySlug (req_slug req) w) = Ok (Some workflow) ->
  wf_enabled workflow = true ->
  fst (verifySignature workflow req w) = Ok None ->
  idempotencyKeyOf req = Some key ->
  idempotencyKeys w !! key = Some (rid, expiresAt) ->
  expiresAt <= adm_now env ->
  runs w !! adm_newRunId env = None ->
  fst (webhook env req w) = Ok (acceptedReply env workflow)
  /\ runs (snd (webhook env req w))
     = <[adm_newRunId env := newRun env workflow req]> (runs w)
  /\ idempotencyKeys (snd (webhook env req w)) = idempotencyKeys w.
Proof.
  intros Hfind Hen Hsig Hkey Hbound Hdead Hfresh.
  unfold webhook, bind.
  unfold workflow_findBySlug in *. cbn [fst] in Hfind. injection Hfind as Hfind.
  rewrite Hfind, Hen. cbn [negb].
  destruct (verifySignature_pure workflow req w) as [Hpure _].
  destruct (verifySignature workflow req w) as [r w1]. cbn [fst snd] in *. subst r w1.
  unfold admission, bind. fold (idempotencyKeyOf req). rewrite Hkey.
  unfold findByIdempotencyKey. rewrite Hbound.
  apply Z.ltb_ge in Hdead. rewrite Hdead.
  unfold run_create. rewrite Hfresh.
  unfold setIdempotencyKey. cbn [idempotencyKeys setRuns r_id]. rewrite Hbound.
  unfold newRun, triggerDataOf, Date_toJSON, Date.isValid.
  repeat split; reflexivity.
Qed.

Lemma expired_key_is_not_rebound_witness :
  fst (webhook admissionLate keyedRequest keyedWorld)
  = Ok (acceptedReply admissionLate ordersWorkflow)
  /\ runs (snd (webhook admissionLate keyedRequest keyedWorld))
     = <[adm_newRunId admissionLate := newRun admissionLate ordersWorkflow keyedRequest]>
         (runs keyedWorld)
  /\ idempotencyKeys (snd (webhook admissionLate keyedRequest keyedWorld))
     = idempotencyKeys keyedWorld.
Proof.
  assert (H1 : fst (workflow_findBySlug (req_slug keyedRequest) keyedWorld)
               = Ok (Some ordersWorkflow)) by (vm_compute; reflexivity).
  assert (H2 : fst (verifySignature ordersWorkflow keyedRequest keyedWorld) = Ok None)
    by (vm_compute; reflexivity).
  assert (H3 : idempotencyKeys keyedWorld !! "order-42" = Some ("run2", 5000 + dayMs))
    by (vm_compute; reflexivity).
  assert (H4 : 5000 + dayMs <= adm_now admissionLate) by (vm_compute; discriminate).
  assert (H5 : runs keyedWorld !! adm_newRunId admissionLate = None)
    by (vm_compute; reflexivity).
  exact (expired_key_is_not_rebound admissionLate keyedRequest keyedWorld
           ordersWorkflow "order-42" "run2" (5000 + dayMs) H1 eq_refl H2 eq_refl
           H3 H4 H5).
Defined.

(** * Further properties of the run routes and of [processStartRun] *)


Lemma startRun_world (now : Z) (rid wid : string) (w : World)
    (workflow : Workflow) (run : Run) :
  workflows w !! wid = Some workflow ->
  runs w !! rid = Some run ->
  processStartRun now rid wid w
  = (Ok tt,
     match List.filter s_enabled (wf_steps workflow) with
     | [] => setRuns (insert rid (endedAt completed now run)) w
     | firstStep :: _ =>
         setJobs (fun l => l ++ [{| j_queue := queueFor (s_type firstStep);
                                    j_message := EXECUTE_STEP (firstMessage rid wid firstStep);
                                    j_delay := None |}])
           (setRuns (insert rid (withStatus running run)) w)
     end).
Proof.
  intros Hwf Hrun.
  unfold processStartRun, bind, workflow_findById, run_findById.
  rewrite Hwf. cbv beta iota. rewrite Hrun. cbv beta iota.
  unfold updateStatus at 1. cbv beta iota.
  destruct (List.filter s_enabled (wf_steps workflow)) as [| firstStep rest].
  - unfold updateStatus, ret, setRuns. cbn [runs].
    rewrite (alter_found _ _ _ _ Hrun).
    rewrite (alter_found _ _ _ _ (lookup_insert_eq _ _ _)).
    rewrite insert_insert_eq. reflexivity.
  - unfold enqueue, setRuns, setJobs.
    cbn [workflows runs stepExecutions idempotencyKeys jobs locks].
    rewrite (alter_found _ _ _ _ Hrun). reflexivity.
Qed.





(** X14: [processStartRun] for a workflow and a run that exist returns
    normally and does not look at the status of the run: a run that was
    [cancelled], [failed] or [completed] is started like a [pending] one,
    keeping its index, context, error and time of completion.  With no
    enabled step the run is written [completed] at once and nothing is
    enqueued; otherwise it is written [running] and one job is added, the
    message for index 0, attempt 1, of the first enabled step, on the queue
    of that step's type and without delay. *)
Theorem processStartRun_outcome (now : Z) (rid wid : string) (w : World)
    (workflow : Workflow) (run : Run) :
  workflows w !! wid = Some workflow ->
  runs w !! rid = Some run ->
  processStartRun now rid wid w
  = (Ok tt,
     match List.filter s_enabled (wf_steps workflow) with
     | [] => setRuns (insert rid (endedAt completed now run)) w
     | firstStep :: _ =>
         setJobs (fun l => l ++ [{| j_queue := queueFor (s_type firstStep);
                                    j_message := EXECUTE_STEP (firstMessage rid wid firstStep);
                                    j_delay := None |}])
           (setRuns (insert rid (withStatus running run)) w)
     end).
Proof. apply startRun_world. Qed.

Lemma processStartRun_outcome_witness :
  processStartRun 4000 "run1" "wf1" (snd (cancelRun 3000 "run1" world0))
  = (Ok tt,
     match List.filter s_enabled (wf_steps ordersWorkflow) with
     | [] => setRuns (insert "run1" (endedAt completed 4000 (endedAt cancelled 3000 run1)))
               (snd (cancelRun 3000 "run1" world0))
     | firstStep :: _ =>
         setJobs (fun l => l ++ [{| j_queue := queueFor (s_type firstStep);
                                    j_message :=
                                      EXECUTE_STEP (firstMessage "run1" "wf1" firstStep);
                                    j_delay := None |}])
           (setRuns (insert "run1" (withStatus running (endedAt cancelled 3000 run1)))
              (snd (cancelRun 3000 "run1" world0)))
     end).
Proof.
  assert (H1 : workflows (snd (cancelRun 3000 "run1" world0)) !! "wf1"
               = Some ordersWorkflow) by (vm_compute; reflexivity).
  assert (H2 : runs (snd (cancelRun 3000 "run1" world0)) !! "run1"
               = Some (endedAt cancelled 3000 run1)) by (vm_compute; reflexivity).
  exact (processStartRun_outcome 4000 "run1" "wf1" _ ordersWorkflow _ H1 H2).
Defined.




(** ** The unique index of step executions *)

Lemma fresh_attempt (rid sid : string) (att : Z) (l : list StepExecution) :
  existsb (sameAttempt rid sid att) l = false ->
  (rid, sid, att) ∉ List.map attemptKey l.
Proof.
  induction l as [| x l IH]; intros Hnew; simpl in *; [apply not_elem_of_nil |].
  apply orb_false_iff in Hnew. destruct Hnew as [Hx Hl].
  intros Hin. apply elem_of_cons in Hin. destruct Hin as [Heq | Hin];
    [| exact (IH Hl Hin)].
  unfold attemptKey in Heq. injection Heq as H1 H2 H3.
  unfold sameAttempt in Hx. rewrite H1, H2, H3 in Hx.
  rewrite !String.eqb_refl, Z.eqb_refl in Hx. discriminate Hx.
Qed.

Lemma perform_rows (op : Operation) (w : World) :
  stepExecutions (perform op w) = stepExecutions w
  \/ exists row,
       stepExecutions (perform op w) = stepExecutions w ++ [row]
       /\ attemptKey row ∉ List.map attemptKey (stepExecutions w).
Proof.
  destruct op as [now rid wid | config env handlers msg | now id | id | env req];
    cbn [perform].
  - left. unfold processStartRun, bind, workflow_findById, run_findById, throw, ret,
      updateStatus, enqueue.
    destruct (workflows w !! wid) as [workflow |]; [| reflexivity].
    destruct (runs w !! rid) as [run |]; [| reflexivity].
    cbn [fst snd]. destruct (List.filter _ _); reflexivity.
  - destruct (processExecuteStep_cases config env handlers msg w)
      as [[_ Heq] | [[r Heq] | (workflow & run & step & handler & Hactive)]].
    + left. rewrite Heq. reflexivity.
    + left. rewrite Heq. reflexivity.
    + right.
      destruct (active_outcome config env handlers msg w workflow run step handler
                  Hactive) as (_ & _ & _ & _ & _ & _ & row & Hrows & Hkey & _).
      exists row. split; [exact Hrows |]. rewrite Hkey.
      apply fresh_attempt. apply Hactive.
  - left. unfold cancelRun, bind, run_findById, ret, updateStatus.
    destruct (runs w !! id) as [run |]; [| reflexivity].
    destruct (_ && _); reflexivity.
  - left. unfold retryRun, bind, run_findById, workflow_findById, ret, updateStatus,
      enqueue.
    destruct (runs w !! id) as [run |]; [| reflexivity].
    destruct (negb _); [reflexivity |].
    destruct (workflows w !! r_workflowId run); reflexivity.
  - left.
    destruct (webhook_cases env req w)
      as [[r [Heq _]] | [(workflow & _ & _ & _ & _ & Heq)
                        | (workflow & key & _ & _ & _ & _ & _ & _ & Heq)]];
      rewrite Heq; reflexivity.
Qed.

(** X16: the unique index of the table of step executions is kept by every
    history of calls: if no two rows have the same run, step and attempt,
    then after any sequence of start messages, step messages, cancellations,
    retries and webhook calls no two rows have. *)
Theorem attempts_stay_unique (ops : list Operation) (w : World) :
  NoDup (List.map attemptKey (stepExecutions w)) ->
  NoDup (List.map attemptKey (stepExecutions (performAll ops w))).
Proof.
  revert w. induction ops as [| op ops IH]; intros w Hw; [exact Hw |].
  unfold performAll. cbn [fold_left]. apply IH.
  destruct (perform_rows op w) as [Heq | (row & Heq & Hnew)]; rewrite Heq.
  - exact Hw.
  - rewrite List.map_app. cbn [List.map].
    apply NoDup_app. split; [exact Hw |]. split.
    + intros x Hx Hin. apply list_elem_of_singleton in Hin. subst x.
      exact (Hnew Hx).
    + apply NoDup_singleton.
Qed.

Lemma attempts_stay_unique_witness :
  NoDup (List.map attemptKey (stepExecutions (performAll history world0))).
Proof.
  apply (attempts_stay_unique history world0). apply NoDup_nil_2.
Defined.

(** * Further properties of template resolution *)

Lemma resolve_array (ev : Evaluator) (k : nat) (items : list value)
    (context : ExecutionContext) :
  resolveExpressions ev k (VArr items) context
  = let (ys, k') := resolveItems ev context k items in (VArr ys, k').
Proof.
  cbn [resolveExpressions].
  match goal with
  | |- (let (_, _) := ?f k items in _) = _ =>
      assert (H : forall l j, f j l = resolveItems ev context j l)
  end.
  { induction l as [| x l IH]; intros j; [reflexivity |].
    simpl. destruct (resolveExpressions ev j x context) as [y k1].
    rewrite IH. reflexivity. }
  rewrite H. reflexivity.
Qed.

Lemma resolve_object (ev : Evaluator) (k : nat) (fields : list (string * value))
    (context : ExecutionContext) :
  resolveExpressions ev k (VObj fields) context
  = let (ys, k') := resolveEntries ev context k fields in (VObj ys, k').
Proof.
  cbn [resolveExpressions].
  match goal with
  | |- (let (_, _) := ?f k fields in _) = _ =>
      assert (H : forall l j, f j l = resolveEntries ev context j l)
  end.
  { induction l as [| [key x] l IH]; intros j; [reflexivity |].
    simpl. destruct (resolveExpressions ev j x context) as [y k1].
    rewrite IH. reflexivity. }
  rewrite H. reflexivity.
Qed.

Lemma stripPrefix_startsWith (p s r : string) :
  stripPrefix p s = Some r -> startsWith p s = true.
Proof.
  revert s. induction p as [| a p IH]; intros s H; [reflexivity |].
  destruct s as [| b s]; [discriminate H |]. simpl in *.
  destruct (Ascii.eqb a b); [exact (IH s H) | discriminate H].
Qed.

Lemma no_braces_no_match (s : string) : includes "{{" s = false -> findMatch s = None.
Proof.
  induction s as [| c s IH]; intros H.
  - reflexivity.
  - cbn [includes] in H. apply orb_false_iff in H. destruct H as [Hhere Hrest].
    cbn [findMatch].
    assert (Hm : matchAt (String c s) = None).
    { unfold matchAt. destruct (stripPrefix "{{" (String c s)) as [body |] eqn:Hp;
        [| reflexivity].
      apply stripPrefix_startsWith in Hp. congruence. }
    rewrite Hm, (IH Hrest). reflexivity.
Qed.

Lemma no_braces_string (ev : Evaluator) (k : nat) (s : string)
    (context : ExecutionContext) :
  includes "{{" s = false ->
  resolveStringTemplate ev k s context = (VStr s, k).
Proof.
  intros H. unfold resolveStringTemplate.
  assert (Hsingle : singleExprMatch s = None).
  { unfold singleExprMatch.
    assert (Hs : startsWith "{{" s = false).
    { destruct s as [| c s]; [reflexivity |].
      cbn [includes] in H. apply orb_false_iff in H. apply H. }
    rewrite Hs, andb_false_r. reflexivity. }
  rewrite Hsingle.
  assert (Hnone : templateMatches s = []).
  { unfold templateMatches. destruct (String.length s); [reflexivity |].
    cbn [collectMatches]. rewrite exec_findMatch, (no_braces_no_match s H).
    reflexivity. }
  rewrite Hnone. reflexivity.
Qed.

(** X17: a configuration none of whose strings contains two opening braces
    in a row is resolved to itself, whatever the context, and uses up no
    evaluation: the expression language is not called. *)
Theorem resolveExpressions_plain (ev : Evaluator) (context : ExecutionContext) :
  forall (v : value) (k : nat),
    plain v = true -> resolveExpressions ev k v context = (v, k).
Proof.
  fix IH 1. intros v k Hv.
  destruct v as [| | b | n | q | s | items | fields]; try reflexivity.
  - cbn [resolveExpressions]. apply no_braces_string.
    cbn [plain] in Hv. apply negb_true_iff in Hv. exact Hv.
  - rewrite resolve_array.
    assert (H : resolveItems ev context k items = (items, k)).
    { cbn [plain] in Hv. revert k.
      induction items as [| x items IHitems]; intros k; [reflexivity |].
      cbn [forallb] in Hv. apply andb_true_iff in Hv. destruct Hv as [Hx Hrest].
      cbn [resolveItems]. rewrite (IH x k Hx), (IHitems Hrest k). reflexivity. }
    rewrite H. reflexivity.
  - rewrite resolve_object.
    assert (H : resolveEntries ev context k fields = (fields, k)).
    { cbn [plain] in Hv. revert k.
      induction fields as [| [key x] fields IHfields]; intros k; [reflexivity |].
      cbn [forallb snd] in Hv. apply andb_true_iff in Hv. destruct Hv as [Hx Hrest].
      cbn [resolveEntries]. rewrite (IH x k Hx), (IHfields Hrest k). reflexivity. }
    rewrite H. reflexivity.
Qed.

Lemma resolveExpressions_plain_witness :
  resolveExpressions variablesOnly 0 (s_config fetchStep) sampleContext
  = (s_config fetchStep, 0%nat).
Proof.
  exact (resolveExpressions_plain variablesOnly sampleContext (s_config fetchStep) 0%nat
           eq_refl).
Defined.

(** X18: a string that the whole-string pattern does not match is resolved
    by interpolation, in reading order: the text before the first
    placeholder is kept, the placeholder is replaced by the text of the
    value of its trimmed content, and so on in what follows; the [i]-th
    placeholder is the [i]-th evaluation, and the result is a string. *)
Theorem interpolation_in_reading_order (ev : Evaluator) (k : nat) (template : string)
    (context : ExecutionContext) :
  singleExprMatch template = None ->
  resolveExpressions ev k (VStr template) context
  = (VStr (render (String.length template) ev k context template),
     (k + List.length (templateMatches template))%nat).
Proof.
  intros Hsingle. cbn [resolveExpressions].
  apply interpolation_left_to_right. exact Hsingle.
Qed.

Lemma interpolation_in_reading_order_witness :
  (resolveExpressions variablesOnly 0 (VStr "{{a}} and {{ b }}.") sampleContext
   = (VStr (render (String.length "{{a}} and {{ b }}.") variablesOnly 0 sampleContext
              "{{a}} and {{ b }}."),
      (0 + List.length (templateMatches "{{a}} and {{ b }}."))%nat)
   /\ render (String.length "{{a}} and {{ b }}.") variablesOnly 0 sampleContext
        "{{a}} and {{ b }}." = "1 and two.")
  /\ (resolveExpressions variablesOnly 0 (VStr "{{big}}, {{half}}, {{tiny}}, {{odd}}.")
        numbersContext
      = (VStr (render (String.length "{{big}}, {{half}}, {{tiny}}, {{odd}}.")
                 variablesOnly 0 numbersContext "{{big}}, {{half}}, {{tiny}}, {{odd}}."),
         (0 + List.length (templateMatches "{{big}}, {{half}}, {{tiny}}, {{odd}}."))%nat)
      /\ render (String.length "{{big}}, {{half}}, {{tiny}}, {{odd}}.")
           variablesOnly 0 numbersContext "{{big}}, {{half}}, {{tiny}}, {{odd}}."
         = "1e+21, 0.5, 1e-7, 9007199254740992.").
Proof.
  split; (split; [| vm_compute; reflexivity]).
  - exact (interpolation_in_reading_order variablesOnly 0 "{{a}} and {{ b }}."
             sampleContext eq_refl).
  - exact (interpolation_in_reading_order variablesOnly 0
             "{{big}}, {{half}}, {{tiny}}, {{odd}}." numbersContext eq_refl).
Defined.

Lemma resolveStringTemplate_ordinal (ev : Evaluator) (k : nat) (s : string)
    (context : ExecutionContext) :
  (k <= snd (resolveStringTemplate ev k s context))%nat.
Proof.
  unfold resolveStringTemplate.
  destruct (singleExprMatch s); [cbn [snd]; lia |].
  destruct (templateMatches s); cbn [snd]; lia.
Qed.

(** Evaluations are numbered upwards. *)
Lemma resolveExpressions_ordinal (ev : Evaluator) (context : ExecutionContext) :
  forall (v : value) (k : nat), (k <= snd (resolveExpressions ev k v context))%nat.
Proof.
  fix IH 1. intros v k.
  destruct v as [| | b | n | q | s | items | fields]; try (cbn [resolveExpressions snd]; lia).
  - cbn [resolveExpressions]. apply resolveStringTemplate_ordinal.
  - rewrite resolve_array.
    assert (H : (k <= snd (resolveItems ev context k items))%nat).
    { revert k. induction items as [| x items IHitems]; intros k;
        [cbn [resolveItems snd]; lia |].
      cbn [resolveItems]. pose proof (IH x k) as Hx.
      destruct (resolveExpressions ev k x context) as [y k1].
      pose proof (IHitems k1) as Hl.
      destruct (resolveItems ev context k1 items) as [ys k2]. cbn [snd] in *. lia. }
    destruct (resolveItems ev context k items) as [ys k']. exact H.
  - rewrite resolve_object.
    assert (H : (k <= snd (resolveEntries ev context k fields))%nat).
    { revert k. induction fields as [| [key x] fields IHfields]; intros k;
        [cbn [resolveEntries snd]; lia |].
      cbn [resolveEntries]. pose proof (IH x k) as Hx.
      destruct (resolveExpressions ev k x context) as [y k1].
      pose proof (IHfields k1) as Hl.
      destruct (resolveEntries ev context k1 fields) as [ys k2]. cbn [snd] in *. lia. }
    destruct (resolveEntries ev context k fields) as [ys k']. exact H.
Qed.

Lemma ResolvedFrom_earlier (ev : Evaluator) (context : ExecutionContext) (k k1 : nat)
    (x y : value) :
  (k <= k1)%nat -> ResolvedFrom ev context k1 x y -> ResolvedFrom ev context k x y.
Proof. intros Hle (j & Hj & Hy). exists j. split; [lia | exact Hy]. Qed.

Lemma resolveItems_each (ev : Evaluator) (context : ExecutionContext)
    (items : list value) :
  forall k,
    Forall2 (ResolvedFrom ev context k) items (fst (resolveItems ev context k items)).
Proof.
  induction items as [| x items IH]; intros k; [constructor |].
  cbn [resolveItems].
  pose proof (resolveExpressions_ordinal ev context x k) as Hle.
  destruct (resolveExpressions ev k x context) as [y k1] eqn:Hx.
  pose proof (IH k1) as Hall.
  destruct (resolveItems ev context k1 items) as [ys k2]. cbn [fst snd] in *.
  constructor.
  - exists k. split; [lia | rewrite Hx; reflexivity].
  - eapply Forall2_impl; [exact Hall |].
    intros a b. apply ResolvedFrom_earlier. exact Hle.
Qed.

Lemma resolveEntries_each (ev : Evaluator) (context : ExecutionContext)
    (fields : list (string * value)) :
  forall k,
    List.map fst (fst (resolveEntries ev context k fields)) = List.map fst fields
    /\ Forall2 (ResolvedFrom ev context k) (List.map snd fields)
         (List.map snd (fst (resolveEntries ev context k fields))).
Proof.
  induction fields as [| [key x] fields IH]; intros k; [split; [reflexivity | constructor] |].
  cbn [resolveEntries].
  pose proof (resolveExpressions_ordinal ev context x k) as Hle.
  destruct (resolveExpressions ev k x context) as [y k1] eqn:Hx.
  destruct (IH k1) as [Hkeys Hall].
  destruct (resolveEntries ev context k1 fields) as [ys k2]. cbn [fst snd List.map] in *.
  split; [rewrite Hkeys; reflexivity |].
  constructor.
  - exists k. split; [lia | rewrite Hx; reflexivity].
  - eapply Forall2_impl; [exact Hall |].
    intros a b. apply ResolvedFrom_earlier. exact Hle.
Qed.

(** X19: resolution keeps the shape of a configuration.  An array is
    resolved to an array of the same length whose items are the resolved
    items, in order; an object to an object with the same keys in the same
    order, keys being copied and never resolved, and each value resolved;
    a number, whole or not, a boolean, [null] and [undefined] to
    themselves. *)
Theorem resolveExpressions_keeps_shape (ev : Evaluator) (k : nat)
    (context : ExecutionContext) :
  (forall items, exists items',
      fst (resolveExpressions ev k (VArr items) context) = VArr items'
      /\ Forall2 (ResolvedFrom ev context k) items items')
  /\ (forall fields, exists fields',
        fst (resolveExpressions ev k (VObj fields) context) = VObj fields'
        /\ List.map fst fields' = List.map fst fields
        /\ Forall2 (ResolvedFrom ev context k) (List.map snd fields)
             (List.map snd fields'))
  /\ resolveExpressions ev k VUndefined context = (VUndefined, k)
  /\ resolveExpressions ev k VNull context = (VNull, k)
  /\ (forall b, resolveExpressions ev k (VBool b) context = (VBool b, k))
  /\ (forall n, resolveExpressions ev k (VNum n) context = (VNum n, k))
  /\ (forall q, resolveExpressions ev k (VFrac q) context = (VFrac q, k)).
Proof.
  split; [| split; [| repeat split]].
  - intros items. exists (fst (resolveItems ev context k items)).
    rewrite resolve_array. split; [| apply resolveItems_each].
    destruct (resolveItems ev context k items); reflexivity.
  - intros fields. exists (fst (resolveEntries ev context k fields)).
    rewrite resolve_object. split; [| apply resolveEntries_each].
    destruct (resolveEntries ev context k fields); reflexivity.
Qed.

Lemma builtin_dispatch (ev : Evaluator) (k : nat) (rest : string)
    (context : ExecutionContext) :
  evaluateExpression ev k ("$now(" +:+ rest) context = VStr (now_iso ev k)
  /\ evaluateExpression ev k ("$uuid(" +:+ rest) context = VStr (nanoid ev k)
  /\ evaluateExpression ev k ("$timestamp(" +:+ rest) context = VNum (date_now ev k).
Proof. repeat split; reflexivity. Qed.

Lemma trimEnd_cons (c : ascii) (s : string) :
  isWhiteSpace c = false -> trimEnd (String c s) = String c (trimEnd s).
Proof. intros Hc. cbn [trimEnd]. rewrite Hc. destruct (trimEnd s); reflexivity. Qed.

Lemma trim_after_name (name rest : string) :
  forallb_string (fun c => negb (isWhiteSpace c)) name = true ->
  name <> EmptyString ->
  trim (name +:+ rest) = name +:+ trimEnd rest.
Proof.
  intros Hname Hne. unfold trim.
  assert (Hstart : trimStart (name +:+ rest) = name +:+ rest).
  { destruct name as [| c name]; [congruence |].
    cbn [forallb_string] in Hname. apply andb_true_iff in Hname.
    destruct Hname as [Hc _]. apply negb_true_iff in Hc.
    change (String c name +:+ rest) with (String c (name +:+ rest)).
    cbn [trimStart]. rewrite Hc. reflexivity. }
  rewrite Hstart. clear Hstart Hne.
  induction name as [| c name IH]; [reflexivity |].
  cbn [forallb_string] in Hname. apply andb_true_iff in Hname.
  destruct Hname as [Hc Hrest]. apply negb_true_iff in Hc.
  change (String c name +:+ rest) with (String c (name +:+ rest)).
  rewrite (trimEnd_cons c _ Hc), (IH Hrest). reflexivity.
Qed.

Lemma no_terminator_app (a b : string) :
  forallb_string (fun c => negb (isLineTerminator c)) a = true ->
  forallb_string (fun c => negb (isLineTerminator c)) b = true ->
  forallb_string (fun c => negb (isLineTerminator c)) (a +:+ b) = true.
Proof.
  intros Ha Hb. induction a as [| c a IH]; [exact Hb |].
  cbn [forallb_string] in Ha. apply andb_true_iff in Ha. destruct Ha as [Hc Ha].
  change (String c a +:+ b) with (String c (a +:+ b)).
  cbn [forallb_string]. rewrite Hc, (IH Ha). reflexivity.
Qed.

(** X20: a string that is one placeholder whose content starts with the
    name of a built-in and an opening parenthesis resolves to the raw value
    of the built-in (a number for [$timestamp]), whatever follows the
    parenthesis, braces included: arguments and any continuation of the
    expression are ignored, and the expression language is not asked. *)
Theorem builtin_call_ignores_the_rest (ev : Evaluator) (k : nat) (rest : string)
    (context : ExecutionContext) :
  forallb_string (fun c => negb (isLineTerminator c)) rest = true ->
  resolveExpressions ev k (VStr ("{{" +:+ ("$now(" +:+ rest) +:+ "}}")) context
  = (VStr (now_iso ev k), S k)
  /\ resolveExpressions ev k (VStr ("{{" +:+ ("$uuid(" +:+ rest) +:+ "}}")) context
     = (VStr (nanoid ev k), S k)
  /\ resolveExpressions ev k (VStr ("{{" +:+ ("$timestamp(" +:+ rest) +:+ "}}")) context
     = (VNum (date_now ev k), S k).
Proof.
  intros Hrest. cbn [resolveExpressions].
  destruct (builtin_dispatch ev k (trimEnd rest) context) as (Hnow & Huuid & Hts).
  repeat split.
  - rewrite (resolveStringTemplate_wrapped ev k ("$now(" +:+ rest) context);
      [| discriminate | apply no_terminator_app; [reflexivity | exact Hrest]].
    rewrite (trim_after_name "$now(" rest eq_refl); [| discriminate].
    rewrite Hnow. reflexivity.
  - rewrite (resolveStringTemplate_wrapped ev k ("$uuid(" +:+ rest) context);
      [| discriminate | apply no_terminator_app; [reflexivity | exact Hrest]].
    rewrite (trim_after_name "$uuid(" rest eq_refl); [| discriminate].
    rewrite Huuid. reflexivity.
  - rewrite (resolveStringTemplate_wrapped ev k ("$timestamp(" +:+ rest) context);
      [| discriminate | apply no_terminator_app; [reflexivity | exact Hrest]].
    rewrite (trim_after_name "$timestamp(" rest eq_refl); [| discriminate].
    rewrite Hts. reflexivity.
Qed.

Lemma builtin_call_ignores_the_rest_witness :
  resolveExpressions variablesOnly 0 (VStr "{{$now() + 1000 }}") sampleContext
  = (VStr (now_iso variablesOnly 0), 1%nat)
  /\ resolveExpressions variablesOnly 0 (VStr "{{$uuid() + 1000 }}") sampleContext
     = (VStr (nanoid variablesOnly 0), 1%nat)
  /\ resolveExpressions variablesOnly 0 (VStr "{{$timestamp() + 1000 }}") sampleContext
     = (VNum (date_now variablesOnly 0), 1%nat).
Proof.
  exact (builtin_call_ignores_the_rest variablesOnly 0 ") + 1000 " sampleContext eq_refl).
Defined.

(** * Properties of the step handlers *)

Lemma settledOf_settle (config : Config) (env : Env) (step : Step) (run : Run)
    (handler : StepHandler) (r : Result value) (afterMs : Z) :
  handler step (resolvedConfigOf env step run) (r_context run) = settle r afterMs ->
  afterMs < timeoutOf config step ->
  settledOf config env step run handler
  = (match r with Ok v => inl v | Throw e => inr e end, afterMs).
Proof.
  intros Hcall Hfast. unfold settledOf. rewrite Hcall.
  assert (Hle : (afterMs <=? timeoutOf config step) = true) by (apply Z.leb_le; lia).
  clear Hfast; rename Hle into Hfast.
  destruct r as [v | e]; cbn [settle race]; rewrite Hfast; reflexivity.
Qed.

Lemma classifyHttpError_code (s : Z) (m : option string) :
  code (classifyHttpError s m) = "HTTP_" +:+ Z_to_string s.
Proof.
  unfold classifyHttpError.
  repeat match goal with
         | |- context [if ?b then _ else _] => destruct b eqn:?
         end; cbn [code]; try reflexivity.
  all: match goal with
       | H : (?x =? _) = true |- _ => apply Z.eqb_eq in H; subst x; reflexivity
       end.
Qed.

Lemma classifyHttpError_message (s : Z) (m : string) :
  message (classifyHttpError s (Some m)) = m.
Proof.
  unfold classifyHttpError.
  repeat match goal with
         | |- context [if ?b then _ else _] => destruct b
         end; reflexivity.
Qed.

Lemma worthRetrying_category (s : Z) :
  spec_retryable (spec_httpCategory s) = worthRetrying s.
Proof.
  unfold spec_httpCategory, worthRetrying.
  repeat match goal with
         | |- context [if ?b then _ else _] =>
             lazymatch b with
             | decide _ => destruct b
             | _ => destruct b eqn:?
             end
         end; cbn [spec_retryable];
    destruct (500 <=? s) eqn:H5; destruct (s <=? 599) eqn:H6;
    destruct (s =? 429) eqn:H4; try reflexivity; exfalso; lia.
Qed.

Lemma httpExecute_object (fetch : Fetch) (input : value) :
  isObject input = true ->
  httpExecute fetch input
  = match httpTry (fetched fetch input) with
    | Ok output => Ok output
    | Throw e => Throw (httpCatch (orDefaultTimeout (field "timeoutMs" input)) e)
    end.
Proof. destruct input; try discriminate. intros _. reflexivity. Qed.

(** A response with an error status, as the handler throws it. *)
Lemma httpExecute_error_status (fetch : Fetch) (input : value) (r : Response)
    (body : value) :
  isObject input = true ->
  fetched fetch input = Responds r ->
  readBody r = Ok body ->
  ok r = false ->
  httpExecute fetch input
  = Throw (ThrownWorkflowError
             (newWorkflowError ("HTTP_" +:+ Z_to_string (resp_status r))
                ("HTTP " +:+ Z_to_string (resp_status r))
                (spec_httpCategory (resp_status r))
                (VObj [("status", VNum (resp_status r)); ("body", body)]))).
Proof.
  intros Hobj Hfetch Hbody Hok.
  rewrite (httpExecute_object fetch input Hobj), Hfetch.
  unfold httpTry. rewrite Hbody. cbn [andThen]. rewrite Hok. cbn [negb httpCatch].
  rewrite classifyHttpError_code, classifyHttpError_message,
    classifyHttpError_category.
  reflexivity.
Qed.

(** X21: an [http] step whose request is answered in time with a status
    outside 200..299 fails with code [HTTP_<status>], message
    [HTTP <status>], the category of the status table, and the status and
    the body as details.  The attempt is repeated, with backoff, exactly
    when the status is 5xx or 429 and attempts remain; for every other
    status the run is written [failed] at once, whatever the retry policy
    of the step. *)
Theorem http_status_decides_retry (config : Config) (env : Env)
    (handlers : StepType -> option StepHandler) (msg : ExecuteStepMessage)
    (w : World) (workflow : Workflow) (run : Run) (step : Step)
    (fetch : Fetch) (afterMs : Z) (r : Response) (body : value) :
  Active handlers msg w workflow run step (httpHandler fetch afterMs) ->
  isObject (resolvedConfigOf env step run) = true ->
  fetched fetch (resolvedConfigOf env step run) = Responds r ->
  readBody r = Ok body ->
  ok r = false ->
  afterMs < timeoutOf config step ->
  let c := httpStatusError r body in
  let again := worthRetrying (resp_status r)
               && (attempt msg <? maxAttempts (policyOf step)) in
  processExecuteStep config env handlers msg w
  = (Ok tt,
     {| workflows := workflows w;
        runs := if again then runs w
                else <[runId msg := failedRun msg step c (env_now env + afterMs) run]>
                       (runs w);
        stepExecutions :=
          stepExecutions w
          ++ [attemptRow env msg step run exec_failed None (Some (stepErrorOf c)) afterMs];
        idempotencyKeys := idempotencyKeys w;
        jobs := if again then jobs w ++ [retryJob env msg step] else jobs w;
        locks := locks w |}).
Proof.
  intros Hactive Hobj Hfetch Hbody Hok Hfast c again.
  pose proof (httpExecute_error_status fetch _ r body Hobj Hfetch Hbody Hok) as Hthrow.
  pose proof (settledOf_settle config env step run (httpHandler fetch afterMs)
                (httpExecute fetch (resolvedConfigOf env step run)) afterMs
                eq_refl Hfast) as Hs.
  rewrite Hthrow in Hs.
  pose proof (rejected_outcome config env handlers msg w workflow run step _ _
                Hactive (f_equal fst Hs)) as H.
  cbv zeta in H. rewrite Hs in H. cbn [snd] in H.
  assert (Hc : classifyError
                 (ThrownWorkflowError
                    (newWorkflowError ("HTTP_" +:+ Z_to_string (resp_status r))
                       ("HTTP " +:+ Z_to_string (resp_status r))
                       (spec_httpCategory (resp_status r))
                       (VObj [("status", VNum (resp_status r)); ("body", body)])))
               = c).
  { subst c. unfold httpStatusError. cbn [classifyError toClassified we_category
      we_code we_message we_details]. f_equal.
    rewrite <- worthRetrying_category. unfold we_retryable. cbn [we_category].
    destruct (spec_httpCategory (resp_status r)); reflexivity. }
  rewrite Hc in H. exact H.
Qed.

Lemma http_status_decides_retry_witness :
  let r := {| resp_status := 404;
              resp_headers := [("content-type", "text/plain")];
              resp_json := Throw (ThrownError "SyntaxError" "Unexpected token m");
              resp_text := Ok "missing" |} in
  let c := httpStatusError r (VStr "missing") in
  let again := worthRetrying (resp_status r)
               && (attempt msg1 <? maxAttempts (policyOf fetchStep)) in
  processExecuteStep defaultConfig env0
    (executeWorkerHandlers (httpHandler answer404 120) okHandler okHandler) msg1 world0
  = (Ok tt,
     {| workflows := workflows world0;
        runs := if again then runs world0
                else <[runId msg1 := failedRun msg1 fetchStep c (env_now env0 + 120) run1]>
                       (runs world0);
        stepExecutions :=
          stepExecutions world0
          ++ [attemptRow env0 msg1 fetchStep run1 exec_failed None
                (Some (stepErrorOf c)) 120];
        idempotencyKeys := idempotencyKeys world0;
        jobs := if again then jobs world0 ++ [retryJob env0 msg1 fetchStep]
                else jobs world0;
        locks := locks world0 |}).
Proof.
  intros r.
  assert (H1 : 120 < timeoutOf defaultConfig fetchStep) by (vm_compute; reflexivity).
  exact (http_status_decides_retry defaultConfig env0 _ msg1 world0 ordersWorkflow run1
           fetchStep answer404 120 r (VStr "missing")
           (sample_active (httpHandler answer404 120)) eq_refl eq_refl eq_refl eq_refl H1).
Defined.

(** X22: when [fetch] rejects, or reading the body of the response throws,
    with an [Error] that is not a [WorkflowError], [httpHandler] throws a
    TRANSIENT, hence retryable, [WorkflowError]: [TIMEOUT] for an
    [AbortError], naming the configured timeout or the default of 30000 ms,
    [NETWORK_ERROR] with the message of the error otherwise.  A body that
    is announced as JSON and does not parse is therefore a [NETWORK_ERROR],
    whatever the status of the response. *)
Theorem http_transport_errors_are_transient (fetch : Fetch) (input : value)
    (name msg : string) :
  isObject input = true ->
  fetched fetch input = FetchRejects (ThrownError name msg)
  \/ (exists r, fetched fetch input = Responds r
                /\ readBody r = Throw (ThrownError name msg)) ->
  let timeoutMs := orDefaultTimeout (field "timeoutMs" input) in
  let thrown :=
    if String.eqb name "AbortError" then
      newWorkflowError "TIMEOUT"
        ("Request timeout after " +:+ String_of timeoutMs +:+ "ms") TRANSIENT VUndefined
    else newWorkflowError "NETWORK_ERROR" msg TRANSIENT VUndefined in
  httpExecute fetch input = Throw (ThrownWorkflowError thrown)
  /\ retryable (classifyError (ThrownWorkflowError thrown)) = true.
Proof.
  intros Hobj Hfail timeoutMs thrown.
  rewrite (httpExecute_object fetch input Hobj).
  assert (Htry : httpTry (fetched fetch input) = Throw (ThrownError name msg)).
  { destruct Hfail as [Hrej | (r & Hresp & Hbody)].
    - rewrite Hrej. reflexivity.
    - rewrite Hresp. unfold httpTry. rewrite Hbody. reflexivity. }
  rewrite Htry. cbn [httpCatch]. fold timeoutMs. subst thrown.
  destruct (String.eqb name "AbortError"); split; reflexivity.
Qed.

Lemma http_transport_errors_are_transient_witness :
  let input := resolvedConfigOf env0 fetchStep run1 in
  let timeoutMs := orDefaultTimeout (field "timeoutMs" input) in
  let thrown :=
    if String.eqb "SyntaxError" "AbortError" then
      newWorkflowError "TIMEOUT"
        ("Request timeout after " +:+ String_of timeoutMs +:+ "ms") TRANSIENT VUndefined
    else newWorkflowError "NETWORK_ERROR" "Unexpected end of JSON input"
           TRANSIENT VUndefined in
  httpExecute answerBadJson input = Throw (ThrownWorkflowError thrown)
  /\ retryable (classifyError (ThrownWorkflowError thrown)) = true.
Proof.
  intros input.
  assert (H : fetched answerBadJson input
              = FetchRejects (ThrownError "SyntaxError" "Unexpected end of JSON input")
              \/ (exists r, fetched answerBadJson input = Responds r
                            /\ readBody r
                               = Throw (ThrownError "SyntaxError"
                                          "Unexpected end of JSON input"))).
  { right. eexists. split; reflexivity. }
  exact (http_transport_errors_are_transient answerBadJson input "SyntaxError"
           "Unexpected end of JSON input" eq_refl H).
Defined.

(** X23: a [transform] step whose expression the expression language
    rejects fails with code [TRANSFORM_ERROR], category VALIDATION, and the
    expression as details; the error is not retryable, so the run is
    written [failed] on the first attempt and nothing is enqueued, whatever
    [maxAttempts] the step's retry policy allows. *)
Theorem transform_failure_is_final (config : Config) (env : Env)
    (handlers : StepType -> option StepHandler) (msg : ExecuteStepMessage)
    (w : World) (workflow : Workflow) (run : Run) (step : Step)
    (ev : Evaluator) (errorMessage : value -> string) (afterMs : Z) (text : string) :
  Active handlers msg w workflow run step (transformHandler ev errorMessage afterMs) ->
  getProp "expression" (resolvedConfigOf env step run) = Ok (VStr text) ->
  evaluateTransform ev 0 text (r_context run) = None ->
  afterMs < timeoutOf config step ->
  let c := transformFailure errorMessage text in
  processExecuteStep config env handlers msg w
  = (Ok tt,
     {| workflows := workflows w;
        runs := <[runId msg := failedRun msg step c (env_now env + afterMs) run]> (runs w);
        stepExecutions :=
          stepExecutions w
          ++ [attemptRow env msg step run exec_failed None (Some (stepErrorOf c)) afterMs];
        idempotencyKeys := idempotencyKeys w;
        jobs := jobs w;
        locks := locks w |}).
Proof.
  intros Hactive Hexpr Hbad Hfast c.
  assert (Hthrow : transformExecute ev errorMessage (resolvedConfigOf env step run)
                     (r_context run)
                   = Throw (transformError errorMessage (VStr text))).
  { unfold transformExecute. rewrite Hexpr. cbn [andThen]. rewrite Hbad. reflexivity. }
  pose proof (settledOf_settle config env step run
                (transformHandler ev errorMessage afterMs)
                (transformExecute ev errorMessage (resolvedConfigOf env step run)
                   (r_context run)) afterMs eq_refl Hfast) as Hs.
  rewrite Hthrow in Hs.
  pose proof (rejected_outcome config env handlers msg w workflow run step _ _
                Hactive (f_equal fst Hs)) as H.
  cbv zeta in H. rewrite Hs in H. cbn [snd] in H.
  change (classifyError (transformError errorMessage (VStr text))) with c in H.
  cbn [retryable c transformFailure andb] in H. exact H.
Qed.

Lemma sample_active_shape (h : StepHandler) :
  Active (executeWorkerHandlers okHandler h okHandler) shapeMsg pipelineWorld
    pipelineWorkflow run8 shapeStep h.
Proof.
  split; try (vm_compute; reflexivity).
  apply (bool_decide_unpack _). vm_compute. reflexivity.
Qed.

Lemma transform_failure_is_final_witness :
  let h := transformHandler variablesOnly sampleMessage 3 in
  let c := transformFailure sampleMessage "bad @@" in
  maxAttempts (policyOf shapeStep) = 5
  /\ processExecuteStep defaultConfig env0 (executeWorkerHandlers okHandler h okHandler)
       shapeMsg pipelineWorld
     = (Ok tt,
        {| workflows := workflows pipelineWorld;
           runs := <[runId shapeMsg := failedRun shapeMsg shapeStep c (env_now env0 + 3) run8]>
                     (runs pipelineWorld);
           stepExecutions :=
             stepExecutions pipelineWorld
             ++ [attemptRow env0 shapeMsg shapeStep run8 exec_failed None
                   (Some (stepErrorOf c)) 3];
           idempotencyKeys := idempotencyKeys pipelineWorld;
           jobs := jobs pipelineWorld;
           locks := locks pipelineWorld |}).
Proof.
  intros h c. split; [reflexivity |].
  assert (H1 : 3 < timeoutOf defaultConfig shapeStep) by (vm_compute; reflexivity).
  exact (transform_failure_is_final defaultConfig env0 _ shapeMsg pipelineWorld
           pipelineWorkflow run8 shapeStep variablesOnly sampleMessage 3 "bad @@"
           (sample_active_shape h) eq_refl eq_refl H1).
Defined.

Lemma andThen_throw {A B} (r : Result A) (k : A -> Result B) (e : Thrown) :
  andThen r k = Throw e ->
  r = Throw e \/ exists a, r = Ok a /\ k a = Throw e.
Proof.
  destruct r as [a | e0]; cbn [andThen]; intros H.
  - right. exists a. split; [reflexivity | exact H].
  - left. injection H as ->. reflexivity.
Qed.

Lemma getProp_throw (key : string) (v : value) (e : Thrown) :
  getProp key v = Throw e -> exists msg, e = ThrownError "TypeError" msg.
Proof.
  destruct v; cbn [getProp]; intros H; inversion H; eexists; reflexivity.
Qed.

Lemma firstOf_throw (v : value) (e : Thrown) :
  firstOf v = Throw e -> exists msg, e = ThrownError "TypeError" msg.
Proof.
  destruct v as [| | b | n | q | s | items | fields]; cbn [firstOf]; intros H;
    try (inversion H; eexists; reflexivity).
  - destruct s; discriminate H.
  - destruct items; discriminate H.
Qed.

(** What the [try] of [callLMStudio] throws: an error of the runtime, the
    error for a response without choices, or the error for a status. *)
Lemma lmTry_throw (outcome : FetchOutcome) (e : Thrown) :
  FromRuntime outcome ->
  lmTry outcome = Throw e ->
  NotWorkflowError e
  \/ e = ThrownWorkflowError
           (newWorkflowError "AI_NO_RESPONSE" "LM Studio returned no choices"
              TRANSIENT VUndefined)
  \/ exists r,
       outcome = Responds r /\ ok r = false
       /\ e = ThrownWorkflowError
                (newWorkflowError ("HTTP_" +:+ Z_to_string (resp_status r))
                   ("LM Studio error: " +:+ message (classifyHttpError (resp_status r) None))
                   (if worthRetrying (resp_status r) then TRANSIENT else FATAL)
                   (VObj [("status", VNum (resp_status r))])).
Proof.
  intros Hrt Hthrow.
  destruct outcome as [r | e0]; cbn [lmTry] in Hthrow.
  - destruct (ok r) eqn:Hok; cbn [negb] in Hthrow.
    + destruct Hrt as [Hjson _].
      assert (Hplain : forall key v, getProp key v = Throw e -> NotWorkflowError e).
      { intros key v H. destruct (getProp_throw key v e H) as [m ->]. exact I. }
      apply andThen_throw in Hthrow.
      destruct Hthrow as [Hj | (data & _ & Hthrow)].
      { left. rewrite Hj in Hjson. destruct e; [contradiction | exact I | exact I]. }
      apply andThen_throw in Hthrow.
      destruct Hthrow as [Hc | (choices & _ & Hthrow)]; [left; eapply Hplain; exact Hc |].
      apply andThen_throw in Hthrow.
      destruct Hthrow as [Hc | (choice & _ & Hthrow)].
      { left. destruct (firstOf_throw _ _ Hc) as [m ->]. exact I. }
      destruct (isTruthy choice); cbn [negb] in Hthrow.
      2: { right. left. inversion Hthrow. reflexivity. }
      apply andThen_throw in Hthrow.
      destruct Hthrow as [Hc | (msg & _ & Hthrow)]; [left; eapply Hplain; exact Hc |].
      apply andThen_throw in Hthrow.
      destruct Hthrow as [Hc | (content & _ & Hthrow)]; [left; eapply Hplain; exact Hc |].
      apply andThen_throw in Hthrow.
      destruct Hthrow as [Hc | (usage & _ & Hthrow)]; [left; eapply Hplain; exact Hc |].
      apply andThen_throw in Hthrow.
      destruct Hthrow as [Hc | (usage' & _ & Hthrow)]; [| discriminate Hthrow].
      destruct (isTruthy usage); [| discriminate Hc].
      apply andThen_throw in Hc.
      destruct Hc as [Hc | (p & _ & Hc)]; [left; eapply Hplain; exact Hc |].
      apply andThen_throw in Hc.
      destruct Hc as [Hc | (c & _ & Hc)]; [left; eapply Hplain; exact Hc |].
      apply andThen_throw in Hc.
      destruct Hc as [Hc | (t & _ & Hc)]; [left; eapply Hplain; exact Hc |].
      discriminate Hc.
    + right. right. exists r. split; [reflexivity |]. split; [exact Hok |].
      inversion Hthrow. rewrite classifyHttpError_code, classifyHttpError_retryable,
        classifyHttpError_category, worthRetrying_category. reflexivity.
  - left. inversion Hthrow. subst e0. destruct e; [contradiction | exact I | exact I].
Qed.

Lemma lmTry_status (r : Response) :
  ok r = false ->
  lmTry (Responds r)
  = Throw (ThrownWorkflowError
             (newWorkflowError ("HTTP_" +:+ Z_to_string (resp_status r))
                ("LM Studio error: " +:+ message (classifyHttpError (resp_status r) None))
                (if worthRetrying (resp_status r) then TRANSIENT else FATAL)
                (VObj [("status", VNum (resp_status r))]))).
Proof.
  intros Hok. cbn [lmTry]. rewrite Hok. cbn [negb].
  rewrite classifyHttpError_code, classifyHttpError_retryable,
    classifyHttpError_category, worthRetrying_category. reflexivity.
Qed.

(** X24: the failures of [callLMStudio], by cause.  A response with an
    error status is thrown as a [WorkflowError] with code [HTTP_<status>],
    the status in its details, and category TRANSIENT when the status is
    5xx or 429 and FATAL otherwise, so that 401, 403 and 404 are FATAL here
    and not retried.  An [Error] of the runtime thrown inside the [try] (a
    rejected [fetch], a body that is not JSON, a field read on [undefined]
    or [null]) becomes a TRANSIENT [WorkflowError]: [AI_TIMEOUT] for an
    [AbortError], else [AI_UNAVAILABLE] when its message contains
    [ECONNREFUSED], else [AI_ERROR] with its message.  A response without a
    first choice is [AI_NO_RESPONSE], TRANSIENT.  A thrown value that is
    not an [Error] is passed on as it is.  There is no other failure. *)
Theorem lm_studio_failures (LM_STUDIO_URL : string) (fetch : Fetch)
    (options : LMStudioOptions) :
  let outcome := fetch (VStr (LM_STUDIO_URL +:+ "/chat/completions"))
                   (lmRequestInit options) (VNum 300000) in
  let result := callLMStudio LM_STUDIO_URL fetch options in
  (forall r : Response,
     outcome = Responds r -> ok r = false ->
     let retry := ((500 <=? resp_status r) && (resp_status r <=? 599))
                  || (resp_status r =? 429) in
     exists we,
       result = Throw (ThrownWorkflowError we)
       /\ we_code we = "HTTP_" +:+ Z_to_string (resp_status r)
       /\ we_message we
          = "LM Studio error: " +:+ message (classifyHttpError (resp_status r) None)
       /\ we_details we = VObj [("status", VNum (resp_status r))]
       /\ we_category we = (if retry then TRANSIENT else FATAL)
       /\ retryable (classifyError (ThrownWorkflowError we)) = retry
       /\ (resp_status r = 401 \/ resp_status r = 403 \/ resp_status r = 404 ->
           we_category we = FATAL
           /\ retryable (classifyError (ThrownWorkflowError we)) = false))
  /\ (forall name msg : string,
        lmTry outcome = Throw (ThrownError name msg) ->
        exists we,
          result = Throw (ThrownWorkflowError we)
          /\ we_category we = TRANSIENT
          /\ retryable (classifyError (ThrownWorkflowError we)) = true
          /\ we_details we = VUndefined
          /\ (we_code we, we_message we)
             = if String.eqb name "AbortError"
               then ("AI_TIMEOUT", "LM Studio request timed out")
               else if includes "ECONNREFUSED" msg
               then ("AI_UNAVAILABLE",
                     "LM Studio is not available. Make sure it is running.")
               else ("AI_ERROR", msg))
  /\ (forall e : Thrown, outcome = FetchRejects e -> lmTry outcome = Throw e)
  /\ (forall (r : Response) (e : Thrown),
        outcome = Responds r -> ok r = true -> resp_json r = Throw e ->
        lmTry outcome = Throw e)
  /\ (forall (r : Response) (data : value),
        outcome = Responds r -> ok r = true -> resp_json r = Ok data ->
        data = VNull \/ data = VUndefined ->
        exists msg, lmTry outcome = Throw (ThrownError "TypeError" msg))
  /\ (forall (r : Response) (data choices choice : value),
        outcome = Responds r -> ok r = true -> resp_json r = Ok data ->
        getProp "choices" data = Ok choices -> firstOf choices = Ok choice ->
        isTruthy choice = false ->
        result = Throw (ThrownWorkflowError
                          (newWorkflowError "AI_NO_RESPONSE"
                             "LM Studio returned no choices" TRANSIENT VUndefined)))
  /\ (forall text : string,
        lmTry outcome = Throw (ThrownOther text) -> result = Throw (ThrownOther text))
  /\ (forall e : Thrown,
        result = Throw e ->
        match e with
        | ThrownWorkflowError we =>
            lmTry outcome = Throw e
            \/ exists name msg,
                 lmTry outcome = Throw (ThrownError name msg)
                 /\ we_category we = TRANSIENT
                 /\ (we_code we = "AI_TIMEOUT" \/ we_code we = "AI_UNAVAILABLE"
                     \/ we_code we = "AI_ERROR")
        | ThrownError _ _ => False
        | ThrownOther _ => lmTry outcome = Throw e
        end)
  /\ (forall we : WorkflowError,
        FromRuntime outcome ->
        lmTry outcome = Throw (ThrownWorkflowError we) ->
        we = newWorkflowError "AI_NO_RESPONSE" "LM Studio returned no choices"
               TRANSIENT VUndefined
        \/ exists r, outcome = Responds r /\ ok r = false
                     /\ we_code we = "HTTP_" +:+ Z_to_string (resp_status r)).
Proof.
  intros outcome result.
  assert (Hresult : result = match lmTry outcome with
                             | Ok x => Ok x
                             | Throw e => Throw (lmCatch e)
                             end) by reflexivity.
  split; [| split; [| split; [| split; [| split; [| split; [| split; [| split]]]]]]].
  - intros r Hr Hok retry. rewrite Hresult, Hr, (lmTry_status r Hok).
    cbn [lmCatch]. eexists. split; [reflexivity |].
    cbn [we_code we_message we_details we_category].
    split; [reflexivity |]. split; [reflexivity |]. split; [reflexivity |].
    fold (worthRetrying (resp_status r)). subst retry.
    fold (worthRetrying (resp_status r)).
    split; [reflexivity |].
    assert (Hret : retryable (classifyError
                     (ThrownWorkflowError
                        (newWorkflowError ("HTTP_" +:+ Z_to_string (resp_status r))
                           ("LM Studio error: "
                            +:+ message (classifyHttpError (resp_status r) None))
                           (if worthRetrying (resp_status r) then TRANSIENT else FATAL)
                           (VObj [("status", VNum (resp_status r))]))))
                   = worthRetrying (resp_status r)).
    { cbn [classifyError toClassified retryable]. unfold we_retryable.
      cbn [we_category].
      destruct (worthRetrying (resp_status r)); reflexivity. }
    split; [exact Hret |].
    intros Hs. rewrite Hret.
    assert (Hw : worthRetrying (resp_status r) = false)
      by (destruct Hs as [-> | [-> | ->]]; reflexivity).
    rewrite Hw. split; reflexivity.
  - intros name msg Htry. rewrite Hresult, Htry. cbn [lmCatch].
    destruct (String.eqb name "AbortError").
    + eexists. split; [reflexivity |]. repeat split; reflexivity.
    + destruct (includes "ECONNREFUSED" msg);
        (eexists; split; [reflexivity |]; repeat split; reflexivity).
  - intros e He. rewrite He. reflexivity.
  - intros r e Hr Hok Hjson. rewrite Hr. cbn [lmTry]. rewrite Hok, Hjson. reflexivity.
  - intros r data Hr Hok Hjson Hdata. rewrite Hr. cbn [lmTry]. rewrite Hok, Hjson.
    cbn [negb andThen]. destruct Hdata as [-> | ->]; cbn [getProp andThen];
      eexists; reflexivity.
  - intros r data choices choice Hr Hok Hjson Hchoices Hfirst Hfalsy.
    rewrite Hresult, Hr. cbn [lmTry]. rewrite Hok, Hjson. cbn [negb andThen].
    rewrite Hchoices. cbn [andThen]. rewrite Hfirst. cbn [andThen]. rewrite Hfalsy.
    reflexivity.
  - intros text Htry. rewrite Hresult, Htry. reflexivity.
  - intros e He. rewrite Hresult in He.
    destruct (lmTry outcome) as [x | e0]; [discriminate He |].
    injection He as <-. destruct e0 as [we | name msg | text]; cbn [lmCatch].
    + left. reflexivity.
    + destruct (String.eqb name "AbortError");
        [| destruct (includes "ECONNREFUSED" msg)];
        right; exists name, msg; split; try reflexivity; split; try reflexivity;
        cbn [we_code]; auto.
    + reflexivity.
  - intros we Hrt Htry.
    destruct (lmTry_throw outcome _ Hrt Htry) as [Hplain | [Heq | (r & Hr & Hok & Heq)]].
    + contradiction.
    + left. injection Heq as ->. reflexivity.
    + right. exists r. split; [exact Hr |]. split; [exact Hok |].
      injection Heq as ->. reflexivity.
Qed.

Lemma lm_studio_failures_witness :
  (exists we,
     callLMStudio "http://localhost:1234/v1" answer404 sampleOptions
     = Throw (ThrownWorkflowError we)
     /\ we_code we = "HTTP_404"
     /\ we_message we = "LM Studio error: Resource not found"
     /\ we_details we = VObj [("status", VNum 404)]
     /\ we_category we = FATAL
     /\ retryable (classifyError (ThrownWorkflowError we)) = false)
  /\ (exists we,
        callLMStudio "http://localhost:1234/v1" answerBadJson sampleOptions
        = Throw (ThrownWorkflowError we)
        /\ we_category we = TRANSIENT
        /\ retryable (classifyError (ThrownWorkflowError we)) = true
        /\ (we_code we, we_message we) = ("AI_ERROR", "Unexpected end of JSON input"))
  /\ callLMStudio "http://localhost:1234/v1" (fun _ _ _ => FetchRejects (ThrownOther "oops"))
       sampleOptions
     = Throw (ThrownOther "oops").
Proof.
  split; [| split].
  - destruct (lm_studio_failures "http://localhost:1234/v1" answer404 sampleOptions)
      as (Hstatus & _).
    destruct (Hstatus _ eq_refl eq_refl) as (we & H1 & H2 & H3 & H4 & H5 & H6 & _).
    exists we. repeat split; assumption.
  - destruct (lm_studio_failures "http://localhost:1234/v1" answerBadJson sampleOptions)
      as (_ & Hruntime & _).
    destruct (Hruntime "SyntaxError" "Unexpected end of JSON input" eq_refl)
      as (we & H1 & H2 & H3 & _ & H5).
    exists we. repeat split; assumption.
  - destruct (lm_studio_failures "http://localhost:1234/v1"
                (fun _ _ _ => FetchRejects (ThrownOther "oops")) sampleOptions)
      as (_ & _ & _ & _ & _ & _ & Hother & _).
    exact (Hother "oops" eq_refl).
Defined.

Lemma resolveEntries_number (ev : Evaluator) (context : ExecutionContext) (key : string)
    (n : Z) (fields : list (string * value)) :
  forall k,
    lookupField key fields = Some (VNum n) ->
    lookupField key (fst (resolveEntries ev context k fields)) = Some (VNum n).
Proof.
  induction fields as [| [key0 x] fields IH]; intros k Hfind; [discriminate Hfind |].
  cbn [resolveEntries lookupField] in *.
  destruct (resolveExpressions ev k x context) as [y k1] eqn:Hx.
  pose proof (IH k1) as IH1.
  destruct (resolveEntries ev context k1 fields) as [ys k2]. cbn [fst lookupField] in *.
  destruct (String.eqb key0 key).
  - injection Hfind as ->. cbn [resolveExpressions] in Hx. injection Hx as <- _.
    reflexivity.
  - exact (IH1 Hfind).
Qed.

Lemma resolved_number (env : Env) (step : Step) (run : Run) (key : string) (n : Z)
    (fields : list (string * value)) :
  s_config step = VObj fields ->
  lookupField key fields = Some (VNum n) ->
  getProp key (resolvedConfigOf env step run) = Ok (VNum n).
Proof.
  intros Hconfig Hfind. unfold resolvedConfigOf. rewrite Hconfig, resolve_object.
  pose proof (resolveEntries_number (env_evaluator env) (r_context run) key n fields
                0%nat Hfind) as H.
  destruct (resolveEntries _ _ _ fields) as [ys k']. cbn [fst getProp] in *.
  rewrite H. reflexivity.
Qed.

(** X25: a [delay] step does not wait.  Its handler fulfils at once with
    [delayMs] and the date the delay ends, the attempt is [completed] with
    the milliseconds the call took, the run moves on, and the delay is
    carried by the job of the next step: the message for the step at
    [stepIndex + 1] is enqueued with the delay [durationMs] of the step's
    configuration. *)
Theorem delay_is_carried_by_the_next_job (config : Config) (env : Env)
    (handlers : StepType -> option StepHandler) (msg : ExecuteStepMessage)
    (w : World) (workflow : Workflow) (run : Run) (step : Step)
    (now : Z) (toISOString : Z -> string) (dateOf : value -> Result string)
    (afterMs : Z) (fields : list (string * value)) (d : Z) (next : Step)
    (text ctext : string) :
  Active handlers msg w workflow run step
    (delayHandler now toISOString dateOf afterMs) ->
  s_type step = delay ->
  s_config step = VObj fields ->
  lookupField "durationMs" fields = Some (VNum d) ->
  Z.abs (now + d) <= 8640000000000000 ->
  afterMs < timeoutOf config step ->
  let output := VObj [("delayMs", VNum d);
                      ("delayedUntil", VStr (toISOString (now + d)))] in
  JSON_stringify output = Some text ->
  Z.of_nat (String.length text) <= MAX_STEP_OUTPUT_BYTES config ->
  JSON_stringify (contextJson (extendedContext run step output)) = Some ctext ->
  Z.of_nat (String.length ctext) <= MAX_CONTEXT_SIZE_BYTES config ->
  nthZ (List.filter s_enabled (wf_steps workflow)) (stepIndex msg + 1) = Some next ->
  processExecuteStep config env handlers msg w
  = (Ok tt,
     {| workflows := workflows w;
        runs := <[runId msg := advancedRun msg step output run]> (runs w);
        stepExecutions :=
          stepExecutions w
          ++ [attemptRow env msg step run exec_completed (Some output) None afterMs];
        idempotencyKeys := idempotencyKeys w;
        jobs := jobs w
                ++ [{| j_queue := queueFor (s_type next);
                       j_message :=
                         EXECUTE_STEP {| runId := runId msg; workflowId := workflowId msg;
                                         stepIndex := stepIndex msg + 1;
                                         stepId := s_id next; attempt := 1 |};
                       j_delay := Some (Double.ofZ d) |}];
        locks := locks w |}).
Proof.
  intros Hactive Htype Hconfig Hfind Hrange Hfast output Htext Hsmall Hctext Hcsmall
    Hnext.
  assert (Hrun : delayExecute now toISOString dateOf (resolvedConfigOf env step run)
                 = Ok output).
  { unfold delayExecute.
    rewrite (resolved_number env step run "durationMs" d fields Hconfig Hfind).
    cbn [andThen]. apply Z.leb_le in Hrange. rewrite Hrange. reflexivity. }
  pose proof (settledOf_settle config env step run
                (delayHandler now toISOString dateOf afterMs)
                (delayExecute now toISOString dateOf (resolvedConfigOf env step run))
                afterMs eq_refl Hfast) as Hs.
  rewrite Hrun in Hs.
  assert (Hpos : 0 <= stepIndex msg + 1).
  { unfold nthZ in Hnext. destruct (stepIndex msg + 1 <? 0) eqn:Hneg; [discriminate |].
    apply Z.ltb_ge in Hneg. exact Hneg. }
  pose proof (resolved_outcome config env handlers msg w workflow run step _
                output text ctext Hactive (f_equal fst Hs) Htext Hsmall Hctext Hcsmall
                Hpos) as H.
  cbv zeta in H. rewrite Hnext, Hs in H. cbn [snd] in H.
  unfold nextJob in H. rewrite Htype, Hconfig in H.
  unfold lookupNumber in H. rewrite Hfind in H. exact H.
Qed.

Lemma sample_active_wait (h : StepHandler) :
  Active (executeWorkerHandlers okHandler okHandler h) waitMsg pipelineWorld
    pipelineWorkflow run7 waitStep h.
Proof.
  split; try (vm_compute; reflexivity).
  apply (bool_decide_unpack _). vm_compute. reflexivity.
Qed.

Lemma delay_is_carried_by_the_next_job_witness :
  let h := delayHandler 2000 sampleISO sampleDateOf 1 in
  let output := VObj [("delayMs", VNum 5000);
                      ("delayedUntil", VStr (sampleISO (2000 + 5000)))] in
  processExecuteStep defaultConfig env0 (executeWorkerHandlers okHandler okHandler h)
    waitMsg pipelineWorld
  = (Ok tt,
     {| workflows := workflows pipelineWorld;
        runs := <[runId waitMsg := advancedRun waitMsg waitStep output run7]>
                  (runs pipelineWorld);
        stepExecutions :=
          stepExecutions pipelineWorld
          ++ [attemptRow env0 waitMsg waitStep run7 exec_completed (Some output) None 1];
        idempotencyKeys := idempotencyKeys pipelineWorld;
        jobs := jobs pipelineWorld
                ++ [{| j_queue := queueFor (s_type shapeStep);
                       j_message :=
                         EXECUTE_STEP {| runId := runId waitMsg;
                                         workflowId := workflowId waitMsg;
                                         stepIndex := stepIndex waitMsg + 1;
                                         stepId := s_id shapeStep; attempt := 1 |};
                       j_delay := Some (Double.ofZ 5000) |}];
        locks := locks pipelineWorld |}).
Proof.
  intros h output.
  assert (H0 : Z.abs (2000 + 5000) <= 8640000000000000) by (vm_compute; discriminate).
  assert (H1 : 1 < timeoutOf defaultConfig waitStep) by (vm_compute; reflexivity).
  assert (H2 : JSON_stringify output = Some (textOf output)) by (vm_compute; reflexivity).
  assert (H3 : Z.of_nat (String.length (textOf output))
               <= MAX_STEP_OUTPUT_BYTES defaultConfig) by (vm_compute; discriminate).
  assert (H4 : JSON_stringify (contextJson (extendedContext run7 waitStep output))
               = Some (textOf (contextJson (extendedContext run7 waitStep output))))
    by (vm_compute; reflexivity).
  assert (H5 : Z.of_nat (String.length
                           (textOf (contextJson (extendedContext run7 waitStep output))))
               <= MAX_CONTEXT_SIZE_BYTES defaultConfig) by (vm_compute; discriminate).
  exact (delay_is_carried_by_the_next_job defaultConfig env0 _ waitMsg pipelineWorld
           pipelineWorkflow run7 waitStep 2000 sampleISO sampleDateOf 1 _ 5000 shapeStep
           _ _ (sample_active_wait h) eq_refl eq_refl eq_refl H0 H1 H2 H3 H4 H5 eq_refl).
Defined.

Lemma list_to_map_lookupField (key : string) (l : list (string * value)) :
  (list_to_map l : gmap string value) !! key = lookupField key l.
Proof.
  induction l as [| [k v] l IH]; [apply lookup_empty |].
  cbn [list_to_map foldr lookupField]. 
  destruct (String.eqb k key) eqn:Hk.
  - apply String.eqb_eq in Hk. subst k. apply lookup_insert_eq.
  - apply String.eqb_neq in Hk. rewrite lookup_insert_ne by exact Hk. exact IH.
Qed.

Lemma JSON_stringify_undefined (v : value) : JSON_stringify v = None -> v = VUndefined.
Proof.
  destruct v as [| | b | n | q | s | items | fields]; cbn [JSON_stringify]; intros H;
    try discriminate H; [reflexivity |].
  destruct b; discriminate H.
Qed.

(** X26: the request [httpHandler] sends.  The header [Content-Type] is
    [application/json] unless the configuration gives a header of exactly
    that name, which then wins; every other header is the one of the
    configuration.  No body is sent with the method [GET], nor when the
    configured body is falsy ([undefined], [null], [false], [0] or the
    empty string); otherwise the body is the configured one, serialised. *)
Theorem http_request_shape (method headers body : value) :
  let request := requestOf method headers body in
  ri_method request = method
  /\ ri_headers request !! "Content-Type"
     = Some (match lookupField "Content-Type" (spread headers) with
             | Some v => v
             | None => VStr "application/json"
             end)
  /\ delete "Content-Type" (ri_headers request)
     = delete "Content-Type" (list_to_map (spread headers))
  /\ (ri_body request = None <-> isTruthy body = false \/ isString "GET" method = true)
  /\ (ri_body request = None \/ ri_body request = JSON_stringify body).
Proof.
  intros request. subst request. unfold requestOf. cbn [ri_method ri_headers ri_body].
  split; [reflexivity |]. split; [| split; [| split]].
  - rewrite lookup_union, list_to_map_lookupField, lookup_singleton_eq.
    destruct (lookupField "Content-Type" (spread headers)); reflexivity.
  - apply map_eq. intros k. destruct (decide (k = "Content-Type")) as [-> | Hk].
    + rewrite !lookup_delete_eq. reflexivity.
    + rewrite !lookup_delete_ne by congruence.
      rewrite lookup_union, lookup_singleton_ne by congruence.
      destruct (list_to_map (spread headers) !! k); reflexivity.
  - destruct (isTruthy body) eqn:Ht; destruct (isString "GET" method) eqn:Hg;
      cbn [andb negb]; split; intros H; try reflexivity; try (left; reflexivity);
      try (right; reflexivity).
    + apply JSON_stringify_undefined in H. subst body. discriminate Ht.
    + destruct H as [H | H]; discriminate H.
  - destruct (isTruthy body && negb (isString "GET" method));
      [right; reflexivity | left; reflexivity].
Qed.

(** * Further properties of the error taxonomy and of the idempotency keys *)

(** X28: for an [Error] that is not a [WorkflowError], the text of the
    message decides before the name does: a message that contains
    [timeout], or one of [ECONNREFUSED], [ENOTFOUND], [ETIMEDOUT],
    [ECONNRESET], [socket hang up], makes the error TRANSIENT and retryable,
    with code [NETWORK_ERROR] or [TIMEOUT], whatever its name, the names
    [ZodError] and [ValidationError] included. *)
Theorem message_text_decides_before_name (name msg : string) :
  includes "timeout" msg = true
  \/ includes "ECONNREFUSED" msg = true \/ includes "ENOTFOUND" msg = true
  \/ includes "ETIMEDOUT" msg = true \/ includes "ECONNRESET" msg = true
  \/ includes "socket hang up" msg = true ->
  category (classifyError (ThrownError name msg)) = TRANSIENT
  /\ retryable (classifyError (ThrownError name msg)) = true
  /\ message (classifyError (ThrownError name msg)) = msg
  /\ (code (classifyError (ThrownError name msg)) = "NETWORK_ERROR"
      \/ code (classifyError (ThrownError name msg)) = "TIMEOUT").
Proof.
  intros H. cbn [classifyError].
  destruct (includes "ECONNREFUSED" msg || includes "ENOTFOUND" msg
            || includes "ETIMEDOUT" msg || includes "ECONNRESET" msg
            || includes "socket hang up" msg) eqn:Hnet.
  - repeat split; try reflexivity. left. reflexivity.
  - repeat (apply orb_false_iff in Hnet; destruct Hnet as [Hnet ?]).
    destruct H as [Ht | [H | [H | [H | [H | H]]]]]; try congruence.
    rewrite Ht. cbn [orb]. repeat split; try reflexivity. right. reflexivity.
Qed.

Lemma message_text_decides_before_name_witness :
  category (classifyError (ThrownError "ZodError" "timeoutMs: expected a number"))
  = TRANSIENT
  /\ retryable (classifyError (ThrownError "ZodError" "timeoutMs: expected a number"))
     = true
  /\ message (classifyError (ThrownError "ZodError" "timeoutMs: expected a number"))
     = "timeoutMs: expected a number"
  /\ (code (classifyError (ThrownError "ZodError" "timeoutMs: expected a number"))
      = "NETWORK_ERROR"
      \/ code (classifyError (ThrownError "ZodError" "timeoutMs: expected a number"))
         = "TIMEOUT").
Proof.
  apply (message_text_decides_before_name "ZodError" "timeoutMs: expected a number").
  left. reflexivity.
Defined.

(** X29: the round trip of an idempotency key.  When [setIdempotencyKey]
    is given a key of at most 256 characters that is not in the table and a
    run that exists, it binds the key to the run, and [findByIdempotencyKey]
    then returns that run at every time before 24 hours have passed since
    the binding, and nothing from then on.  A key that is in the table keeps
    its binding and its expiry.  A key that is not in the table and does not
    fit the column (more than 256 characters, not all of the excess spaces)
    makes the call throw, and so does a run that does not exist; the world
    is then as it was.  No case writes a run. *)
Theorem idempotency_key_round_trip (now : Z) (key rid : string) (w : World) :
  (String.length key <= 256)%nat ->
  let w1 := snd (setIdempotencyKey now key rid w) in
  runs w1 = runs w
  /\ (forall run,
        idempotencyKeys w !! key = None -> runs w !! rid = Some run ->
        setIdempotencyKey now key rid w
        = (Ok tt, {| workflows := workflows w; runs := runs w;
                     stepExecutions := stepExecutions w;
                     idempotencyKeys := <[key := (rid, now + dayMs)]> (idempotencyKeys w);
                     jobs := jobs w; locks := locks w |})
        /\ forall later,
             findByIdempotencyKey later key w1
             = (Ok (if later <? now + dayMs then Some run else None), w1))
  /\ (idempotencyKeys w !! key = None -> runs w !! rid = None ->
      setIdempotencyKey now key rid w = (Throw foreignKeyViolation, w))
  /\ (forall binding, idempotencyKeys w !! key = Some binding ->
                      setIdempotencyKey now key rid w = (Ok tt, w))
  /\ (forall long,
        idempotencyKeys w !! long = None -> varchar 256 long = None ->
        (256 < String.length long)%nat
        /\ setIdempotencyKey now long rid w = (Throw valueTooLong, w)).
Proof.
  intros Hlen w1. split; [apply setIdempotencyKey_runs |]. split; [| split; [| split]].
  - intros run Hkey Hrun.
    assert (Heq : setIdempotencyKey now key rid w
                  = (Ok tt, setIdempotencyKeys (insert key (rid, now + dayMs)) w)).
    { unfold setIdempotencyKey. rewrite Hkey, (varchar_fits key Hlen), Hkey, Hrun.
      reflexivity. }
    split; [exact Heq |]. intros later. subst w1. rewrite Heq. cbn [snd].
    unfold findByIdempotencyKey. cbn [idempotencyKeys setIdempotencyKeys runs].
    rewrite lookup_insert_eq, Hrun. destruct (later <? now + dayMs); reflexivity.
  - intros Hkey Hrun. unfold setIdempotencyKey.
    rewrite Hkey, (varchar_fits key Hlen), Hkey, Hrun. reflexivity.
  - intros binding Hkey. unfold setIdempotencyKey. rewrite Hkey. reflexivity.
  - intros long Hkey Hlong. split; [exact (varchar_too_long long Hlong) |].
    unfold setIdempotencyKey. rewrite Hkey, Hlong. reflexivity.
Qed.

Lemma idempotency_key_round_trip_witness :
  let w1 := snd (setIdempotencyKey 5000 "order-42" "run1" world0) in
  (findByIdempotencyKey 6000 "order-42" w1 = (Ok (Some run1), w1)
   /\ findByIdempotencyKey (5000 + dayMs) "order-42" w1 = (Ok None, w1))
  /\ setIdempotencyKey 5000 "order-42" "run9" world0 = (Throw foreignKeyViolation, world0)
  /\ setIdempotencyKey 5000 (String.concat EmptyString (List.repeat "k" 257)) "run1" world0
     = (Throw valueTooLong, world0).
Proof.
  assert (Hlen : (String.length "order-42" <= 256)%nat) by (vm_compute; lia).
  destruct (idempotency_key_round_trip 5000 "order-42" "run1" world0 Hlen)
    as (_ & Hbind & _ & _ & Hlong).
  destruct (idempotency_key_round_trip 5000 "order-42" "run9" world0 Hlen)
    as (_ & _ & Hfk & _ & _).
  intros w1. split; [| split].
  - destruct (Hbind run1 eq_refl eq_refl) as [_ Hfind].
    split; [exact (Hfind 6000) | exact (Hfind (5000 + dayMs))].
  - exact (Hfk eq_refl eq_refl).
  - exact (proj2 (Hlong (String.concat EmptyString (List.repeat "k" 257))
                    eq_refl eq_refl)).
Defined.
